(** * TollVault: the CSV ingestion pipeline and the ledger store

    A shallow embedding of [main.go]: the record decoder and ingestion
    loop ([processCSV]), the insert-if-absent write ([saveTransaction]),
    the aggregation loop ([getAnalyticsFiltered]), the period grouping
    ([getHistory]) and the undo of the last upload ([handleReset]); then
    the reports and handlers around them ([getAnalytics], [getDateRange],
    [handleUpload], [handleHistory], [handleHistoryAPI],
    [sendTelegramReport] and the loop of [handleTelegramUpdates]).

    The [transactions] table is a list of rows in insertion order.  The
    surrogate [id] column is read by no statement of the program and is
    left out.  The SQL statements are given their meaning on that list,
    and each call of the engine takes what the engine does with it, a
    fault or none, as an argument.  Go's [float64] is an IEEE 754
    binary64 number ([spec_float] at precision 53), [int] is a 64-bit
    two's complement integer.  [strconv.ParseFloat] and the engine's
    floating-point [SUM] are parameters. *)

From Stdlib Require Import ZArith String Ascii List Lia Bool.
From Stdlib Require Import Floats.SpecFloat.
From stdpp Require Import base option list gmap strings sorting.

Local Open Scope string_scope.
Local Open Scope list_scope.
Local Open Scope Z_scope.

(** ** Numbers *)

Definition float64 : Type := spec_float.

Definition prec : Z := 53.
Definition emax : Z := 1024.

(** [x + y] and [x == y] of Go, on binary64 values. *)
Definition f64_add (x y : float64) : float64 := SFadd prec emax x y.
Definition f64_eqb (x y : float64) : bool := SFeqb x y.

(** The conversion of an untyped integer constant to [float64]. *)
Definition f64_of_Z (n : Z) : float64 := binary_normalize prec emax n 0 false.

Definition f64_zero : float64 := S754_zero false.
Definition f64_125 : float64 := Eval vm_compute in f64_of_Z 125.
Definition f64_75 : float64 := Eval vm_compute in f64_of_Z 75.

(** Go's [int] on the 64-bit targets: [x++] wraps around. *)
Definition int_min : Z := - 2 ^ 63.
Definition int_mod : Z := 2 ^ 64.
Definition int_wrap (z : Z) : Z := (z - int_min) mod int_mod + int_min.
Definition int_incr (x : Z) : Z := int_wrap (x + 1).

(** ** Types of [main.go] *)

Record Transaction := {
  EnrolmentNoDate : string;
  TotalAmountCharged : float64;
  GSTAmount : float64;
  OperatorID : string;
  ResidentName : string;
  UploadDate : string
}.

Record SlabCounts := {
  Count125 : Z;
  Count75 : Z;
  Count0 : Z
}.

(** The fields of [HistoryRow] that have the name of a field of
    [UploadResult] or of [SlabCounts] carry an [h]. *)
Record HistoryRow := {
  Period : string;
  hRevenue : float64;
  hGST : float64;
  hCount125 : Z;
  hCount75 : Z;
  hCount0 : Z;
  Total : Z
}.

Record UploadResult := {
  Filename : string;
  Rows : Z;
  Revenue : float64;
  GST : float64;
  Slabs : SlabCounts
}.

(** The zero values [SlabCounts{}] and [&UploadResult{}]. *)
Definition SlabCounts_zero : SlabCounts :=
  {| Count125 := 0; Count75 := 0; Count0 := 0 |}.
Definition UploadResult_zero : UploadResult :=
  {| Filename := ""; Rows := 0; Revenue := f64_zero; GST := f64_zero;
     Slabs := SlabCounts_zero |}.

(** Go's [error] values that the pipeline can see. *)
Inductive error :=
| io_EOF                          (* io.EOF *)
| csv_ErrFieldCount               (* csv.ErrFieldCount, "wrong number of fields" *)
| csv_ReadError (msg : string)    (* any other error of the reader: quoting, I/O *)
| strconv_ErrSyntax               (* strconv.ErrSyntax *)
| strconv_ErrRange                (* strconv.ErrRange *)
| errorString (msg : string)      (* fmt.Errorf *)
| sql_error (msg : string).       (* an error of db.Exec or db.Query *)

(** ** strings.TrimSpace

    White space is what [unicode.IsSpace] accepts, tested on the rune
    decoded from the UTF-8 bytes; a rune is white space exactly when its
    bytes are one of [space_runes]. *)

Definition bytes (l : list Z) : string :=
  string_of_list_ascii (map (fun b => ascii_of_N (Z.to_N b)) l).

Definition space_runes : list string :=
  [ bytes [9]; bytes [10]; bytes [11]; bytes [12]; bytes [13]; bytes [32];
    bytes [194; 133]; bytes [194; 160];                       (* U+0085, U+00A0 *)
    bytes [225; 154; 128];                                    (* U+1680 *)
    bytes [226; 128; 128]; bytes [226; 128; 129]; bytes [226; 128; 130];
    bytes [226; 128; 131]; bytes [226; 128; 132]; bytes [226; 128; 133];
    bytes [226; 128; 134]; bytes [226; 128; 135]; bytes [226; 128; 136];
    bytes [226; 128; 137]; bytes [226; 128; 138];             (* U+2000..U+200A *)
    bytes [226; 128; 168]; bytes [226; 128; 169];             (* U+2028, U+2029 *)
    bytes [226; 128; 175]; bytes [226; 129; 159];             (* U+202F, U+205F *)
    bytes [227; 128; 128] ].                                  (* U+3000 *)

(** The width in bytes of the rune of [runes] that [s] starts with,
    0 when it starts with none. *)
Fixpoint leading (runes : list string) (s : string) : nat :=
  match runes with
  | [] => 0%nat
  | r :: runes' =>
      if String.prefix r s then String.length r else leading runes' s
  end.

Fixpoint drop_runes (fuel : nat) (runes : list string) (s : string) : string :=
  match fuel with
  | O => s
  | S fuel' =>
      match leading runes s with
      | O => s
      | k => drop_runes fuel' runes (String.substring k (String.length s - k) s)
      end
  end.

Definition TrimLeft (s : string) : string :=
  drop_runes (String.length s) space_runes s.

Definition TrimRight (s : string) : string :=
  String.rev (drop_runes (String.length s) (map String.rev space_runes)
                (String.rev s)).

Definition TrimSpace (s : string) : string := TrimRight (TrimLeft s).

(** ** encoding/csv: the reader

    The document is the sequence of records the lexer of [csv.Reader]
    finds in the byte stream (blank lines are skipped by the lexer and
    are not part of it), each either the fields of a record or the error
    the lexer stops with.  [Read] adds the check of [FieldsPerRecord],
    which is 0 in a reader made by [csv.NewReader]: the first record
    fixes the number of fields of all the others. *)

Inductive line :=
| Fields (fs : list string)
| Broken (msg : string).

Record Reader := {
  FieldsPerRecord : Z;
  pending : list line
}.

Definition NewReader (doc : list line) : Reader :=
  {| FieldsPerRecord := 0; pending := doc |}.

Definition readRecord (fpr : Z) (l : line) : (list string * option error) * Z :=
  match l with
  | Broken msg => (([], Some (csv_ReadError msg)), fpr)
  | Fields dst =>
      if 0 <? fpr then
        if negb (Z.of_nat (length dst) =? fpr)
        then ((dst, Some csv_ErrFieldCount), fpr)
        else ((dst, None), fpr)
      else if fpr =? 0 then ((dst, None), Z.of_nat (length dst))
      else ((dst, None), fpr)
  end.

Definition Read (r : Reader) : (list string * option error) * Reader :=
  match pending r with
  | [] => (([], Some io_EOF), r)
  | l :: rest =>
      let '(out, fpr) := readRecord (FieldsPerRecord r) l in
      (out, {| FieldsPerRecord := fpr; pending := rest |})
  end.

(** ** The ledger store

    A row of the table [transactions].  A [REAL] column holds a number
    or [NULL]: SQLite stores a NaN that is bound to a statement as
    [NULL].  The text columns hold the Go strings as they are. *)

Record Row := {
  enrolment_no_date : string;
  total_amount_charged : option float64;
  gst_amount : option float64;
  operator_id : string;
  resident_name : string;
  upload_date : string
}.

Definition sql_bind_real (x : float64) : option float64 :=
  match x with
  | S754_nan => None
  | _ => Some x
  end.

Definition sql_bind (t : Transaction) : Row :=
  {| enrolment_no_date := EnrolmentNoDate t;
     total_amount_charged := sql_bind_real (TotalAmountCharged t);
     gst_amount := sql_bind_real (GSTAmount t);
     operator_id := OperatorID t;
     resident_name := ResidentName t;
     upload_date := UploadDate t |}.

(** The keys present in the table, column [enrolment_no_date]. *)
Definition keys (tbl : list Row) : list string :=
  map enrolment_no_date tbl.

(** [INSERT INTO transactions(...) VALUES(...) ON CONFLICT(enrolment_no_date)
    DO NOTHING], under the [UNIQUE] constraint of the column. *)
Definition sql_insert_or_ignore (t : Transaction) (tbl : list Row) : list Row :=
  if decide (EnrolmentNoDate t ∈ keys tbl) then tbl else tbl ++ [sql_bind t].

(** [fault] is what the engine does with the statement: [None] when it
    runs it, [Some e] when [db.Exec] fails with [e] (the statement is
    then rolled back).  The [sql.Result] is dropped, the error returned. *)
Definition saveTransaction (fault : option error) (t : Transaction)
    (tbl : list Row) : list Row * option error :=
  match fault with
  | Some e => (tbl, Some e)
  | None => (sql_insert_or_ignore t tbl, None)
  end.

(** [initDB]: [CREATE TABLE IF NOT EXISTS] makes the empty table in a
    fresh database file and keeps the table of an existing one. *)
Definition initDB (file : option (list Row)) : list Row :=
  match file with
  | None => []
  | Some tbl => tbl
  end.

(** ** The aggregator *)

(** The [switch] on the amount, the same in [getAnalyticsFiltered] and
    in [processCSV]: the first case that matches is taken. *)
Definition slab_switch (a : float64) (s : SlabCounts) : SlabCounts :=
  if f64_eqb a f64_125 then
    {| Count125 := int_incr (Count125 s); Count75 := Count75 s; Count0 := Count0 s |}
  else if f64_eqb a f64_75 then
    {| Count125 := Count125 s; Count75 := int_incr (Count75 s); Count0 := Count0 s |}
  else if f64_eqb a f64_zero then
    {| Count125 := Count125 s; Count75 := Count75 s; Count0 := int_incr (Count0 s) |}
  else s.

(** The body of the [for rows.Next()] loop of [getAnalyticsFiltered] on
    the scanned pair, and the loop over the scanned pairs. *)
Definition analytics_step (acc : float64 * float64 * SlabCounts * Z)
    (row : float64 * float64) : float64 * float64 * SlabCounts * Z :=
  let '(rev, gst, s, total) := acc in
  let '(a, g) := row in
  (f64_add rev a, f64_add gst g, slab_switch a s, int_incr total).

Definition analytics_loop (rows : list (float64 * float64))
  : float64 * float64 * SlabCounts * Z :=
  fold_left analytics_step rows (f64_zero, f64_zero, SlabCounts_zero, 0).

(** [rows.Scan(&a, &g)] with its error dropped: the columns are
    converted in order and the first [NULL] stops the scan, the
    variables not reached keep their zero value. *)
Definition scan_amounts (r : Row) : float64 * float64 :=
  match total_amount_charged r with
  | None => (f64_zero, f64_zero)
  | Some a => (a, default f64_zero (gst_amount r))
  end.

(** The [WHERE] clauses the callers of [getAnalyticsFiltered] build:
    the empty string, and [upload_date = '<today>']. *)
Inductive where_clause :=
| where_none
| where_upload_date_eq (d : string).

Definition sql_where (w : where_clause) (r : Row) : bool :=
  match w with
  | where_none => true
  | where_upload_date_eq d => bool_decide (upload_date r = d)
  end.

Definition getAnalyticsFiltered (fault : option error) (w : where_clause)
    (tbl : list Row) : float64 * float64 * SlabCounts * Z :=
  match fault with
  | Some _ => (f64_zero, f64_zero, SlabCounts_zero, 0)
  | None => analytics_loop (map scan_amounts (filter (fun r => sql_where w r = true) tbl))
  end.

(** ** The ingestion pipeline *)

Inductive Outcome :=
| Ok (result : UploadResult)     (* return result, nil *)
| Err (e : error)                (* return nil, err *)
| Panic.                         (* index out of range *)

Definition required : list string :=
  ["ENROLMENT_NO_DATE"; "TOTAL_AMOUNT_CHARGED"; "GST_AMOUNT"; "OPERATOR_ID";
   "RESIDENT_NAME"].

(** [for i, h := range headers { hm[strings.TrimSpace(h)] = i }] *)
Fixpoint header_map (i : nat) (headers : list string) (hm : gmap string nat)
  : gmap string nat :=
  match headers with
  | [] => hm
  | h :: headers' => header_map (S i) headers' (<[TrimSpace h := i]> hm)
  end.

(** The first required header that is not a key of [hm]. *)
Fixpoint first_missing (reqs : list string) (hm : gmap string nat) : option string :=
  match reqs with
  | [] => None
  | req :: reqs' =>
      match hm !! req with
      | None => Some req
      | Some _ => first_missing reqs' hm
      end
  end.

(** [rec[hm[name]]]: a key that is not in the map reads as 0, an index
    past the end of the record panics ([None]). *)
Definition field (hm : gmap string nat) (rec : list string) (name : string)
  : option string :=
  rec !! default 0%nat (hm !! name).

(** [result.Rows++; result.Revenue += amt; result.GST += gst; switch ...] *)
Definition summary_step (amt gst : float64) (result : UploadResult) : UploadResult :=
  {| Filename := Filename result;
     Rows := int_incr (Rows result);
     Revenue := f64_add (Revenue result) amt;
     GST := f64_add (GST result) gst;
     Slabs := slab_switch amt (Slabs result) |}.

Section Pipeline.

(** [strconv.ParseFloat(s, 64)]: the number and the error.  The
    function belongs to Go's library and is a parameter here. *)
Variable ParseFloat : string -> float64 * option error.

(** The [Transaction] literal that is handed to [saveTransaction]; both
    errors of [ParseFloat] are dropped. *)
Definition decode (hm : gmap string nat) (today : string) (rec : list string)
  : option Transaction :=
  a ← field hm rec "TOTAL_AMOUNT_CHARGED";
  g ← field hm rec "GST_AMOUNT";
  k ← field hm rec "ENROLMENT_NO_DATE";
  o ← field hm rec "OPERATOR_ID";
  n ← field hm rec "RESIDENT_NAME";
  Some {| EnrolmentNoDate := k;
          TotalAmountCharged := fst (ParseFloat a);
          GSTAmount := fst (ParseFloat g);
          OperatorID := o;
          ResidentName := n;
          UploadDate := today |}.

(** The [for] loop of [processCSV] over the records that are left in
    the reader, whose [FieldsPerRecord] is [fpr].  [faults i] is what the
    engine does with the write of the [i]-th record from here. *)
Fixpoint rows_loop (hm : gmap string nat) (today : string) (fpr : Z)
    (lines : list line) (faults : nat -> option error) (tbl : list Row)
    (result : UploadResult) : Outcome * list Row :=
  match lines with
  | [] => (Ok result, tbl)
  | l :: lines' =>
      match readRecord fpr l with
      | ((_, Some e), _) => (Err e, tbl)
      | ((rec, None), fpr') =>
          match decode hm today rec with
          | None => (Panic, tbl)
          | Some t =>
              let tbl' := fst (saveTransaction (faults 0%nat) t tbl) in
              rows_loop hm today fpr' lines' (fun i => faults (S i)) tbl'
                (summary_step (TotalAmountCharged t) (GSTAmount t) result)
          end
      end
  end.

(** [today] is [time.Now().Format("2006-01-02")]. *)
Definition processCSV (doc : list line) (today : string)
    (faults : nat -> option error) (tbl : list Row) : Outcome * list Row :=
  match Read (NewReader doc) with
  | ((_, Some err), _) => (Err err, tbl)
  | ((headers, None), r) =>
      let hm := header_map 0 headers ∅ in
      match first_missing required hm with
      | Some req => (Err (errorString ("missing column: " +:+ req)), tbl)
      | None =>
          rows_loop hm today (FieldsPerRecord r) (pending r) faults tbl
            UploadResult_zero
      end
  end.

End Pipeline.

(** ** Calendar dates

    The dates the program stores are made by
    [time.Now().Format("2006-01-02")], and read back by SQLite's
    [strftime].  [strftime] is modelled on those strings, YYYY-MM-DD of a
    calendar date; the other time strings SQLite understands never reach
    the table and are left out ([None], SQL's [NULL]). *)

Record Date := {
  year : Z;
  month : Z;
  day : Z
}.

Definition is_leap (y : Z) : bool :=
  (y mod 4 =? 0) && (negb (y mod 100 =? 0) || (y mod 400 =? 0)).

Definition days_in_month (y m : Z) : Z :=
  if m =? 2 then (if is_leap y then 29 else 28)
  else if (m =? 4) || (m =? 6) || (m =? 9) || (m =? 11) then 30
  else 31.

Definition valid_date (d : Date) : bool :=
  (0 <=? year d) && (year d <=? 9999) &&
  (1 <=? month d) && (month d <=? 12) &&
  (1 <=? day d) && (day d <=? days_in_month (year d) (month d)).

Definition digit (n : Z) : ascii := ascii_of_N (Z.to_N (48 + n mod 10)).

(** [%02d] and [%04d] on a number that fits. *)
Definition pad2 (n : Z) : string :=
  String (digit (n / 10)) (String (digit n) "").
Definition pad4 (n : Z) : string :=
  String (digit (n / 1000)) (String (digit (n / 100)) (pad2 n)).

Definition Format_2006_01_02 (d : Date) : string :=
  pad4 (year d) +:+ "-" +:+ pad2 (month d) +:+ "-" +:+ pad2 (day d).

Definition digit_val (c : ascii) : option Z :=
  let n := Z.of_N (N_of_ascii c) in
  if (48 <=? n) && (n <=? 57) then Some (n - 48) else None.

Definition parse_date (s : string) : option Date :=
  match s with
  | String y1 (String y2 (String y3 (String y4 (String "-"
      (String m1 (String m2 (String "-" (String d1 (String d2 "")))))))))  =>
      y1 ← digit_val y1; y2 ← digit_val y2; y3 ← digit_val y3; y4 ← digit_val y4;
      m1 ← digit_val m1; m2 ← digit_val m2;
      d1 ← digit_val d1; d2 ← digit_val d2;
      let d := {| year := 1000 * y1 + 100 * y2 + 10 * y3 + y4;
                  month := 10 * m1 + m2;
                  day := 10 * d1 + d2 |} in
      if valid_date d then Some d else None
  | _ => None
  end.

(** Days of the year before month [m], and the day of the year from 0. *)
Fixpoint days_before (y : Z) (m : nat) : Z :=
  match m with
  | O => 0
  | S m' => days_before y m' + days_in_month y (Z.of_nat m)
  end.

Definition day_of_year0 (d : Date) : Z :=
  days_before (year d) (Z.to_nat (month d - 1)) + (day d - 1).

(** Days from 0001-01-01, a Monday, to the date. *)
Definition days_from_epoch (d : Date) : Z :=
  let y := year d - 1 in
  365 * y + y / 4 - y / 100 + y / 400 + day_of_year0 d.

(** 0 = Monday, ..., 6 = Sunday. *)
Definition weekday (d : Date) : Z := days_from_epoch d mod 7.

(** [%W] of SQLite: the week of the year, 00 to 53, where week 01 starts
    on the first Monday: [(nDay + 7 - wd) / 7]. *)
Definition week_W (d : Date) : Z := (day_of_year0 d + 7 - weekday d) / 7.

Definition strftime_Y_W (s : string) : option string :=
  d ← parse_date s; Some (pad4 (year d) +:+ "-W" +:+ pad2 (week_W d)).
Definition strftime_Y_m (s : string) : option string :=
  d ← parse_date s; Some (pad4 (year d) +:+ "-" +:+ pad2 (month d)).
Definition strftime_Y (s : string) : option string :=
  d ← parse_date s; Some (pad4 (year d)).

(** ** getHistory *)

(** The [switch period]: the grouping expression, on a row. *)
Definition groupExpr (period : string) (r : Row) : option string :=
  if String.eqb period "week" then strftime_Y_W (upload_date r)
  else if String.eqb period "month" then strftime_Y_m (upload_date r)
  else if String.eqb period "year" then strftime_Y (upload_date r)
  else Some (upload_date r).

(** The [WHERE] clause on [upload_date]: text comparison, byte by byte.
    A bound is spliced into the statement between quotes; the clause
    has this meaning for a bound that has no quote and no NUL byte. *)
Definition sql_text (s : string) : bool :=
  forallb (fun c => negb (Ascii.eqb c "'" || Ascii.eqb c "000"))
    (list_ascii_of_string s).

Definition in_range (fromDate toDate : string) (r : Row) : bool :=
  (String.eqb fromDate "" || String.leb fromDate (upload_date r)) &&
  (String.eqb toDate "" || String.leb (upload_date r) toDate).

(** [ORDER BY period DESC]: [NULL] is below every text. *)
Definition period_ge (x y : option string) : Prop :=
  match x, y with
  | _, None => True
  | None, Some _ => False
  | Some a, Some b => String.le b a
  end.

#[global] Instance period_ge_dec : RelDecision period_ge.
Proof. intros [a|] [b|]; simpl; apply _. Defined.

(** [SUM(x)] over a group: [NULL] when no value of the group is a
    number, and when the sum is a NaN.  [sum] is the engine's
    floating-point summation. *)
Definition sql_sum (sum : list float64 -> float64)
    (vals : list (option float64)) : option float64 :=
  match omap id vals with
  | [] => None
  | xs => sql_bind_real (sum xs)
  end.

(** [SUM(CASE WHEN total_amount_charged = c THEN 1 ELSE 0 END)] *)
Definition amount_is (c : float64) (r : Row) : bool :=
  match total_amount_charged r with
  | Some a => f64_eqb a c
  | None => false
  end.

Definition sql_count_eq (c : float64) (g : list Row) : Z :=
  Z.of_nat (length (filter (fun r => amount_is c r = true) g)).

Definition HistoryRow_zero : HistoryRow :=
  {| Period := ""; hRevenue := f64_zero; hGST := f64_zero;
     hCount125 := 0; hCount75 := 0; hCount0 := 0; Total := 0 |}.

(** One row of the result set, scanned into a [HistoryRow]; the scan
    stops at the first [NULL] and its error is dropped. *)
Definition scan_history (sum : list float64 -> float64)
    (k : option string) (g : list Row) : HistoryRow :=
  match k with
  | None => HistoryRow_zero
  | Some p =>
      match sql_sum sum (map total_amount_charged g) with
      | None =>
          {| Period := p; hRevenue := f64_zero; hGST := f64_zero;
             hCount125 := 0; hCount75 := 0; hCount0 := 0; Total := 0 |}
      | Some rev =>
          match sql_sum sum (map gst_amount g) with
          | None =>
              {| Period := p; hRevenue := rev; hGST := f64_zero;
                 hCount125 := 0; hCount75 := 0; hCount0 := 0; Total := 0 |}
          | Some gst =>
              {| Period := p; hRevenue := rev; hGST := gst;
                 hCount125 := sql_count_eq f64_125 g;
                 hCount75 := sql_count_eq f64_75 g;
                 hCount0 := sql_count_eq f64_zero g;
                 Total := Z.of_nat (length g) |}
          end
      end
  end.

(** [GROUP BY period ORDER BY period DESC] over the selected rows. *)
Definition group_keys (key : Row -> option string) (rows : list Row)
  : list (option string) :=
  merge_sort period_ge (remove_dups (map key rows)).

Definition group_of (key : Row -> option string) (rows : list Row)
    (k : option string) : list Row :=
  filter (fun r => key r = k) rows.

Definition getHistory (sum : list float64 -> float64) (fault : option error)
    (period fromDate toDate : string) (tbl : list Row) : list HistoryRow :=
  match fault with
  | Some _ => []
  | None =>
      let rows := filter (fun r => in_range fromDate toDate r = true) tbl in
      map (fun k => scan_history sum k (group_of (groupExpr period) rows k))
        (group_keys (groupExpr period) rows)
  end.

(** ** handleReset *)

Inductive Response :=
| Redirect (url : string) (code : Z)
| HttpError (msg : string) (code : Z).

(** [SELECT MAX(upload_date) FROM transactions]: [NULL] on the empty
    table, else the greatest text. *)
Definition sql_max (l : list string) : option string :=
  match l with
  | [] => None
  | x :: l' => Some (fold_left (fun m s => if String.ltb m s then s else m) l' x)
  end.

Definition error_text (e : error) : string :=
  match e with
  | io_EOF => "EOF"
  | csv_ErrFieldCount => "wrong number of fields"
  | strconv_ErrSyntax => "invalid syntax"
  | strconv_ErrRange => "value out of range"
  | csv_ReadError msg | errorString msg | sql_error msg => msg
  end.

(** [qfault] is the fault of the query, [xfault] of the [DELETE]. *)
Definition handleReset (method : string) (qfault xfault : option error)
    (tbl : list Row) : Response * list Row :=
  if negb (String.eqb method "POST") then
    (HttpError "Method not allowed" 405, tbl)
  else
    let lastDate :=
      match qfault with
      | Some _ => None
      | None => sql_max (map upload_date tbl)
      end in
    match lastDate with
    | None => (Redirect "/" 303, tbl)
    | Some d =>
        if String.eqb d "" then (Redirect "/" 303, tbl)
        else
          match xfault with
          | Some e => (HttpError ("Reset error: " +:+ error_text e) 500, tbl)
          | None => (Redirect "/" 303, filter (fun r => upload_date r <> d) tbl)
          end
    end.

(** ** A decimal [ParseFloat]

    An implementation of the parameter of [processCSV] on the decimal
    numbers of a CSV file: sign, digits, fraction and exponent, rounded
    to nearest even as [strconv.ParseFloat] does.  It runs the pipeline
    on examples; the theorems are stated for every [ParseFloat]. *)

Fixpoint read_digits (s : string) (acc : Z) (n : Z) : Z * Z * string :=
  match s with
  | String c s' =>
      match digit_val c with
      | Some v => read_digits s' (10 * acc + v) (n + 1)
      | None => (acc, n, s)
      end
  | "" => (acc, n, s)
  end.

Definition read_sign (s : string) : bool * string :=
  match s with
  | String "-" s' => (true, s')
  | String "+" s' => (false, s')
  | _ => (false, s)
  end.

(** Sign, mantissa and decimal exponent of a well-formed number. *)
Definition read_decimal (s : string) : option (bool * Z * Z) :=
  let '(neg, s1) := read_sign s in
  let '(ip, ni, s2) := read_digits s1 0 0 in
  let '(m, nf, s3) :=
    match s2 with
    | String "." s' => read_digits s' ip 0
    | _ => (ip, 0, s2)
    end in
  if ni + nf =? 0 then None
  else
    match s3 with
    | "" => Some (neg, m, - nf)
    | String c s4 =>
        if Ascii.eqb c "e" || Ascii.eqb c "E" then
          let '(eneg, s5) := read_sign s4 in
          let '(e, ne, s6) := read_digits s5 0 0 in
          if (ne =? 0) || negb (String.eqb s6 "") then None
          else Some (neg, m, (if eneg then - e else e) - nf)
        else None
    end.

Definition round_decimal (neg : bool) (m e : Z) : float64 :=
  match m with
  | Zpos p =>
      if 0 <=? e then binary_normalize prec emax (if neg then - (m * 10 ^ e) else m * 10 ^ e) 0 neg
      else SFdiv prec emax (S754_finite neg p 0)
             (S754_finite false (Z.to_pos (10 ^ (- e))) 0)
  | _ => S754_zero neg
  end.

Definition ParseFloat_decimal (s : string) : float64 * option error :=
  match read_decimal s with
  | None => (f64_zero, Some strconv_ErrSyntax)
  | Some (neg, m, e) =>
      let x := round_decimal neg m e in
      match x with
      | S754_infinity _ => (x, Some strconv_ErrRange)
      | _ => (x, None)
      end
  end.

(** ** What the statements are written with *)

(** The number of amounts of [l] that are equal to [c]. *)
Definition count_eq (c : float64) (l : list float64) : Z :=
  Z.of_nat (length (filter (fun a => f64_eqb a c = true) l)).

(** The aggregator's result on the pairs of a file, as an [UploadResult]. *)
Definition summarize (pairs : list (float64 * float64)) : UploadResult :=
  let '(rev, gst, s, total) := analytics_loop pairs in
  {| Filename := ""; Rows := total; Revenue := rev; GST := gst; Slabs := s |}.

Definition amounts (t : Transaction) : float64 * float64 :=
  (TotalAmountCharged t, GSTAmount t).

(** The writes of [saveTransaction] for the transactions [txs] in order,
    the [i]-th under [faults i]. *)
Fixpoint save_all (faults : nat -> option error) (txs : list Transaction)
    (tbl : list Row) : list Row :=
  match txs with
  | [] => tbl
  | t :: txs' =>
      save_all (fun i => faults (S i)) txs' (fst (saveTransaction (faults 0%nat) t tbl))
  end.

(** The store states the program can reach: the empty table of a fresh
    database, then any writes and resets. *)
Inductive reachable : list Row -> Prop :=
| reach_init : reachable (initDB None)
| reach_save fault t tbl :
    reachable tbl -> reachable (fst (saveTransaction fault t tbl))
| reach_reset method qfault xfault tbl :
    reachable tbl -> reachable (snd (handleReset method qfault xfault tbl)).

(** The error [Read] gives on line [l] when the header had [n] fields. *)
Definition line_error (n : nat) (l : line) : option error :=
  match l with
  | Broken msg => Some (csv_ReadError msg)
  | Fields fs => if decide (length fs = n) then None else Some csv_ErrFieldCount
  end.



(** A row of the table with the given key and upload date. *)
Definition row_on (k : string) (d : string) : Row :=
  {| enrolment_no_date := k; total_amount_charged := Some f64_zero;
     gst_amount := Some f64_zero; operator_id := ""; resident_name := "";
     upload_date := d |}.

(** The second comparison decides when the first is [Eq]. *)
Definition lex (c1 c2 : comparison) : comparison :=
  match c1 with Eq => c2 | Lt => Lt | Gt => Gt end.

(** The order of two dates of the calendar: year, then month, then
    day. *)
Definition date_compare (d1 d2 : Date) : comparison :=
  lex (year d1 ?= year d2) (lex (month d1 ?= month d2) (day d1 ?= day d2)).

(** Both sums of a group are numbers: the scan of its row goes
    through. *)
Definition sums_are_numbers (sum : list float64 -> float64) (g : list Row) : Prop :=
  is_Some (sql_sum sum (map total_amount_charged g)) /\
  is_Some (sql_sum sum (map gst_amount g)).

(** The sum of row counts. *)
Definition sum_Z (l : list Z) : Z := fold_right Z.add 0 l.

(** ** The inputs of the examples *)

(** The file of the scenario: a header row and three records, the
    first and the third with the key A. *)
Definition scenario_doc : list line :=
  [ Fields ["ENROLMENT_NO_DATE"; "TOTAL_AMOUNT_CHARGED"; "GST_AMOUNT";
            "OPERATOR_ID"; "RESIDENT_NAME"];
    Fields ["A"; "125"; "10"; "OP1"; "Alice"];
    Fields ["B"; "75"; "5"; "OP2"; "Bob"];
    Fields ["A"; "125"; "10"; "OP1"; "Alice"] ].

(** The summary and the store the scenario ends with. *)
Definition scenario_summary : UploadResult :=
  {| Filename := ""; Rows := 3; Revenue := f64_of_Z 325; GST := f64_of_Z 25;
     Slabs := {| Count125 := 2; Count75 := 1; Count0 := 0 |} |}.

Definition scenario_store (today : string) : list Row :=
  [ {| enrolment_no_date := "A"; total_amount_charged := Some f64_125;
       gst_amount := Some (f64_of_Z 10); operator_id := "OP1";
       resident_name := "Alice"; upload_date := today |};
    {| enrolment_no_date := "B"; total_amount_charged := Some f64_75;
       gst_amount := Some (f64_of_Z 5); operator_id := "OP2";
       resident_name := "Bob"; upload_date := today |} ].

(** The write of the scenario's first row. *)
Definition tx_A : Transaction :=
  {| EnrolmentNoDate := "A"; TotalAmountCharged := f64_125;
     GSTAmount := f64_of_Z 10; OperatorID := "OP1"; ResidentName := "Alice";
     UploadDate := "2024-01-10" |}.

(** The header row and the records of the scenario. *)
Definition scenario_headers : list string :=
  ["ENROLMENT_NO_DATE"; "TOTAL_AMOUNT_CHARGED"; "GST_AMOUNT"; "OPERATOR_ID";
   "RESIDENT_NAME"].

Definition scenario_records : list (list string) :=
  [ ["A"; "125"; "10"; "OP1"; "Alice"];
    ["B"; "75"; "5"; "OP2"; "Bob"];
    ["A"; "125"; "10"; "OP1"; "Alice"] ].

(** Every write fails. *)
Definition locked : nat -> option error :=
  fun _ => Some (sql_error "database is locked").

(** The write of the scenario's second row. *)
Definition tx_B : Transaction :=
  {| EnrolmentNoDate := "B"; TotalAmountCharged := f64_75;
     GSTAmount := f64_of_Z 5; OperatorID := "OP2"; ResidentName := "Bob";
     UploadDate := "2024-01-10" |}.

(** The store that holds the row A, and three further writes. *)
Definition store_A : list Row := fst (saveTransaction None tx_A (initDB None)).

Definition writes_ABB : list (option error * Transaction) :=
  [(None, tx_A); (Some (sql_error "disk I/O error"), tx_B); (None, tx_B)].

(** A header row with [gst_amount] in lower case. *)
Definition headers_lower : list string :=
  ["ENROLMENT_NO_DATE"; " TOTAL_AMOUNT_CHARGED "; "gst_amount"; "OPERATOR_ID";
   "RESIDENT_NAME"].

(** What a record with the key C and two unparsable numbers decodes to. *)
Definition tx_C (today : string) : Transaction :=
  {| EnrolmentNoDate := "C"; TotalAmountCharged := f64_zero; GSTAmount := f64_zero;
     OperatorID := "OP3"; ResidentName := "Carol"; UploadDate := today |}.

(** Two batches, the row of the later one between those of the earlier. *)
Definition store_two_days : list Row :=
  [row_on "A" "2024-01-10"; row_on "C" "2024-01-11"; row_on "B" "2024-01-10"].

(** Three rows on two dates of one ISO week. *)
Definition store_new_year : list Row :=
  [row_on "A" "2024-12-30"; row_on "B" "2025-01-01"; row_on "C" "2025-01-01"].

(** The left-to-right floating-point sum, for the engine's [SUM]. *)
Definition sum_left (l : list float64) : float64 := fold_left f64_add l f64_zero.

(** ** getAnalytics, getDateRange and the history handlers *)

(** [rev, gst, slabs, _ := getAnalyticsFiltered("")] *)
Definition getAnalytics (fault : option error) (tbl : list Row)
  : float64 * float64 * SlabCounts :=
  let '(rev, gst, slabs, _) := getAnalyticsFiltered fault where_none tbl in
  (rev, gst, slabs).

(** [SELECT MIN(upload_date) FROM transactions]: [NULL] on the empty
    table, else the least text. *)
Definition sql_min (l : list string) : option string :=
  match l with
  | [] => None
  | x :: l' => Some (fold_left (fun m s => if String.ltb s m then s else m) l' x)
  end.

(** The two [sql.NullString] start as the zero value and the error of
    the scan is dropped: [.String] is empty for a [NULL] and after a
    fault. *)
Definition getDateRange (fault : option error) (tbl : list Row) : string * string :=
  match fault with
  | Some _ => ("", "")
  | None =>
      (default "" (sql_min (map upload_date tbl)),
       default "" (sql_max (map upload_date tbl)))
  end.

(** [period := r.URL.Query().Get("period"); if period == "" { period = "day" }]:
    [Get] gives the empty string for a parameter that is absent. *)
Definition query_period (period : string) : string :=
  if String.eqb period "" then "day" else period.

(** What [handleHistoryAPI] hands to the JSON encoder. *)
Definition handleHistoryAPI (sum : list float64 -> float64) (fault : option error)
    (period fromDate toDate : string) (tbl : list Row) : list HistoryRow :=
  getHistory sum fault (query_period period) fromDate toDate tbl.

(** What [handleHistory] hands to the template. *)
Record HistoryPage := {
  page_Period : string;
  page_Rows : list HistoryRow;
  page_From : string;
  page_To : string;
  page_MinDate : string;
  page_MaxDate : string
}.

Definition handleHistory (sum : list float64 -> float64) (hfault dfault : option error)
    (period fromDate toDate : string) (tbl : list Row) : HistoryPage :=
  let period := query_period period in
  let rows := getHistory sum hfault period fromDate toDate tbl in
  let '(minDate, maxDate) := getDateRange dfault tbl in
  {| page_Period := period; page_Rows := rows; page_From := fromDate;
     page_To := toDate; page_MinDate := minDate; page_MaxDate := maxDate |}.

(** ** The Telegram bot *)

Record Config := {
  TelegramToken : string;
  AdminChatID : Z;
  Port : string;
  DBPath : string
}.

(** The fields of [tgbotapi.Message] the program reads: the chat, the
    file name of the document when there is one, and [Command()] when
    [IsCommand()] holds. *)
Record Message := {
  Chat_ID : Z;
  Document : option string;
  Command : option string
}.

(** What goes out through [bot.Send].  The reports are texts made by
    [fmt.Sprintf] of the values they carry here. *)
Inductive Sent :=
| Text (chat : Z) (text : string)
| Welcome (chat : Z)
| UploadReport (chat : Z) (result : UploadResult)
| StatusReport (chat : Z) (rev gst : float64) (slabs : SlabCounts)
| TodayReport (chat : Z) (today : string) (rev gst : float64) (total : Z)
    (slabs : SlabCounts)
| Backup (chat : Z) (path : string).

(** [sendTelegramReport]: [has_bot] is [bot != nil]. *)
Definition sendTelegramReport (has_bot : bool) (config : Config)
    (result : UploadResult) : option Sent :=
  if negb has_bot || (AdminChatID config =? 0) then None
  else Some (UploadReport (AdminChatID config) result).

Inductive Effect :=
| Send (m : Sent)
| Go_handleTelegramFile (m : Message).

(** The body of the loop of [handleTelegramUpdates] on one update, whose
    [Message] is [msg]; [today] is the date of the clock and [fault] what
    the engine does with the query of the report. *)
Definition handleTelegramUpdate (config : Config) (today : string)
    (fault : option error) (tbl : list Row) (msg : option Message) : option Effect :=
  match msg with
  | None => None
  | Some m =>
      if negb (AdminChatID config =? 0) && negb (Chat_ID m =? AdminChatID config)
      then Some (Send (Text (Chat_ID m) "Unauthorized."))
      else
        match Document m with
        | Some _ => Some (Go_handleTelegramFile m)
        | None =>
            match Command m with
            | None => None
            | Some c =>
                if String.eqb c "start" then Some (Send (Welcome (Chat_ID m)))
                else if String.eqb c "status" then
                  let '(rev, gst, slabs) := getAnalytics fault tbl in
                  Some (Send (StatusReport (Chat_ID m) rev gst slabs))
                else if String.eqb c "today" then
                  let '(rev, gst, slabs, total) :=
                    getAnalyticsFiltered fault (where_upload_date_eq today) tbl in
                  Some (Send (TodayReport (Chat_ID m) today rev gst total slabs))
                else if String.eqb c "backup" then
                  Some (Send (Backup (Chat_ID m) (DBPath config)))
                else
                  Some (Send (Text (Chat_ID m)
                                "Unknown command. Use /status /today /backup."))
            end
        end
  end.

(** The chat a message goes to. *)
Definition recipient (s : Sent) : Z :=
  match s with
  | Text c _ | Welcome c | UploadReport c _ | StatusReport c _ _ _
  | TodayReport c _ _ _ _ _ | Backup c _ => c
  end.

(** The effects that hand out data of the ledger or take a file in:
    the two reports, the backup and the file handler. *)
Definition serves (e : Effect) : bool :=
  match e with
  | Send (Text _ _) | Send (Welcome _) => false
  | _ => true
  end.

(** ** handleUpload *)

Section Handlers.

Variable ParseFloat : string -> float64 * option error.

(** [err.Error()].  The text of an error of the reader names the line
    of the file, which the document does not keep: the method is a
    parameter. *)
Variable Error : error -> string.

(** [form] is what [r.FormFile("csvfile")] gives: [None] for its error,
    else [header.Filename] and the records of the file.  [disk] is the
    fault of [saveToDisk] and [opened] of [os.Open]; the file that is
    read is the copy that was written.  The third result is what
    [sendTelegramReport] is started with.  A panic of the handler leaves
    no response. *)
Definition handleUpload (method : string) (form : option (string * list line))
    (disk opened : option error) (today : string) (faults : nat -> option error)
    (tbl : list Row) : option Response * list Row * option UploadResult :=
  if negb (String.eqb method "POST") then
    (Some (HttpError "Method not allowed" 405), tbl, None)
  else
    match form with
    | None => (Some (HttpError "Error retrieving file" 400), tbl, None)
    | Some (name, doc) =>
        match disk with
        | Some e => (Some (HttpError ("Save error: " +:+ Error e) 500), tbl, None)
        | None =>
            match opened with
            | Some _ => (Some (HttpError "Open error" 500), tbl, None)
            | None =>
                match processCSV ParseFloat doc today faults tbl with
                | (Err e, tbl') =>
                    (Some (HttpError ("CSV error: " +:+ Error e) 500), tbl', None)
                | (Panic, tbl') => (None, tbl', None)
                | (Ok result, tbl') =>
                    (Some (Redirect "/" 303), tbl',
                     Some {| Filename := name; Rows := Rows result;
                             Revenue := Revenue result; GST := GST result;
                             Slabs := Slabs result |})
                end
            end
        end
    end.

End Handlers.

(** ** The rows of a file *)

(** The transactions the loop of [processCSV] hands to [saveTransaction],
    in order: the records that are read and decoded before the loop
    ends. *)
Fixpoint decoded_rows (ParseFloat : string -> float64 * option error)
    (hm : gmap string nat) (today : string) (fpr : Z) (lines : list line)
  : list Transaction :=
  match lines with
  | [] => []
  | l :: lines' =>
      match readRecord fpr l with
      | ((_, Some _), _) => []
      | ((rec, None), fpr') =>
          match decode ParseFloat hm today rec with
          | None => []
          | Some t => t :: decoded_rows ParseFloat hm today fpr' lines'
          end
      end
  end.

Definition file_rows (ParseFloat : string -> float64 * option error)
    (doc : list line) (today : string) : list Transaction :=
  match doc with
  | Fields headers :: lines =>
      match first_missing required (header_map 0 headers ∅) with
      | Some _ => []
      | None =>
          decoded_rows ParseFloat (header_map 0 headers ∅) today
            (Z.of_nat (length headers)) lines
      end
  | _ => []
  end.

(** The transaction with another upload date. *)
Definition with_date (today : string) (t : Transaction) : Transaction :=
  {| EnrolmentNoDate := EnrolmentNoDate t;
     TotalAmountCharged := TotalAmountCharged t;
     GSTAmount := GSTAmount t;
     OperatorID := OperatorID t;
     ResidentName := ResidentName t;
     UploadDate := today |}.

(** A number that is not a NaN. *)
Definition is_number (x : float64) : bool :=
  match x with
  | S754_nan => false
  | _ => true
  end.

(** The last position of [headers] whose trimmed text is [k]. *)
Definition last_column (headers : list string) (k : string) (j : nat) : Prop :=
  TrimSpace <$> headers !! j = Some k /\
  forall j', (j < j')%nat -> TrimSpace <$> headers !! j' <> Some k.

(** A bound of the history page: a date of the calendar as the date
    picker sends it, or none (the empty parameter). *)
Definition bound_text (b : option Date) : string :=
  match b with
  | Some d => Format_2006_01_02 d
  | None => ""
  end.

Definition not_after (d1 d2 : Date) : bool :=
  match date_compare d1 d2 with
  | Gt => false
  | _ => true
  end.

(** The upload date of [r] is a date of the calendar from [f] to [t]. *)
Definition dated_within (f t : option Date) (r : Row) : bool :=
  match parse_date (upload_date r) with
  | None => false
  | Some d =>
      match f with Some f => not_after f d | None => true end &&
      match t with Some t => not_after d t | None => true end
  end.

(** ** The inputs of the further examples *)

(** Two records with the key A and different amounts, and what the
    second decodes to. *)
Definition records_A_twice : list (list string) :=
  [ ["A"; "125"; "10"; "OP1"; "Alice"]; ["A"; "75"; "5"; "OP9"; "Zed"] ].

Definition tx_A_again : Transaction :=
  {| EnrolmentNoDate := "A"; TotalAmountCharged := f64_75;
     GSTAmount := f64_of_Z 5; OperatorID := "OP9"; ResidentName := "Zed";
     UploadDate := "2024-01-10" |}.

(** The scenario with its first two columns exchanged. *)
Definition headers_swapped : list string :=
  ["TOTAL_AMOUNT_CHARGED"; "ENROLMENT_NO_DATE"; "GST_AMOUNT"; "OPERATOR_ID";
   "RESIDENT_NAME"].

Definition records_swapped : list (list string) :=
  [ ["125"; "A"; "10"; "OP1"; "Alice"];
    ["75"; "B"; "5"; "OP2"; "Bob"];
    ["125"; "A"; "10"; "OP1"; "Alice"] ].

(** A row whose amount is a NaN. *)
Definition tx_NaN : Transaction :=
  {| EnrolmentNoDate := "N"; TotalAmountCharged := S754_nan;
     GSTAmount := f64_of_Z 5; OperatorID := "OP1"; ResidentName := "Nan";
     UploadDate := "2024-01-10" |}.

(** A record whose amount is beyond the range of [float64], and what it
    decodes to. *)
Definition record_D : list string := ["D"; "1e400"; "5"; "OP4"; "Dan"].

Definition tx_D (today : string) : Transaction :=
  {| EnrolmentNoDate := "D"; TotalAmountCharged := S754_infinity false;
     GSTAmount := f64_of_Z 5; OperatorID := "OP4"; ResidentName := "Dan";
     UploadDate := today |}.

(** A table of an earlier day, and a configuration with an admin chat. *)
Definition store_old : list Row := [row_on "Z" "2024-01-09"].

Definition config_admin : Config :=
  {| TelegramToken := "token"; AdminChatID := 42; Port := "8080";
     DBPath := "data.db" |}.

(** A header row with the name [GST_AMOUNT] on two columns. *)
Definition headers_twice : list string :=
  ["ENROLMENT_NO_DATE"; "GST_AMOUNT"; "TOTAL_AMOUNT_CHARGED"; "OPERATOR_ID";
   "RESIDENT_NAME"; " GST_AMOUNT "].

(** * Properties *)

(** ** The library functions on examples *)

Example TrimSpace_ascii : TrimSpace (bytes [32; 9] +:+ "GST_AMOUNT" +:+ bytes [13; 10]) = "GST_AMOUNT".
Proof. vm_compute. reflexivity. Qed.

Example TrimSpace_unicode :
  TrimSpace (bytes [194; 160] +:+ "A B" +:+ bytes [226; 128; 130; 32]) = "A B".
Proof. vm_compute. reflexivity. Qed.

Example TrimSpace_inner : TrimSpace "a  b" = "a  b".
Proof. vm_compute. reflexivity. Qed.

Example ParseFloat_decimal_125 : ParseFloat_decimal "125" = (f64_125, None).
Proof. vm_compute. reflexivity. Qed.

Example ParseFloat_decimal_125_00 : ParseFloat_decimal "125.00" = (f64_125, None).
Proof. vm_compute. reflexivity. Qed.

Example ParseFloat_decimal_7_5e1 : ParseFloat_decimal "7.5e1" = (f64_75, None).
Proof. vm_compute. reflexivity. Qed.

Example ParseFloat_decimal_tenth :
  ParseFloat_decimal "0.1" = (S754_finite false 7205759403792794 (-56), None).
Proof. vm_compute. reflexivity. Qed.

Example ParseFloat_decimal_abc :
  ParseFloat_decimal "abc" = (f64_zero, Some strconv_ErrSyntax).
Proof. vm_compute. reflexivity. Qed.

Example ParseFloat_decimal_empty :
  ParseFloat_decimal "" = (f64_zero, Some strconv_ErrSyntax).
Proof. vm_compute. reflexivity. Qed.

Example ParseFloat_decimal_huge :
  ParseFloat_decimal "1e999" = (S754_infinity false, Some strconv_ErrRange).
Proof. vm_compute. reflexivity. Qed.


(** ** Numbers *)

Lemma int_incr_wrap z : int_incr (int_wrap z) = int_wrap (z + 1).
Proof.
  unfold int_incr, int_wrap, int_min, int_mod.
  f_equal.
  replace ((z - - 2 ^ 63) mod 2 ^ 64 + - 2 ^ 63 + 1 - - 2 ^ 63)
    with ((z - - 2 ^ 63) mod 2 ^ 64 + 1) by lia.
  replace (z + 1 - - 2 ^ 63) with ((z - - 2 ^ 63) + 1) by lia.
  rewrite (Z.add_mod (z - - 2 ^ 63) 1) by lia.
  rewrite (Z.add_mod ((z - - 2 ^ 63) mod 2 ^ 64) 1) by lia.
  now rewrite Z.mod_mod by lia.
Qed.

Lemma int_wrap_small z : int_min <= z < - int_min -> int_wrap z = z.
Proof.
  unfold int_wrap, int_min, int_mod. intros H.
  rewrite Z.mod_small; lia.
Qed.

Lemma int_wrap_0 : int_wrap 0 = 0.
Proof. reflexivity. Qed.

(** [a == c] for a positive constant [c] holds of [c] alone. *)
Lemma f64_eqb_const_inv (a : float64) (p : positive) (e : Z) :
  f64_eqb a (S754_finite false p e) = true -> a = S754_finite false p e.
Proof.
  unfold f64_eqb, SFeqb, SFcompare.
  destruct a as [s|s| |s m e']; try discriminate; destruct s; try discriminate.
  destruct (Z.compare_spec e' e) as [->| |]; try discriminate.
  destruct (PosDef.Pos.compare_cont Eq m p) eqn:H; try discriminate.
  intros _. apply Pos.compare_eq in H. now subst.
Qed.

(** [a == 0] holds of the two zeros alone. *)
Lemma f64_eqb_zero_inv (a : float64) :
  f64_eqb a f64_zero = true -> exists s, a = S754_zero s.
Proof.
  unfold f64_eqb, SFeqb, SFcompare, f64_zero.
  destruct a as [s|s| |s m e']; try discriminate; try (destruct s; discriminate).
  eauto.
Qed.

(** The three cases of the switch exclude one another. *)
Lemma slab_cases_disjoint (a : float64) :
  (f64_eqb a f64_125 = true -> f64_eqb a f64_75 = false /\ f64_eqb a f64_zero = false) /\
  (f64_eqb a f64_75 = true -> f64_eqb a f64_125 = false /\ f64_eqb a f64_zero = false) /\
  (f64_eqb a f64_zero = true -> f64_eqb a f64_125 = false /\ f64_eqb a f64_75 = false).
Proof.
  split; [|split]; intros H.
  1-2: apply f64_eqb_const_inv in H; subst; split; reflexivity.
  apply f64_eqb_zero_inv in H as [s ->]; destruct s; split; reflexivity.
Qed.

(** ** The aggregator *)

Lemma slab_switch_125 a s :
  f64_eqb a f64_125 = true ->
  slab_switch a s =
    {| Count125 := int_incr (Count125 s); Count75 := Count75 s; Count0 := Count0 s |}.
Proof. unfold slab_switch. now intros ->. Qed.

Lemma slab_switch_75 a s :
  f64_eqb a f64_75 = true ->
  slab_switch a s =
    {| Count125 := Count125 s; Count75 := int_incr (Count75 s); Count0 := Count0 s |}.
Proof.
  intros H. unfold slab_switch.
  destruct (slab_cases_disjoint a) as (_ & H75 & _).
  destruct (H75 H) as [-> _]. now rewrite H.
Qed.

Lemma slab_switch_0 a s :
  f64_eqb a f64_zero = true ->
  slab_switch a s =
    {| Count125 := Count125 s; Count75 := Count75 s; Count0 := int_incr (Count0 s) |}.
Proof.
  intros H. unfold slab_switch.
  destruct (slab_cases_disjoint a) as (_ & _ & H0).
  destruct (H0 H) as [-> ->]. now rewrite H.
Qed.

Lemma slab_switch_other a s :
  f64_eqb a f64_125 = false -> f64_eqb a f64_75 = false ->
  f64_eqb a f64_zero = false -> slab_switch a s = s.
Proof. unfold slab_switch. now intros -> -> ->. Qed.

Lemma analytics_loop_snoc rows row :
  analytics_loop (rows ++ [row]) = analytics_step (analytics_loop rows) row.
Proof. unfold analytics_loop. now rewrite fold_left_app. Qed.

Lemma count_eq_cons c a l :
  count_eq c (a :: l) = (if f64_eqb a c then 1 else 0) + count_eq c l.
Proof.
  unfold count_eq. rewrite filter_cons.
  destruct (f64_eqb a c); case_decide; try congruence; simpl length; lia.
Qed.

Lemma count_eq_nonneg c l : 0 <= count_eq c l.
Proof. unfold count_eq. lia. Qed.

Lemma count_eq_le c l : count_eq c l <= Z.of_nat (length l).
Proof. unfold count_eq. pose proof (length_filter (fun a => f64_eqb a c = true) l). lia. Qed.

Ltac wrap_eq :=
  repeat match goal with
  | |- (_, _) = (_, _) => f_equal
  | |- Build_SlabCounts _ _ _ = Build_SlabCounts _ _ _ => f_equal
  | |- int_wrap _ = int_wrap _ => f_equal; lia
  end.

(** The loop from any accumulator whose counts are in range. *)
Lemma analytics_fold_closed rows r g c1 c2 c3 n :
  fold_left analytics_step rows
    (r, g, {| Count125 := int_wrap c1; Count75 := int_wrap c2; Count0 := int_wrap c3 |},
     int_wrap n) =
  (fold_left f64_add (map fst rows) r,
   fold_left f64_add (map snd rows) g,
   {| Count125 := int_wrap (c1 + count_eq f64_125 (map fst rows));
      Count75 := int_wrap (c2 + count_eq f64_75 (map fst rows));
      Count0 := int_wrap (c3 + count_eq f64_zero (map fst rows)) |},
   int_wrap (n + Z.of_nat (length rows))).
Proof.
  revert r g c1 c2 c3 n.
  induction rows as [|[a b] rows IH]; intros r g c1 c2 c3 n.
  - simpl. unfold count_eq. simpl. now rewrite !Z.add_0_r.
  - cbn [fold_left map fst snd length analytics_step].
    rewrite !count_eq_cons, int_incr_wrap.
    destruct (slab_cases_disjoint a) as (H125 & H75 & H0).
    destruct (f64_eqb a f64_125) eqn:E125.
    + destruct (H125 eq_refl) as [-> ->].
      rewrite slab_switch_125 by assumption. cbn [Count125 Count75 Count0].
      rewrite int_incr_wrap, IH. wrap_eq.
    + destruct (f64_eqb a f64_75) eqn:E75.
      * destruct (H75 eq_refl) as [_ ->].
        rewrite slab_switch_75 by assumption. cbn [Count125 Count75 Count0].
        rewrite int_incr_wrap, IH. wrap_eq.
      * destruct (f64_eqb a f64_zero) eqn:E0.
        -- rewrite slab_switch_0 by assumption. cbn [Count125 Count75 Count0].
           rewrite int_incr_wrap, IH. wrap_eq.
        -- rewrite slab_switch_other by assumption.
           rewrite IH. wrap_eq.
Qed.

(** The aggregator in closed form: the sums are the left-to-right
    floating-point sums, the counts the numbers of rows at each price,
    all as [int]s. *)
Lemma analytics_loop_closed rows :
  analytics_loop rows =
  (fold_left f64_add (map fst rows) f64_zero,
   fold_left f64_add (map snd rows) f64_zero,
   {| Count125 := int_wrap (count_eq f64_125 (map fst rows));
      Count75 := int_wrap (count_eq f64_75 (map fst rows));
      Count0 := int_wrap (count_eq f64_zero (map fst rows)) |},
   int_wrap (Z.of_nat (length rows))).
Proof.
  unfold analytics_loop, SlabCounts_zero.
  rewrite <- int_wrap_0 at 1 2 3 4.
  now rewrite analytics_fold_closed.
Qed.

(** The summary that [processCSV] folds row by row is the aggregator's
    result on the rows' pairs. *)
Lemma summary_fold txs pairs :
  fold_left (fun res t => summary_step (TotalAmountCharged t) (GSTAmount t) res)
    txs (summarize pairs) = summarize (pairs ++ map amounts txs).
Proof.
  revert pairs. induction txs as [|t txs IH]; intros pairs.
  - simpl. now rewrite app_nil_r.
  - simpl. replace (pairs ++ amounts t :: map amounts txs)
      with ((pairs ++ [amounts t]) ++ map amounts txs) by now rewrite <- app_assoc.
    rewrite <- IH. f_equal.
    unfold summarize. rewrite analytics_loop_snoc.
    destruct (analytics_loop pairs) as [[[rev gst] s] total].
    reflexivity.
Qed.


(** ** The header *)

Lemma header_map_lookup i headers hm k j :
  header_map i headers hm !! k = Some j ->
  hm !! k = Some j \/ ((i <= j < i + length headers)%nat /\ k ∈ map TrimSpace headers).
Proof.
  revert i hm. induction headers as [|h headers IH]; intros i hm H;
    cbn [header_map map length] in *.
  - now left.
  - apply IH in H as [H|[H1 H2]].
    + destruct (decide (TrimSpace h = k)) as [<-|Hne].
      * rewrite lookup_insert_eq in H. injection H as <-.
        right. split; [lia | apply list_elem_of_here].
      * rewrite lookup_insert_ne in H by assumption. now left.
    + right. split; [lia | now apply list_elem_of_further].
Qed.

Lemma header_map_is_Some i headers hm k :
  is_Some (header_map i headers hm !! k) <->
  k ∈ map TrimSpace headers \/ is_Some (hm !! k).
Proof.
  revert i hm. induction headers as [|h headers IH]; intros i hm;
    cbn [header_map map].
  - rewrite elem_of_nil. tauto.
  - rewrite IH, elem_of_cons.
    destruct (decide (TrimSpace h = k)) as [<-|Hne].
    + rewrite lookup_insert_eq. split; intros _; [tauto|]. right. eauto.
    + rewrite lookup_insert_ne by assumption. split; intros [H|H]; try tauto.
      destruct H as [H|H]; [congruence | tauto].
Qed.

(** After the loop over the header, the keys of the map are the trimmed
    headers, and each index is a position of the header row. *)
Lemma header_map_keys headers k :
  is_Some (header_map 0 headers ∅ !! k) <-> k ∈ map TrimSpace headers.
Proof.
  rewrite header_map_is_Some, lookup_empty.
  split; [intros [H|[? H]]; [assumption | discriminate] | tauto].
Qed.

Lemma header_map_index headers k j :
  header_map 0 headers ∅ !! k = Some j -> (j < length headers)%nat.
Proof.
  intros H. apply header_map_lookup in H as [H|[H _]].
  - rewrite lookup_empty in H. discriminate.
  - lia.
Qed.

(** [first_missing] is the first required header, in the order of the
    list, that is not a key of the map. *)
Lemma first_missing_head reqs hm :
  first_missing reqs hm = head (filter (fun r => hm !! r = None) reqs).
Proof.
  induction reqs as [|r reqs IH]; simpl; [reflexivity|].
  rewrite filter_cons. destruct (hm !! r) eqn:E.
  - rewrite decide_False by discriminate. assumption.
  - rewrite decide_True by reflexivity. reflexivity.
Qed.

Lemma first_missing_None reqs hm :
  first_missing reqs hm = None <-> forall r, r ∈ reqs -> is_Some (hm !! r).
Proof.
  induction reqs as [|r reqs IH]; simpl.
  - split; [intros _ ? H; now apply elem_of_nil in H | reflexivity].
  - destruct (hm !! r) eqn:E.
    + rewrite IH. split.
      * intros H r' [->|Hin]%elem_of_cons; [rewrite E; eauto | auto].
      * intros H r' Hin. apply H. now apply list_elem_of_further.
    + split; [discriminate|]. intros H.
      destruct (H r (list_elem_of_here _ _)) as [? H']. congruence.
Qed.

Lemma first_missing_Some reqs hm m :
  first_missing reqs hm = Some m -> m ∈ reqs /\ hm !! m = None.
Proof.
  induction reqs as [|r reqs IH]; simpl; [discriminate|].
  destruct (hm !! r) eqn:E.
  - intros H. destruct (IH H). split; [now apply list_elem_of_further | assumption].
  - intros [= <-]. split; [apply list_elem_of_here | assumption].
Qed.

(** ** The loop over the records *)

Section PipelineFacts.

Variable ParseFloat : string -> float64 * option error.


(** No index is out of range on a record that has as many fields as
    the header row. *)
Lemma decode_in_range headers today rec :
  first_missing required (header_map 0 headers ∅) = None ->
  length rec = length headers ->
  is_Some (decode ParseFloat (header_map 0 headers ∅) today rec).
Proof.
  intros Hreq Hlen. rewrite first_missing_None in Hreq.
  assert (Hf : forall name, name ∈ required ->
            is_Some (field (header_map 0 headers ∅) rec name)).
  { intros name Hin. destruct (Hreq name Hin) as [j Hj].
    unfold field. rewrite Hj. simpl. apply lookup_lt_is_Some.
    apply header_map_index in Hj. lia. }
  unfold decode, required in *.
  destruct (Hf "TOTAL_AMOUNT_CHARGED") as [a ->]; [set_solver|].
  destruct (Hf "GST_AMOUNT") as [g ->]; [set_solver|].
  destruct (Hf "ENROLMENT_NO_DATE") as [k ->]; [set_solver|].
  destruct (Hf "OPERATOR_ID") as [o ->]; [set_solver|].
  destruct (Hf "RESIDENT_NAME") as [n ->]; [set_solver|].
  simpl. eauto.
Qed.

Lemma readRecord_good n rec :
  (0 < n)%nat -> length rec = n ->
  readRecord (Z.of_nat n) (Fields rec) = ((rec, None), Z.of_nat n).
Proof.
  intros Hn Hlen. unfold readRecord.
  replace (0 <? Z.of_nat n) with true by (symmetry; apply Z.ltb_lt; lia).
  rewrite Hlen, Z.eqb_refl. reflexivity.
Qed.

Lemma readRecord_bad n l e :
  (0 < n)%nat -> line_error n l = Some e ->
  exists rec fpr, readRecord (Z.of_nat n) l = ((rec, Some e), fpr).
Proof.
  intros Hn. destruct l as [fs|msg]; simpl.
  - case_decide; [discriminate|]. intros [= <-].
    replace (0 <? Z.of_nat n) with true by (symmetry; apply Z.ltb_lt; lia).
    replace (Z.of_nat (length fs) =? Z.of_nat n) with false
      by (symmetry; apply Z.eqb_neq; lia).
    simpl. eauto.
  - intros [= <-]. eauto.
Qed.

Lemma readRecord_not_EOF fpr l rec fpr' : readRecord fpr l <> ((rec, Some io_EOF), fpr').
Proof.
  destruct l as [fs|msg]; simpl; [|discriminate].
  repeat (match goal with |- context [if ?b then _ else _] => destruct b end);
    discriminate.
Qed.

(** One turn of the [for] loop, on the reader: [Read], then [break] on
    [io.EOF], [return nil, err] on another error, else the body. *)
Lemma rows_loop_Read hm today fpr lines faults tbl result :
  rows_loop ParseFloat hm today fpr lines faults tbl result =
  match Read {| FieldsPerRecord := fpr; pending := lines |} with
  | ((_, Some io_EOF), _) => (Ok result, tbl)
  | ((_, Some e), _) => (Err e, tbl)
  | ((rec, None), r) =>
      match decode ParseFloat hm today rec with
      | None => (Panic, tbl)
      | Some t =>
          rows_loop ParseFloat hm today (FieldsPerRecord r) (pending r)
            (fun i => faults (S i)) (fst (saveTransaction (faults 0%nat) t tbl))
            (summary_step (TotalAmountCharged t) (GSTAmount t) result)
      end
  end.
Proof.
  destruct lines as [|l lines]; [reflexivity|].
  unfold Read. cbn [pending FieldsPerRecord rows_loop].
  pose proof (readRecord_not_EOF fpr l) as Hne.
  destruct (readRecord fpr l) as [[rec [e|]] fpr']; [|reflexivity].
  destruct e; try reflexivity. now destruct (Hne rec fpr').
Qed.

(** The loop over records that all have the header's number of fields:
    each is decoded, written and folded into the summary, and the loop
    goes on with what follows them. *)
Lemma rows_loop_records hm today n recs rest faults tbl result :
  (0 < n)%nat ->
  Forall (fun rec => length rec = n /\ is_Some (decode ParseFloat hm today rec)) recs ->
  exists txs,
    Forall2 (fun rec t => decode ParseFloat hm today rec = Some t) recs txs /\
    rows_loop ParseFloat hm today (Z.of_nat n) (map Fields recs ++ rest) faults tbl result =
    rows_loop ParseFloat hm today (Z.of_nat n) rest (fun i => faults (length recs + i)%nat)
      (save_all faults txs tbl)
      (fold_left (fun res t => summary_step (TotalAmountCharged t) (GSTAmount t) res)
         txs result).
Proof.
  intros Hn Hall. revert faults tbl result.
  induction Hall as [|rec recs [Hlen [t Ht]] _ IH]; intros faults tbl result.
  - exists []. split; [constructor | reflexivity].
  - destruct (IH (fun i => faults (S i)) (fst (saveTransaction (faults 0%nat) t tbl))
               (summary_step (TotalAmountCharged t) (GSTAmount t) result))
      as (txs & HF & Heq).
    exists (t :: txs). split; [now constructor|].
    cbn [map app rows_loop].
    rewrite (readRecord_good n rec Hn Hlen), Ht, Heq. reflexivity.
Qed.

End PipelineFacts.

(** ** The writes *)

Lemma sql_insert_or_ignore_absent t tbl :
  EnrolmentNoDate t ∉ keys tbl -> sql_insert_or_ignore t tbl = tbl ++ [sql_bind t].
Proof. intros H. unfold sql_insert_or_ignore. now rewrite decide_False. Qed.

Lemma sql_insert_or_ignore_present t tbl :
  EnrolmentNoDate t ∈ keys tbl -> sql_insert_or_ignore t tbl = tbl.
Proof. intros H. unfold sql_insert_or_ignore. now rewrite decide_True. Qed.

Lemma saveTransaction_error fault t tbl : snd (saveTransaction fault t tbl) = fault.
Proof. now destruct fault. Qed.

Lemma saveTransaction_incl fault t tbl r :
  r ∈ tbl -> r ∈ fst (saveTransaction fault t tbl).
Proof.
  intros H. destruct fault; simpl; [assumption|].
  unfold sql_insert_or_ignore. case_decide; [assumption|].
  apply elem_of_app. now left.
Qed.

Lemma saveTransaction_key t tbl :
  EnrolmentNoDate t ∈ keys (fst (saveTransaction None t tbl)).
Proof.
  simpl. unfold sql_insert_or_ignore. case_decide; [assumption|].
  unfold keys. rewrite map_app. apply elem_of_app. right. apply list_elem_of_here.
Qed.

Lemma keys_incl tbl tbl' k :
  (forall r, r ∈ tbl -> r ∈ tbl') -> k ∈ keys tbl -> k ∈ keys tbl'.
Proof.
  unfold keys. intros H Hk.
  apply list_elem_of_fmap in Hk as (r & -> & Hr).
  apply list_elem_of_fmap. exists r. split; [reflexivity | auto].
Qed.

Lemma save_all_incl faults txs tbl r :
  r ∈ tbl -> r ∈ save_all faults txs tbl.
Proof.
  revert faults tbl. induction txs as [|t txs IH]; intros faults tbl H; simpl.
  - assumption.
  - apply IH. now apply saveTransaction_incl.
Qed.

(** A row whose write the engine ran has its key in the table from
    then on. *)
Lemma save_all_key faults txs tbl i t :
  txs !! i = Some t -> faults i = None ->
  EnrolmentNoDate t ∈ keys (save_all faults txs tbl).
Proof.
  revert faults tbl i. induction txs as [|t' txs IH]; intros faults tbl i Hi Hf.
  - discriminate.
  - destruct i as [|i]; simpl in *.
    + injection Hi as ->. rewrite Hf.
      eapply keys_incl; [intros r; apply save_all_incl | apply saveTransaction_key].
    + now apply (IH (fun i => faults (S i)) _ i).
Qed.

Lemma save_all_app faults txs1 txs2 tbl :
  save_all faults (txs1 ++ txs2) tbl =
  save_all (fun i => faults (length txs1 + i)%nat) txs2 (save_all faults txs1 tbl).
Proof.
  revert faults tbl. induction txs1 as [|t txs1 IH]; intros faults tbl; simpl.
  - reflexivity.
  - now rewrite IH.
Qed.

(** ** processCSV *)

Section IngestFacts.

Variable ParseFloat : string -> float64 * option error.


(** After a header row that is read, the map is built and checked, and
    the loop runs with [FieldsPerRecord] set to the header's length. *)
Lemma processCSV_header headers lines today faults tbl :
  processCSV ParseFloat (Fields headers :: lines) today faults tbl =
  match first_missing required (header_map 0 headers ∅) with
  | Some req => (Err (errorString ("missing column: " +:+ req)), tbl)
  | None =>
      rows_loop ParseFloat (header_map 0 headers ∅) today (Z.of_nat (length headers)) lines
        faults tbl UploadResult_zero
  end.
Proof. reflexivity. Qed.

Lemma header_complete headers :
  (forall req, req ∈ required -> req ∈ map TrimSpace headers) ->
  first_missing required (header_map 0 headers ∅) = None /\ (0 < length headers)%nat.
Proof.
  intros H. split.
  - apply first_missing_None. intros r Hr. apply header_map_keys. auto.
  - assert (Hin : "GST_AMOUNT" ∈ map TrimSpace headers)
      by (apply H; unfold required; set_solver).
    destruct headers; [now apply elem_of_nil in Hin | simpl; lia].
Qed.

(** A file whose header row has the five columns and whose records all
    have the header's number of fields, followed by anything: every
    record is decoded, written and summarised, whatever the writes do. *)
Lemma processCSV_records headers recs rest today faults tbl :
  (forall req, req ∈ required -> req ∈ map TrimSpace headers) ->
  Forall (fun rec => length rec = length headers) recs ->
  exists txs,
    Forall2 (fun rec t => decode ParseFloat (header_map 0 headers ∅) today rec = Some t) recs txs /\
    processCSV ParseFloat (Fields headers :: map Fields recs ++ rest) today faults tbl =
    rows_loop ParseFloat (header_map 0 headers ∅) today (Z.of_nat (length headers)) rest
      (fun i => faults (length recs + i)%nat) (save_all faults txs tbl)
      (summarize (map amounts txs)).
Proof.
  intros Hreq Hlen. destruct (header_complete headers Hreq) as [Hfm Hpos].
  rewrite processCSV_header, Hfm.
  destruct (rows_loop_records ParseFloat (header_map 0 headers ∅) today
              (length headers) recs rest faults tbl UploadResult_zero Hpos)
    as (txs & HF & Heq).
  { eapply Forall_impl; [exact Hlen|]. intros rec Hrec. split; [assumption|].
    now apply decode_in_range. }
  exists txs. split; [assumption|]. rewrite Heq. f_equal.
  change UploadResult_zero with (summarize []). now rewrite summary_fold.
Qed.

End IngestFacts.

(** C1: a CSV whose header row has the five required columns and whose
    records decode is ingested with every record folded into the
    returned summary, whatever the store held before and whatever each
    write did: the summary is the aggregator's result on all the
    records of the file and [Rows] is their number.  In particular the
    file with the rows (A,125,10,OP1,Alice), (B,75,5,OP2,Bob),
    (A,125,10,OP1,Alice), ingested into the empty store on one date, gives
    Rows=3, Revenue=325, GST=25, Slabs={125:2,75:1,0:0}, and the store
    ends with exactly the two rows keyed A and B. *)
Theorem ingest_folds_every_decoded_row :
  (forall ParseFloat headers recs today faults tbl,
     (forall req, req ∈ required -> req ∈ map TrimSpace headers) ->
     Forall (fun rec => length rec = length headers) recs ->
     exists txs,
       Forall2 (fun rec t =>
                  decode ParseFloat (header_map 0 headers ∅) today rec = Some t) recs txs /\
       processCSV ParseFloat (Fields headers :: map Fields recs) today faults tbl =
         (Ok (summarize (map amounts txs)), save_all faults txs tbl) /\
       Rows (summarize (map amounts txs)) = int_wrap (Z.of_nat (length recs))) /\
  (forall ParseFloat today,
     ParseFloat "125" = (f64_125, None) -> ParseFloat "75" = (f64_75, None) ->
     ParseFloat "10" = (f64_of_Z 10, None) -> ParseFloat "5" = (f64_of_Z 5, None) ->
     processCSV ParseFloat scenario_doc today (fun _ => None) [] =
       (Ok scenario_summary, scenario_store today) /\
     keys (scenario_store today) = ["A"; "B"]).
Proof.
  split.
  - intros PF headers recs today faults tbl Hreq Hlen.
    destruct (processCSV_records PF headers recs [] today faults tbl Hreq Hlen)
      as (txs & HF & Heq).
    exists txs. split; [assumption|]. split.
    + rewrite <- (app_nil_r (map Fields recs)). exact Heq.
    + unfold summarize. rewrite analytics_loop_closed. simpl.
      rewrite length_map. now rewrite (Forall2_length _ _ _ HF).
  - intros PF today H125 H75 H10 H5. split; [|reflexivity].
    unfold scenario_doc. rewrite processCSV_header.
    replace (first_missing required _) with (@None string) by (vm_compute; reflexivity).
    set (hm := header_map 0 _ ∅).
    assert (Hd : forall k a g o n,
      decode PF hm today [k; a; g; o; n] =
      Some {| EnrolmentNoDate := k; TotalAmountCharged := fst (PF a);
              GSTAmount := fst (PF g); OperatorID := o; ResidentName := n;
              UploadDate := today |}).
    { intros. unfold decode, field.
      replace (hm !! "TOTAL_AMOUNT_CHARGED") with (Some 1%nat) by (vm_compute; reflexivity).
      replace (hm !! "GST_AMOUNT") with (Some 2%nat) by (vm_compute; reflexivity).
      replace (hm !! "ENROLMENT_NO_DATE") with (Some 0%nat) by (vm_compute; reflexivity).
      replace (hm !! "OPERATOR_ID") with (Some 3%nat) by (vm_compute; reflexivity).
      replace (hm !! "RESIDENT_NAME") with (Some 4%nat) by (vm_compute; reflexivity).
      reflexivity. }
    cbn [rows_loop length].
    rewrite !(readRecord_good 5) by (simpl; lia).
    rewrite !Hd, H125, H75, H10, H5. cbn [fst TotalAmountCharged GSTAmount].
    vm_compute. reflexivity.
Qed.

(** C3: when a required header is absent from the header row, headers
    being compared after [strings.TrimSpace] and case-sensitively,
    ingestion fails with the error "missing column: " followed by the
    first absent header in the order of the list (the absent one when
    only one is absent), and the store is left as it was. *)
Theorem missing_column_fails_without_writes
    (ParseFloat : string -> float64 * option error)
    (headers : list string) (lines : list line) (today : string)
    (faults : nat -> option error) (tbl : list Row) (req : string) :
  req ∈ required -> req ∉ map TrimSpace headers ->
  exists m,
    head (filter (fun r => r ∉ map TrimSpace headers) required) = Some m /\
    m ∈ required /\ (m ∉ map TrimSpace headers) /\
    ((forall r, r ∈ required -> r ∉ map TrimSpace headers -> r = req) -> m = req) /\
    processCSV ParseFloat (Fields headers :: lines) today faults tbl =
      (Err (errorString ("missing column: " +:+ m)), tbl).
Proof.
  intros Hin Habs. rewrite processCSV_header.
  destruct (first_missing required (header_map 0 headers ∅)) as [m|] eqn:E.
  - exists m. pose proof (first_missing_Some _ _ _ E) as [Hm Hnone].
    assert (Hm' : m ∉ map TrimSpace headers).
    { intros H. apply header_map_keys in H as [? H]. congruence. }
    repeat split; auto.
    rewrite first_missing_head in E. rewrite <- E.
    f_equal. apply list_filter_iff. intros r.
    rewrite <- header_map_keys, eq_None_not_Some. reflexivity.
  - exfalso. rewrite first_missing_None in E.
    apply Habs, header_map_keys, E, Hin.
Qed.

(** C8: when the reader fails on a line after N records that decoded
    (a record with another number of fields than the header row, or an
    error of the lexer or of the stream), ingestion returns that error
    and no summary, and the store is the one the N writes left: nothing
    that was in it before is gone, and every record whose write the
    engine ran has its key in it. *)
Theorem decode_error_keeps_written_rows
    (ParseFloat : string -> float64 * option error)
    (headers : list string) (recs : list (list string)) (bad : line)
    (rest : list line) (today : string) (faults : nat -> option error)
    (tbl : list Row) (e : error) :
  (forall req, req ∈ required -> req ∈ map TrimSpace headers) ->
  Forall (fun rec => length rec = length headers) recs ->
  line_error (length headers) bad = Some e ->
  exists txs,
    Forall2 (fun rec t =>
               decode ParseFloat (header_map 0 headers ∅) today rec = Some t) recs txs /\
    processCSV ParseFloat (Fields headers :: map Fields recs ++ bad :: rest)
      today faults tbl = (Err e, save_all faults txs tbl) /\
    (forall r, r ∈ tbl -> r ∈ save_all faults txs tbl) /\
    (forall i t, txs !! i = Some t -> faults i = None ->
       EnrolmentNoDate t ∈ keys (save_all faults txs tbl)).
Proof.
  intros Hreq Hlen Hbad.
  destruct (processCSV_records ParseFloat headers recs (bad :: rest) today faults tbl
              Hreq Hlen) as (txs & HF & Heq).
  exists txs. split; [assumption|]. split; [|split].
  - rewrite Heq. cbn [rows_loop].
    destruct (header_complete headers Hreq) as [_ Hpos].
    destruct (readRecord_bad _ _ _ Hpos Hbad) as (rec & fpr & ->). reflexivity.
  - intros r. apply save_all_incl.
  - intros i t. apply save_all_key.
Qed.

(** The outcome of the loop does not depend on the store or on what
    the writes do. *)
Lemma rows_loop_outcome ParseFloat hm today fpr lines faults1 faults2 tbl1 tbl2 result :
  fst (rows_loop ParseFloat hm today fpr lines faults1 tbl1 result) =
  fst (rows_loop ParseFloat hm today fpr lines faults2 tbl2 result).
Proof.
  revert fpr faults1 faults2 tbl1 tbl2 result.
  induction lines as [|l lines IH]; intros; cbn [rows_loop]; [reflexivity|].
  destruct (readRecord fpr l) as [[rec [e|]] fpr']; [reflexivity|].
  destruct (decode ParseFloat hm today rec); [apply IH | reflexivity].
Qed.

(** The errors of the loop are those of the reader. *)
Lemma rows_loop_error ParseFloat hm today fpr lines faults tbl result e :
  fst (rows_loop ParseFloat hm today fpr lines faults tbl result) = Err e ->
  e = csv_ErrFieldCount \/ exists msg, e = csv_ReadError msg.
Proof.
  revert fpr faults tbl result.
  induction lines as [|l lines IH]; intros fpr faults tbl result; cbn [rows_loop].
  - discriminate.
  - destruct (readRecord fpr l) as [[rec [e'|]] fpr'] eqn:E.
    + intros [= <-]. destruct l as [fs|msg]; simpl in E.
      * repeat (match type of E with context [if ?b then _ else _] => destruct b end);
          inversion E; auto.
      * inversion E; eauto.
    + destruct (decode ParseFloat hm today rec); [apply IH | discriminate].
Qed.

(** C10: whether ingestion succeeds, and with what summary or error,
    is decided by the CSV alone: the outcome is the same whatever the
    store holds and whatever error each write returns, so a write that
    fails for any reason is still counted in Rows, totals and slabs; and
    an error of ingestion is always one of the decoder (end of input or
    a reader error at the header row, a missing column, a reader error
    on a record), never an error of the store. *)
Theorem ingest_outcome_ignores_write_errors
    (ParseFloat : string -> float64 * option error) (doc : list line)
    (today : string) (faults1 faults2 : nat -> option error)
    (tbl1 tbl2 : list Row) :
  fst (processCSV ParseFloat doc today faults1 tbl1) =
  fst (processCSV ParseFloat doc today faults2 tbl2) /\
  (forall e, fst (processCSV ParseFloat doc today faults1 tbl1) = Err e ->
     e = io_EOF \/ e = csv_ErrFieldCount \/ (exists msg, e = csv_ReadError msg) \/
     (exists req, req ∈ required /\ e = errorString ("missing column: " +:+ req))) /\
  (forall msg, fst (processCSV ParseFloat doc today faults1 tbl1) <> Err (sql_error msg)) /\
  (forall headers recs,
     doc = Fields headers :: map Fields recs ->
     (forall req, req ∈ required -> req ∈ map TrimSpace headers) ->
     Forall (fun rec => length rec = length headers) recs ->
     exists txs,
       Forall2 (fun rec t =>
                  decode ParseFloat (header_map 0 headers ∅) today rec = Some t) recs txs /\
       fst (processCSV ParseFloat doc today faults1 tbl1) =
         Ok (summarize (map amounts txs)) /\
       Rows (summarize (map amounts txs)) = int_wrap (Z.of_nat (length recs))).
Proof.
  assert (Herr : forall e, fst (processCSV ParseFloat doc today faults1 tbl1) = Err e ->
     e = io_EOF \/ e = csv_ErrFieldCount \/ (exists msg, e = csv_ReadError msg) \/
     (exists req, req ∈ required /\ e = errorString ("missing column: " +:+ req))).
  { intros e. destruct doc as [|[headers|msg] lines].
    - intros [= <-]. auto.
    - rewrite processCSV_header.
      destruct (first_missing required _) as [m|] eqn:E.
      + intros [= <-]. apply first_missing_Some in E as [Hm _]. eauto 6.
      + intros H. apply rows_loop_error in H as [->|[msg ->]]; eauto 6.
    - intros [= <-]. eauto 6. }
  split; [|split; [|split]].
  - destruct doc as [|[headers|msg] lines]; try reflexivity.
    rewrite !processCSV_header.
    destruct (first_missing required _); [reflexivity | apply rows_loop_outcome].
  - exact Herr.
  - intros msg H. apply Herr in H as [H|[H|[[? H]|(? & _ & H)]]]; discriminate.
  - intros headers recs -> Hreq Hlen.
    destruct (processCSV_records ParseFloat headers recs [] today faults1 tbl1 Hreq Hlen)
      as (txs & HF & Heq).
    exists txs. split; [assumption|]. split.
    + rewrite <- (app_nil_r (map Fields recs)), Heq. reflexivity.
    + unfold summarize. rewrite analytics_loop_closed. simpl.
      rewrite length_map. now rewrite (Forall2_length _ _ _ HF).
Qed.

(** C6 as stated fails on a number that is out of range: "1e400" is a
    well-formed decimal number, [strconv.ParseFloat] fails on it with
    [ErrRange] and returns +Inf, and [processCSV], which drops the error,
    keeps +Inf: the row is stored with the amount +Inf, the revenue of
    the summary is +Inf and no slab count is raised. *)
Lemma out_of_range_number_is_not_zero :
  ParseFloat_decimal "1e400" = (S754_infinity false, Some strconv_ErrRange) /\
  processCSV ParseFloat_decimal [Fields scenario_headers; Fields record_D] "2024-01-10"
    (fun _ => None) [] =
    (Ok {| Filename := ""; Rows := 1; Revenue := S754_infinity false;
           GST := f64_of_Z 5; Slabs := SlabCounts_zero |},
     [sql_bind (tx_D "2024-01-10")]) /\
  total_amount_charged (sql_bind (tx_D "2024-01-10")) = Some (S754_infinity false) /\
  f64_eqb (S754_infinity false) f64_zero = false.
Proof.
  split; [vm_compute; reflexivity|]. split; [vm_compute; reflexivity|].
  split; reflexivity.
Qed.

(** An infinite amount is none of the three slabs. *)
Lemma slab_switch_infinity sg s : slab_switch (S754_infinity sg) s = s.
Proof. now destruct sg. Qed.

(** C6, as the code has it: a record whose TOTAL_AMOUNT_CHARGED or
    GST_AMOUNT field fails to parse is not rejected: the loop writes it
    and goes on to the next record, and the field has the value
    [strconv.ParseFloat] returned with the error, which is dropped.
    With a syntax error (the field is no number) that value is 0: the
    field is exactly zero in the transaction that is written, the row
    the write adds holds that zero, and an amount that became zero
    raises [Count0] and no other count.  With a range error (a
    well-formed number beyond the range of [float64]) that value is
    +Inf or -Inf: the row the write adds holds that infinity, the
    revenue of the summary takes it in, the row is counted and no slab
    count is raised. *)
Theorem parse_error_keeps_returned_value
    (ParseFloat : string -> float64 * option error)
    (hm : gmap string nat) (today : string) (rec : list string)
    (t : Transaction) (a g : string) :
  (forall s, snd (ParseFloat s) = Some strconv_ErrSyntax -> fst (ParseFloat s) = f64_zero) ->
  (forall s, snd (ParseFloat s) = Some strconv_ErrRange ->
     exists sg, fst (ParseFloat s) = S754_infinity sg) ->
  decode ParseFloat hm today rec = Some t ->
  field hm rec "TOTAL_AMOUNT_CHARGED" = Some a ->
  field hm rec "GST_AMOUNT" = Some g ->
  (forall n lines faults tbl result,
     (0 < n)%nat -> length rec = n ->
     rows_loop ParseFloat hm today (Z.of_nat n) (Fields rec :: lines) faults tbl result =
     rows_loop ParseFloat hm today (Z.of_nat n) lines (fun i => faults (S i))
       (fst (saveTransaction (faults 0%nat) t tbl))
       (summary_step (TotalAmountCharged t) (GSTAmount t) result)) /\
  (TotalAmountCharged t = fst (ParseFloat a) /\ GSTAmount t = fst (ParseFloat g)) /\
  (snd (ParseFloat a) = Some strconv_ErrSyntax ->
     TotalAmountCharged t = f64_zero /\
     (forall tbl, EnrolmentNoDate t ∉ keys tbl ->
        exists r, r ∈ fst (saveTransaction None t tbl) /\
                  enrolment_no_date r = EnrolmentNoDate t /\
                  total_amount_charged r = Some f64_zero) /\
     (forall result,
        let s := Slabs result in
        let s' := Slabs (summary_step (TotalAmountCharged t) (GSTAmount t) result) in
        Count0 s' = int_incr (Count0 s) /\ Count125 s' = Count125 s /\
        Count75 s' = Count75 s)) /\
  (snd (ParseFloat g) = Some strconv_ErrSyntax ->
     GSTAmount t = f64_zero /\
     (forall tbl, EnrolmentNoDate t ∉ keys tbl ->
        exists r, r ∈ fst (saveTransaction None t tbl) /\
                  enrolment_no_date r = EnrolmentNoDate t /\
                  gst_amount r = Some f64_zero)) /\
  (snd (ParseFloat a) = Some strconv_ErrRange ->
     exists sg,
       TotalAmountCharged t = S754_infinity sg /\
       (forall tbl, EnrolmentNoDate t ∉ keys tbl ->
          exists r, r ∈ fst (saveTransaction None t tbl) /\
                    enrolment_no_date r = EnrolmentNoDate t /\
                    total_amount_charged r = Some (S754_infinity sg)) /\
       (forall result,
          let result' := summary_step (TotalAmountCharged t) (GSTAmount t) result in
          Slabs result' = Slabs result /\
          Revenue result' = f64_add (Revenue result) (S754_infinity sg) /\
          Rows result' = int_incr (Rows result))) /\
  (snd (ParseFloat g) = Some strconv_ErrRange ->
     exists sg,
       GSTAmount t = S754_infinity sg /\
       (forall tbl, EnrolmentNoDate t ∉ keys tbl ->
          exists r, r ∈ fst (saveTransaction None t tbl) /\
                    enrolment_no_date r = EnrolmentNoDate t /\
                    gst_amount r = Some (S754_infinity sg))).
Proof.
  intros Hsyntax Hrange Hdec Ha Hg.
  assert (Ht : TotalAmountCharged t = fst (ParseFloat a) /\
               GSTAmount t = fst (ParseFloat g)).
  { unfold decode in Hdec. rewrite Ha, Hg in Hdec. simpl in Hdec.
    destruct (field hm rec "ENROLMENT_NO_DATE"); [simpl in Hdec | discriminate].
    destruct (field hm rec "OPERATOR_ID"); [simpl in Hdec | discriminate].
    destruct (field hm rec "RESIDENT_NAME"); [simpl in Hdec | discriminate].
    injection Hdec as <-. split; reflexivity. }
  destruct Ht as [Hta Htg].
  assert (Hrow : forall tbl, EnrolmentNoDate t ∉ keys tbl ->
            sql_bind t ∈ fst (saveTransaction None t tbl)).
  { intros tbl Hk. simpl. rewrite sql_insert_or_ignore_absent by assumption.
    apply elem_of_app. right. apply list_elem_of_here. }
  split; [|split; [|split; [|split; [|split]]]].
  - intros n lines faults tbl result Hn Hlen. cbn [rows_loop].
    now rewrite (readRecord_good n rec Hn Hlen), Hdec.
  - now split.
  - intros Hfail. assert (Hz : TotalAmountCharged t = f64_zero)
      by (rewrite Hta; now apply Hsyntax).
    split; [assumption|]. split.
    + intros tbl Hk. exists (sql_bind t). split; [now apply Hrow|].
      split; [reflexivity|]. simpl. now rewrite Hz.
    + intros result. cbn zeta. cbn [summary_step Slabs]. rewrite Hz.
      rewrite slab_switch_0 by reflexivity. auto.
  - intros Hfail. assert (Hz : GSTAmount t = f64_zero)
      by (rewrite Htg; now apply Hsyntax).
    split; [assumption|].
    intros tbl Hk. exists (sql_bind t). split; [now apply Hrow|].
    split; [reflexivity|]. simpl. now rewrite Hz.
  - intros Hfail. destruct (Hrange a Hfail) as [sg Hsg]. exists sg.
    assert (Hz : TotalAmountCharged t = S754_infinity sg) by now rewrite Hta.
    split; [assumption|]. split.
    + intros tbl Hk. exists (sql_bind t). split; [now apply Hrow|].
      split; [reflexivity|]. unfold sql_bind. cbn [total_amount_charged].
      now rewrite Hz.
    + intros result. cbv zeta. cbn [summary_step Slabs Revenue Rows]. rewrite Hz.
      now rewrite slab_switch_infinity.
  - intros Hfail. destruct (Hrange g Hfail) as [sg Hsg]. exists sg.
    assert (Hz : GSTAmount t = S754_infinity sg) by now rewrite Htg.
    split; [assumption|].
    intros tbl Hk. exists (sql_bind t). split; [now apply Hrow|].
    split; [reflexivity|]. unfold sql_bind. cbn [gst_amount]. now rewrite Hz.
Qed.

(** ** The store *)

Lemma keys_app tbl1 tbl2 : keys (tbl1 ++ tbl2) = keys tbl1 ++ keys tbl2.
Proof. unfold keys. apply map_app. Qed.

Lemma saveTransaction_NoDup fault t tbl :
  NoDup (keys tbl) -> NoDup (keys (fst (saveTransaction fault t tbl))).
Proof.
  intros H. destruct fault; simpl; [assumption|].
  unfold sql_insert_or_ignore. case_decide; [assumption|].
  rewrite keys_app. apply NoDup_app. split; [assumption|]. split.
  - intros k Hk Hin. simpl in Hin. apply list_elem_of_singleton in Hin. congruence.
  - simpl. apply NoDup_singleton.
Qed.

Lemma keys_filter_NoDup (P : Row -> Prop) `{forall r, Decision (P r)} tbl :
  NoDup (keys tbl) -> NoDup (keys (filter P tbl)).
Proof.
  unfold keys. induction tbl as [|r tbl IH]; simpl; intros Hnd.
  - constructor.
  - apply NoDup_cons in Hnd as [Hr Hnd]. rewrite filter_cons.
    case_decide; [|auto]. simpl. apply NoDup_cons. split; [|auto].
    intros Hin. apply Hr.
    apply list_elem_of_fmap in Hin as (r' & Heq & Hr').
    apply list_elem_of_filter in Hr' as [_ Hr'].
    apply list_elem_of_fmap. eauto.
Qed.

Lemma handleReset_NoDup method qfault xfault tbl :
  NoDup (keys tbl) -> NoDup (keys (snd (handleReset method qfault xfault tbl))).
Proof.
  intros H. unfold handleReset.
  destruct (negb (String.eqb method "POST")); [assumption|].
  destruct qfault; simpl; [assumption|].
  destruct (sql_max (map upload_date tbl)) as [d|]; [|assumption].
  destruct (String.eqb d ""); [assumption|].
  destruct xfault; simpl; [assumption|].
  now apply keys_filter_NoDup.
Qed.

(** The invariant of the table: no key occurs twice. *)
Lemma reachable_NoDup tbl : reachable tbl -> NoDup (keys tbl).
Proof.
  induction 1.
  - constructor.
  - now apply saveTransaction_NoDup.
  - now apply handleReset_NoDup.
Qed.

Lemma reachable_writes (ops : list (option error * Transaction)) tbl :
  reachable tbl ->
  reachable (fold_left (fun tb op => fst (saveTransaction (fst op) (snd op) tb)) ops tbl).
Proof.
  revert tbl. induction ops as [|[f t] ops IH]; intros tbl H; simpl.
  - assumption.
  - apply IH. now constructor.
Qed.

(** C2: in every store state the program can reach, and after any
    further sequence of inserts, each enrolment key occurs at most once;
    an insert whose key is already in the store leaves the store as it
    was, and the error it returns is the engine's own, none when the
    engine ran the statement: the duplicate is not an error. *)
Theorem enrolment_key_is_unique (tbl : list Row)
    (ops : list (option error * Transaction)) :
  reachable tbl ->
  NoDup (keys (fold_left (fun tb op => fst (saveTransaction (fst op) (snd op) tb)) ops tbl)) /\
  (forall fault t, EnrolmentNoDate t ∈ keys tbl ->
     saveTransaction fault t tbl = (tbl, fault)) /\
  (forall t, EnrolmentNoDate t ∈ keys tbl -> saveTransaction None t tbl = (tbl, None)).
Proof.
  intros Hreach. split; [|split].
  - apply reachable_NoDup. now apply reachable_writes.
  - intros [e|] t Hin; simpl; [reflexivity|].
    now rewrite sql_insert_or_ignore_present.
  - intros t Hin. simpl. now rewrite sql_insert_or_ignore_present.
Qed.

(** C9, as the code has it: [saveTransaction] returns the error of
    [db.Exec] and nothing else.  It is the engine's own error, so a
    duplicate key never makes one; and it is [nil] both when the row was
    added and when the key was already there.  A row is added exactly
    when the key was absent and the engine ran the statement. *)
Theorem saveTransaction_returns_only_the_error (fault : option error)
    (t : Transaction) (tbl : list Row) :
  snd (saveTransaction fault t tbl) = fault /\
  (fst (saveTransaction fault t tbl) = tbl ++ [sql_bind t] <->
   fault = None /\ EnrolmentNoDate t ∉ keys tbl) /\
  (fst (saveTransaction fault t tbl) = tbl <->
   ~ (fault = None /\ EnrolmentNoDate t ∉ keys tbl)).
Proof.
  assert (Hne : tbl ++ [sql_bind t] <> tbl).
  { intros H. apply (f_equal length) in H. rewrite length_app in H. simpl in H. lia. }
  split; [apply saveTransaction_error|].
  destruct fault as [e|]; simpl.
  - split; split; try (intros [? _]; discriminate).
    + intros H. symmetry in H. now apply Hne in H.
    + intros _ [? _]. discriminate.
    + reflexivity.
  - unfold sql_insert_or_ignore. case_decide.
    + split; split; try tauto. intros H'. symmetry in H'. now apply Hne in H'.
    + split; split; try tauto.
Qed.

(** C9 as stated fails: the returned value does not tell whether a
    row was added.  On the empty store the write of a row adds it, on
    the store that holds the key it adds nothing, and both calls return
    the same value, [nil]; so no reading of the returned value is true
    exactly when a row was added. *)
Lemma saveTransaction_result_does_not_tell_insertion :
  saveTransaction None tx_A [] = ([sql_bind tx_A], None) /\
  saveTransaction None tx_A [sql_bind tx_A] = ([sql_bind tx_A], None) /\
  ~ (exists inserted : option error -> bool,
       forall t tbl,
         inserted (snd (saveTransaction None t tbl)) = true <->
         EnrolmentNoDate t ∉ keys tbl).
Proof.
  split; [vm_compute; reflexivity|]. split; [vm_compute; reflexivity|].
  intros [inserted H].
  pose proof (H tx_A []) as H1. pose proof (H tx_A [sql_bind tx_A]) as H2.
  rewrite saveTransaction_error in H1, H2.
  destruct H1 as [_ H1], H2 as [H2 _].
  apply H2; [apply H1, not_elem_of_nil | apply list_elem_of_here].
Qed.

(** ** handleReset *)

Lemma ltb_true_le m s : String.ltb m s = true -> String.le m s.
Proof.
  unfold String.ltb, String.le, String.leb.
  destruct (String.compare m s); (discriminate || (intros _; exact I)).
Qed.

Lemma ltb_false_le m s : String.ltb m s = false -> String.le s m.
Proof.
  unfold String.ltb, String.le, String.leb.
  rewrite (String.compare_antisym m s).
  destruct (String.compare s m); simpl; (discriminate || (intros _; exact I)).
Qed.

Lemma ltb_true_not_le m s : String.ltb m s = true -> ~ String.le s m.
Proof.
  unfold String.ltb, String.le, String.leb.
  rewrite (String.compare_antisym m s).
  destruct (String.compare s m); simpl; try discriminate. intros _ [].
Qed.

(** The fold of [MAX] returns an element that is above all the others. *)
Lemma fold_max_spec l x :
  let m := fold_left (fun m s => if String.ltb m s then s else m) l x in
  m ∈ x :: l /\ forall y, y ∈ x :: l -> String.le y m.
Proof.
  revert x. induction l as [|s l IH]; intros x; simpl.
  - split; [apply list_elem_of_here|].
    intros y Hy. apply list_elem_of_singleton in Hy as ->. reflexivity.
  - destruct (String.ltb x s) eqn:E.
    + destruct (IH s) as [Hin Hle]. split.
      * now apply list_elem_of_further.
      * intros y [->|Hy]%elem_of_cons; [|auto].
        transitivity s; [now apply ltb_true_le | apply Hle, list_elem_of_here].
    + destruct (IH x) as [Hin Hle]. split.
      * apply elem_of_cons in Hin as [->|Hin]; [apply list_elem_of_here|].
        now do 2 apply list_elem_of_further.
      * intros y [->|[->|Hy]%elem_of_cons]%elem_of_cons.
        -- apply Hle, list_elem_of_here.
        -- transitivity x; [now apply ltb_false_le | apply Hle, list_elem_of_here].
        -- apply Hle. now apply list_elem_of_further.
Qed.

Lemma sql_max_spec l :
  match sql_max l with
  | None => l = []
  | Some m => m ∈ l /\ forall y, y ∈ l -> String.le y m
  end.
Proof.
  destruct l as [|x l]; simpl; [reflexivity|]. apply fold_max_spec.
Qed.

(** A POST on a table whose dates are not empty, when the engine runs
    both statements: the rows of the greatest date go, the rest stay. *)
Lemma handleReset_post tbl :
  Forall (fun r => upload_date r <> "") tbl -> tbl <> [] ->
  exists dmax,
    sql_max (map upload_date tbl) = Some dmax /\
    dmax ∈ map upload_date tbl /\
    (forall r, r ∈ tbl -> String.le (upload_date r) dmax) /\
    handleReset "POST" None None tbl =
      (Redirect "/" 303, filter (fun r => upload_date r <> dmax) tbl).
Proof.
  intros Hdates Hne. pose proof (sql_max_spec (map upload_date tbl)) as Hmax.
  destruct (sql_max (map upload_date tbl)) as [dmax|] eqn:E.
  - destruct Hmax as [Hin Hle]. exists dmax. repeat split; auto.
    + intros r Hr. apply Hle, list_elem_of_fmap. eauto.
    + unfold handleReset. cbn [String.eqb Ascii.eqb Bool.eqb negb]. rewrite E.
      apply list_elem_of_fmap in Hin as (r & -> & Hr).
      rewrite Forall_forall in Hdates.
      destruct (String.eqb (upload_date r) "") eqn:E'; [|reflexivity].
      apply String.eqb_eq in E'. now apply Hdates in E'.
  - destruct tbl; [congruence | discriminate].
Qed.

Lemma filter_ext_in {A} (P Q : A -> Prop) `{forall x, Decision (P x)}
    `{forall x, Decision (Q x)} (l : list A) :
  (forall x, x ∈ l -> P x <-> Q x) -> filter P l = filter Q l.
Proof.
  induction l as [|x l IH]; intros Hext; [reflexivity|].
  rewrite !filter_cons.
  pose proof (Hext x (list_elem_of_here _ _)) as Hx.
  rewrite IH by (intros y Hy; apply Hext; now apply list_elem_of_further).
  repeat case_decide; tauto.
Qed.

Lemma filter_none {A} (P : A -> Prop) `{forall x, Decision (P x)} (l : list A) :
  (forall x, x ∈ l -> ~ P x) -> filter P l = [].
Proof.
  induction l as [|x l IH]; intros Hno; [reflexivity|].
  rewrite filter_cons_False by (apply Hno, list_elem_of_here).
  apply IH. intros y Hy. apply Hno. now apply list_elem_of_further.
Qed.

(** C7: on a store that is not empty (its upload dates being dates, so
    not the empty text), a POST to [handleReset] whose statements the
    engine runs removes exactly the rows whose upload date is the
    greatest upload date in the store, and leaves every other row as it
    was, in place; on the empty store it changes nothing and answers
    with the same redirect, no error.  With batches on the dates
    D1 < D2 it removes the rows of D2 only, and a second call removes
    those of D1. *)
Theorem reset_removes_latest_batch (tbl : list Row) :
  Forall (fun r => upload_date r <> "") tbl ->
  (tbl <> [] ->
   exists dmax,
     dmax ∈ map upload_date tbl /\
     (forall r, r ∈ tbl -> String.le (upload_date r) dmax) /\
     handleReset "POST" None None tbl =
       (Redirect "/" 303, filter (fun r => upload_date r <> dmax) tbl)) /\
  handleReset "POST" None None [] = (Redirect "/" 303, []) /\
  (forall D1 D2,
     String.ltb D1 D2 = true ->
     D1 ∈ map upload_date tbl -> D2 ∈ map upload_date tbl ->
     (forall r, r ∈ tbl -> upload_date r = D1 \/ upload_date r = D2) ->
     let once := snd (handleReset "POST" None None tbl) in
     let twice := snd (handleReset "POST" None None once) in
     once = filter (fun r => upload_date r = D1) tbl /\ once <> [] /\ twice = []).
Proof.
  intros Hdates. split; [|split].
  - intros Hne. destruct (handleReset_post tbl Hdates Hne) as (dmax & _ & H1 & H2 & H3).
    eauto.
  - reflexivity.
  - intros D1 D2 Hlt HD1 HD2 Hall once twice.
    assert (Hne : tbl <> []) by (intros ->; now apply elem_of_nil in HD1).
    destruct (handleReset_post tbl Hdates Hne) as (dmax & _ & Hin & Hle & Heq).
    assert (Hmax : dmax = D2).
    { apply list_elem_of_fmap in Hin as (r & -> & Hr).
      destruct (Hall r Hr) as [E|E]; [|assumption].
      apply list_elem_of_fmap in HD2 as (r2 & -> & Hr2).
      apply Hle in Hr2. rewrite E in Hr2. rewrite E in *.
      now apply ltb_true_not_le in Hlt. }
    subst dmax.
    assert (HD : D1 <> D2).
    { intros ->. apply ltb_true_not_le in Hlt. apply Hlt. reflexivity. }
    assert (Honce : once = filter (fun r => upload_date r = D1) tbl).
    { subst once. rewrite Heq. simpl. apply filter_ext_in.
      intros r Hr. destruct (Hall r Hr) as [E|E]; rewrite E; split; congruence. }
    assert (Hne1 : once <> []).
    { rewrite Honce. apply list_elem_of_fmap in HD1 as (r & E & Hr).
      intros Hnil.
      apply (filter_nil_not_elem_of (fun r => upload_date r = D1) tbl r Hnil);
        [symmetry; exact E | exact Hr]. }
    split; [assumption|]. split; [assumption|].
    assert (Hdates1 : Forall (fun r => upload_date r <> "") once).
    { rewrite Honce. apply Forall_forall. intros r [_ Hr]%list_elem_of_filter.
      rewrite Forall_forall in Hdates. auto. }
    destruct (handleReset_post once Hdates1 Hne1) as (d & _ & Hd & _ & Heq1).
    subst twice. rewrite Heq1. simpl.
    assert (d = D1) as ->.
    { apply list_elem_of_fmap in Hd as (r & -> & Hr).
      rewrite Honce in Hr. now apply list_elem_of_filter in Hr as [Hr _]. }
    apply filter_none. intros r Hr. rewrite Honce in Hr.
    apply list_elem_of_filter in Hr as [Hr _]. auto.
Qed.

(** ** getHistory *)

#[global] Instance period_ge_total : base.Total period_ge.
Proof.
  intros [a|] [b|]; simpl; auto.
  destruct (total String.le a b); auto.
Qed.

#[global] Instance period_ge_trans : Transitive period_ge.
Proof.
  intros [a|] [b|] [c|]; simpl; try tauto.
  intros H1 H2. now transitivity b.
Qed.


(** The keys of the groups: the distinct values of the grouping
    expression on the selected rows, each once, greatest first. *)
Lemma group_keys_elem key rows k :
  k ∈ group_keys key rows <-> exists r, r ∈ rows /\ key r = k.
Proof.
  unfold group_keys. rewrite merge_sort_Permutation, elem_of_remove_dups.
  rewrite list_elem_of_fmap. split; intros (r & H1 & H2); eauto.
Qed.

Lemma group_keys_NoDup key rows : NoDup (group_keys key rows).
Proof.
  unfold group_keys. rewrite merge_sort_Permutation. apply NoDup_remove_dups.
Qed.

Lemma group_keys_sorted key rows : StronglySorted period_ge (group_keys key rows).
Proof. apply StronglySorted_merge_sort; apply _. Qed.


Lemma scan_history_Period sum p g : Period (scan_history sum (Some p) g) = p.
Proof.
  unfold scan_history.
  destruct (sql_sum sum (map total_amount_charged g)); [|reflexivity].
  destruct (sql_sum sum (map gst_amount g)); reflexivity.
Qed.




(** Every row lies in the group of exactly one key of a list of
    distinct keys that has its key. *)
Lemma groups_partition {K} `{EqDecision K} (f : Row -> K) (ks : list K)
    (rows : list Row) :
  NoDup ks -> (forall r, r ∈ rows -> f r ∈ ks) ->
  sum_Z (map (fun k => Z.of_nat (length (filter (fun r => f r = k) rows))) ks) =
  Z.of_nat (length rows).
Proof.
  intros Hnd. induction rows as [|r rows IH]; intros Hin.
  - clear Hnd Hin. induction ks as [|k ks IHk]; [reflexivity|].
    unfold sum_Z in *. simpl in *. lia.
  - simpl length. rewrite Nat2Z.inj_succ.
    rewrite <- IH by (intros r' Hr'; apply Hin; now apply list_elem_of_further).
    pose proof (Hin r (list_elem_of_here _ _)) as Hr.
    clear IH Hin. induction ks as [|k ks IHk]; [now apply elem_of_nil in Hr|].
    apply NoDup_cons in Hnd as [Hk Hnd]. cbn [map sum_Z fold_right].
    rewrite filter_cons. destruct (decide (f r = k)) as [E|E].
    + subst k. simpl length. rewrite Nat2Z.inj_succ.
      assert (Hrest : forall ks', f r ∉ ks' ->
        map (fun k => Z.of_nat (length (filter (fun r0 => f r0 = k) (r :: rows)))) ks' =
        map (fun k => Z.of_nat (length (filter (fun r0 => f r0 = k) rows))) ks').
      { intros ks' Hno. apply map_ext_in. intros k Hk'.
        rewrite filter_cons_False; [reflexivity|].
        intros <-. apply Hno. now apply list_elem_of_In. }
      rewrite (Hrest ks Hk). unfold sum_Z. lia.
    + apply elem_of_cons in Hr as [Hr|Hr]; [congruence|].
      specialize (IHk Hnd Hr). unfold sum_Z in *. lia.
Qed.

(** ** Dates *)

Lemma digit_val_digit n : digit_val (digit n) = Some (n mod 10).
Proof.
  unfold digit_val, digit.
  pose proof (Z.mod_pos_bound n 10 ltac:(lia)) as Hb.
  rewrite N_ascii_embedding by lia.
  rewrite Z2N.id by lia.
  replace (48 <=? 48 + n mod 10) with true by (symmetry; apply Z.leb_le; lia).
  replace (48 + n mod 10 <=? 57) with true by (symmetry; apply Z.leb_le; lia).
  simpl. f_equal. lia.
Qed.

Lemma decimal4 y :
  0 <= y <= 9999 ->
  1000 * ((y / 1000) mod 10) + 100 * ((y / 100) mod 10) + 10 * ((y / 10) mod 10) +
  y mod 10 = y.
Proof. intros. Z.div_mod_to_equations. lia. Qed.

Lemma decimal2 m : 0 <= m <= 99 -> 10 * ((m / 10) mod 10) + m mod 10 = m.
Proof. intros. Z.div_mod_to_equations. lia. Qed.

(** The date the program stores reads back as the date of the clock. *)
Lemma parse_date_Format d :
  valid_date d = true -> parse_date (Format_2006_01_02 d) = Some d.
Proof.
  intros Hv. destruct d as [y m dd].
  assert (Hr : 0 <= y <= 9999 /\ 1 <= m <= 12 /\ 1 <= dd <= 31).
  { unfold valid_date in Hv. simpl in Hv.
    repeat (apply andb_true_iff in Hv as [Hv ?]).
    assert (days_in_month y m <= 31).
    { unfold days_in_month. repeat (match goal with |- context [if ?b then _ else _] =>
        destruct b end); lia. }
    lia. }
  unfold Format_2006_01_02, pad4, pad2. cbn [year month day].
  cbv beta iota delta [String.append].
  unfold parse_date.
  cbn -[digit digit_val Z.div Z.modulo Z.mul Z.add valid_date].
  rewrite !digit_val_digit.
  cbn -[digit digit_val Z.div Z.modulo Z.mul Z.add valid_date].
  rewrite (decimal4 y), (decimal2 m), (decimal2 dd) by lia.
  now rewrite Hv.
Qed.

(** The texts of two stored dates compare, byte by byte, as the dates
    do in the calendar. *)
Lemma compare_String c s c' s' :
  String.compare (String c s) (String c' s') =
  lex (Ascii.compare c c') (String.compare s s').
Proof. simpl. now destruct (Ascii.compare c c'). Qed.

Lemma compare_digit a b : Ascii.compare (digit a) (digit b) = (a mod 10 ?= b mod 10).
Proof.
  unfold Ascii.compare, digit.
  pose proof (Z.mod_pos_bound a 10 ltac:(lia)).
  pose proof (Z.mod_pos_bound b 10 ltac:(lia)).
  rewrite !N_ascii_embedding by lia.
  rewrite (Z2N.inj_compare (48 + a mod 10) (48 + b mod 10)) by lia.
  apply Z.add_compare_mono_l.
Qed.

Lemma lex_assoc c1 c2 c3 : lex c1 (lex c2 c3) = lex (lex c1 c2) c3.
Proof. now destruct c1. Qed.

Lemma lex_Eq_r c : lex c Eq = c.
Proof. now destruct c. Qed.

Lemma lex_digits a a' b b' :
  0 <= b < 10 -> 0 <= b' < 10 ->
  lex (a ?= a') (b ?= b') = (10 * a + b ?= 10 * a' + b').
Proof.
  intros Hb Hb'. destruct (Z.compare_spec a a') as [->| |]; simpl; symmetry.
  - apply Z.add_compare_mono_l.
  - apply Z.compare_lt_iff. lia.
  - apply Z.compare_gt_iff. lia.
Qed.

Lemma compare_pad2 n n' c :
  0 <= n <= 99 -> 0 <= n' <= 99 ->
  lex (Ascii.compare (digit (n / 10)) (digit (n' / 10)))
    (lex (Ascii.compare (digit n) (digit n')) c) = lex (n ?= n') c.
Proof.
  intros Hn Hn'. rewrite lex_assoc, !compare_digit. f_equal.
  rewrite lex_digits by (apply Z.mod_pos_bound; lia).
  f_equal; Z.div_mod_to_equations; lia.
Qed.

Lemma compare_pad4 n n' c :
  0 <= n <= 9999 -> 0 <= n' <= 9999 ->
  lex (Ascii.compare (digit (n / 1000)) (digit (n' / 1000)))
    (lex (Ascii.compare (digit (n / 100)) (digit (n' / 100)))
       (lex (Ascii.compare (digit (n / 10)) (digit (n' / 10)))
          (lex (Ascii.compare (digit n) (digit n')) c))) = lex (n ?= n') c.
Proof.
  intros Hn Hn'. rewrite !lex_assoc, !compare_digit. f_equal.
  rewrite lex_digits by (apply Z.mod_pos_bound; lia).
  replace (10 * ((n / 1000) mod 10) + (n / 100) mod 10) with (n / 100)
    by (Z.div_mod_to_equations; lia).
  replace (10 * ((n' / 1000) mod 10) + (n' / 100) mod 10) with (n' / 100)
    by (Z.div_mod_to_equations; lia).
  rewrite lex_digits by (apply Z.mod_pos_bound; lia).
  replace (10 * (n / 100) + (n / 10) mod 10) with (n / 10)
    by (Z.div_mod_to_equations; lia).
  replace (10 * (n' / 100) + (n' / 10) mod 10) with (n' / 10)
    by (Z.div_mod_to_equations; lia).
  rewrite lex_digits by (apply Z.mod_pos_bound; lia).
  f_equal; Z.div_mod_to_equations; lia.
Qed.

Lemma valid_date_range d :
  valid_date d = true -> 0 <= year d <= 9999 /\ 1 <= month d <= 12 /\ 1 <= day d <= 31.
Proof.
  unfold valid_date. intros Hv. repeat (apply andb_true_iff in Hv as [Hv ?]).
  assert (days_in_month (year d) (month d) <= 31).
  { unfold days_in_month. repeat (match goal with |- context [if ?b then _ else _] =>
      destruct b end); lia. }
  lia.
Qed.

Lemma compare_Format d1 d2 :
  valid_date d1 = true -> valid_date d2 = true ->
  String.compare (Format_2006_01_02 d1) (Format_2006_01_02 d2) = date_compare d1 d2.
Proof.
  intros H1 H2. apply valid_date_range in H1, H2.
  unfold Format_2006_01_02, pad4, pad2, date_compare.
  cbv beta iota delta [String.append].
  rewrite !compare_String.
  rewrite compare_pad4 by lia.
  f_equal. change (Ascii.compare "-" "-") with Eq. cbn [lex].
  rewrite compare_pad2 by lia. f_equal.
  change (Ascii.compare "-" "-") with Eq. cbn [lex].
  rewrite compare_pad2 by lia. cbn [String.compare]. apply lex_Eq_r.
Qed.

Lemma ltb_Format d1 d2 :
  valid_date d1 = true -> valid_date d2 = true ->
  String.ltb (Format_2006_01_02 d1) (Format_2006_01_02 d2) = true <->
  date_compare d1 d2 = Lt.
Proof.
  intros H1 H2. unfold String.ltb. rewrite compare_Format by assumption.
  destruct (date_compare d1 d2); split; (discriminate || reflexivity).
Qed.

Lemma weekday_range d : 0 <= weekday d <= 6.
Proof. unfold weekday. pose proof (Z.mod_pos_bound (days_from_epoch d) 7). lia. Qed.

Lemma day_of_year0_range d : valid_date d = true -> 0 <= day_of_year0 d <= 365.
Proof.
  destruct d as [y m dd]. unfold valid_date, day_of_year0. cbn [year month day].
  intros Hv. repeat (apply andb_true_iff in Hv as [Hv ?]).
  assert (Hm : m = 1 \/ m = 2 \/ m = 3 \/ m = 4 \/ m = 5 \/ m = 6 \/ m = 7 \/
               m = 8 \/ m = 9 \/ m = 10 \/ m = 11 \/ m = 12) by lia.
  repeat (destruct Hm as [->|Hm]); try subst m;
    simpl in *; unfold days_in_month in *; simpl in *; destruct (is_leap y); lia.
Qed.

(** [%W]: the days before the first Monday of the year are in week 0,
    a Monday starts a week, and the number stays within 0..53. *)
Lemma week_W_facts d :
  valid_date d = true ->
  0 <= week_W d <= 53 /\
  (week_W d = 0 <-> day_of_year0 d < weekday d) /\
  (weekday d = 0 -> week_W d = day_of_year0 d / 7 + 1).
Proof.
  intros Hv. pose proof (weekday_range d) as Hw.
  pose proof (day_of_year0_range d Hv) as Hd.
  unfold week_W. split; [|split].
  - Z.div_mod_to_equations. lia.
  - Z.div_mod_to_equations. lia.
  - intros ->. replace (day_of_year0 d + 7 - 0) with (day_of_year0 d + 1 * 7) by lia.
    now rewrite Z.div_add by lia.
Qed.

Lemma filter_all {A} (P : A -> Prop) `{forall x, Decision (P x)} (l : list A) :
  (forall x, x ∈ l -> P x) -> filter P l = l.
Proof.
  induction l as [|x l IH]; intros Hall; [reflexivity|].
  rewrite filter_cons_True by (apply Hall, list_elem_of_here).
  f_equal. apply IH. intros y Hy. apply Hall. now apply list_elem_of_further.
Qed.


Lemma groupExpr_is_Some period r :
  is_Some (parse_date (upload_date r)) -> is_Some (groupExpr period r).
Proof.
  intros [d Hd]. unfold groupExpr, strftime_Y_W, strftime_Y_m, strftime_Y.
  rewrite Hd. simpl.
  repeat (match goal with |- context [if ?b then _ else _] => destruct b end); eauto.
Qed.

(** With the period "day" and no bounds, every row is selected and the
    key of a row is its upload date. *)
Lemma getHistory_day sum tbl :
  getHistory sum None "day" "" "" tbl =
  map (fun k => scan_history sum k (group_of (fun r => Some (upload_date r)) tbl k))
    (group_keys (fun r => Some (upload_date r)) tbl).
Proof.
  unfold getHistory.
  rewrite (filter_all (fun r => in_range "" "" r = true)) by reflexivity.
  reflexivity.
Qed.



(** ** The stores the program builds *)

(** The upload dates of the table are those that were there and the
    date of the call: a property of dates is kept by ingestion. *)
Lemma rows_loop_dates (P : string -> Prop) ParseFloat hm today fpr lines faults tbl result :
  P today -> Forall (fun r => P (upload_date r)) tbl ->
  Forall (fun r => P (upload_date r))
    (snd (rows_loop ParseFloat hm today fpr lines faults tbl result)).
Proof.
  intros Htoday. revert fpr faults tbl result.
  induction lines as [|l lines IH]; intros fpr faults tbl result Htbl; cbn [rows_loop].
  - assumption.
  - destruct (readRecord fpr l) as [[rec [e|]] fpr']; [assumption|].
    destruct (decode ParseFloat hm today rec) as [t|] eqn:Hdec; [|assumption].
    apply IH. destruct (faults 0%nat); simpl; [assumption|].
    unfold sql_insert_or_ignore. case_decide; [assumption|].
    apply Forall_app. split; [assumption|]. constructor; [|constructor].
    simpl. unfold decode in Hdec.
    repeat (match type of Hdec with
            | context [field ?h ?r ?n] => destruct (field h r n); simpl in Hdec
            end); try discriminate.
    injection Hdec as <-. exact Htoday.
Qed.

Lemma processCSV_dates (P : string -> Prop) ParseFloat doc today faults tbl :
  P today -> Forall (fun r => P (upload_date r)) tbl ->
  Forall (fun r => P (upload_date r)) (snd (processCSV ParseFloat doc today faults tbl)).
Proof.
  intros Htoday Htbl. destruct doc as [|[headers|msg] lines]; try assumption.
  rewrite processCSV_header.
  destruct (first_missing required _); [assumption|]. now apply rows_loop_dates.
Qed.

Lemma handleReset_dates (P : string -> Prop) method qfault xfault tbl :
  Forall (fun r => P (upload_date r)) tbl ->
  Forall (fun r => P (upload_date r)) (snd (handleReset method qfault xfault tbl)).
Proof.
  intros H. unfold handleReset.
  destruct (negb (String.eqb method "POST")); [assumption|].
  destruct qfault; simpl; [assumption|].
  destruct (sql_max (map upload_date tbl)) as [d|]; [|assumption].
  destruct (String.eqb d ""); [assumption|].
  destruct xfault; simpl; [assumption|].
  apply Forall_forall. intros r [_ Hr]%list_elem_of_filter.
  rewrite Forall_forall in H. auto.
Qed.

(** A date of the clock is stored as a text that is not empty and that
    [strftime] reads. *)
Lemma Format_is_date d :
  valid_date d = true ->
  Format_2006_01_02 d <> "" /\ is_Some (parse_date (Format_2006_01_02 d)).
Proof.
  intros Hv. split; [|rewrite parse_date_Format; eauto].
  unfold Format_2006_01_02, pad4. cbv beta iota delta [String.append]. discriminate.
Qed.

(** Ingestion is a sequence of writes: it keeps the store reachable. *)
Lemma rows_loop_reachable ParseFloat hm today fpr lines faults tbl result :
  reachable tbl ->
  reachable (snd (rows_loop ParseFloat hm today fpr lines faults tbl result)).
Proof.
  revert fpr faults tbl result.
  induction lines as [|l lines IH]; intros fpr faults tbl result Htbl; cbn [rows_loop].
  - assumption.
  - destruct (readRecord fpr l) as [[rec [e|]] fpr']; [assumption|].
    destruct (decode ParseFloat hm today rec) as [t|]; [|assumption].
    apply IH. now constructor.
Qed.

Lemma processCSV_reachable ParseFloat doc today faults tbl :
  reachable tbl -> reachable (snd (processCSV ParseFloat doc today faults tbl)).
Proof.
  intros Htbl. destruct doc as [|[headers|msg] lines]; try assumption.
  rewrite processCSV_header.
  destruct (first_missing required _); [assumption|]. now apply rows_loop_reachable.
Qed.

(** The stores the program builds from a fresh database: uploads on
    dates of the clock, and resets. *)
Inductive ingested : list Row -> Prop :=
| ingested_init : ingested (initDB None)
| ingested_upload ParseFloat doc now faults tbl :
    valid_date now = true -> ingested tbl ->
    ingested (snd (processCSV ParseFloat doc (Format_2006_01_02 now) faults tbl))
| ingested_reset method qfault xfault tbl :
    ingested tbl -> ingested (snd (handleReset method qfault xfault tbl)).

(** Such a store is reachable, and its upload dates are texts that are
    not empty and that [strftime] reads. *)
Lemma ingested_reachable tbl : ingested tbl -> reachable tbl.
Proof.
  induction 1.
  - constructor.
  - now apply processCSV_reachable.
  - now constructor.
Qed.

Lemma ingested_dates tbl :
  ingested tbl ->
  Forall (fun r => upload_date r <> "") tbl /\
  Forall (fun r => is_Some (parse_date (upload_date r))) tbl.
Proof.
  induction 1 as [|PF doc now faults tbl Hv _ [IH1 IH2]|m q x tbl _ [IH1 IH2]].
  - split; constructor.
  - destruct (Format_is_date now Hv) as [Hne Hp].
    split; [now apply (processCSV_dates (fun d => d <> ""))|].
    now apply (processCSV_dates (fun d => is_Some (parse_date d))).
  - split; [now apply (handleReset_dates (fun d => d <> ""))|].
    now apply (handleReset_dates (fun d => is_Some (parse_date d))).
Qed.

(** No index is ever out of range: the reader gives every record the
    length of the header row, and the five columns are in it. *)
Lemma rows_loop_no_panic ParseFloat headers today lines faults tbl result :
  first_missing required (header_map 0 headers ∅) = None ->
  (0 < length headers)%nat ->
  fst (rows_loop ParseFloat (header_map 0 headers ∅) today (Z.of_nat (length headers))
         lines faults tbl result) <> Panic.
Proof.
  intros Hfm Hpos. revert faults tbl result.
  induction lines as [|l lines IH]; intros faults tbl result; cbn [rows_loop].
  - discriminate.
  - destruct (line_error (length headers) l) as [e|] eqn:El.
    + destruct (readRecord_bad _ _ _ Hpos El) as (rec & fpr & ->). discriminate.
    + destruct l as [fs|msg]; [|discriminate]. simpl in El.
      case_decide; [|discriminate].
      rewrite (readRecord_good _ fs Hpos) by assumption.
      destruct (decode_in_range ParseFloat headers today fs Hfm) as [t ->]; [assumption|].
      apply IH.
Qed.

Lemma processCSV_no_panic ParseFloat doc today faults tbl :
  fst (processCSV ParseFloat doc today faults tbl) <> Panic.
Proof.
  destruct doc as [|[headers|msg] lines]; try discriminate.
  rewrite processCSV_header.
  destruct (first_missing required _) eqn:E; [discriminate|].
  apply rows_loop_no_panic; [assumption|].
  rewrite first_missing_None in E.
  destruct (E "GST_AMOUNT") as [j Hj]; [unfold required; set_solver|].
  apply header_map_index in Hj. lia.
Qed.

(** The decimal [ParseFloat] gives 0 with a syntax error, as Go's. *)
Lemma ParseFloat_decimal_syntax s :
  snd (ParseFloat_decimal s) = Some strconv_ErrSyntax ->
  fst (ParseFloat_decimal s) = f64_zero.
Proof.
  unfold ParseFloat_decimal.
  destruct (read_decimal s) as [[[neg m] e]|]; [|reflexivity].
  destruct (round_decimal neg m e); discriminate.
Qed.

(** ... and an infinity with a range error. *)
Lemma ParseFloat_decimal_range s :
  snd (ParseFloat_decimal s) = Some strconv_ErrRange ->
  exists sg, fst (ParseFloat_decimal s) = S754_infinity sg.
Proof.
  unfold ParseFloat_decimal.
  destruct (read_decimal s) as [[[neg m] e]|]; [|discriminate].
  destruct (round_decimal neg m e); try discriminate. eauto.
Qed.

(** * Further properties of the program *)

(** ** The writes of an upload *)

(** The store [processCSV] leaves is the store after the writes of the
    rows of the file, and a summary it returns is the aggregator's
    result on them. *)
Lemma rows_loop_store ParseFloat hm today fpr lines faults tbl result :
  snd (rows_loop ParseFloat hm today fpr lines faults tbl result) =
  save_all faults (decoded_rows ParseFloat hm today fpr lines) tbl.
Proof.
  revert fpr faults tbl result.
  induction lines as [|l lines IH]; intros fpr faults tbl result;
    cbn [rows_loop decoded_rows]; [reflexivity|].
  destruct (readRecord fpr l) as [[rec [e|]] fpr']; [reflexivity|].
  destruct (decode ParseFloat hm today rec) as [t|]; [|reflexivity].
  cbn [save_all]. apply IH.
Qed.

Lemma rows_loop_summary ParseFloat hm today fpr lines faults tbl result r :
  fst (rows_loop ParseFloat hm today fpr lines faults tbl result) = Ok r ->
  r = fold_left (fun res t => summary_step (TotalAmountCharged t) (GSTAmount t) res)
        (decoded_rows ParseFloat hm today fpr lines) result.
Proof.
  revert fpr faults tbl result.
  induction lines as [|l lines IH]; intros fpr faults tbl result;
    cbn [rows_loop decoded_rows].
  - simpl. congruence.
  - destruct (readRecord fpr l) as [[rec [e|]] fpr']; [discriminate|].
    destruct (decode ParseFloat hm today rec) as [t|]; [|discriminate].
    cbn [fold_left]. apply IH.
Qed.

Lemma processCSV_store ParseFloat doc today faults tbl :
  snd (processCSV ParseFloat doc today faults tbl) =
  save_all faults (file_rows ParseFloat doc today) tbl.
Proof.
  destruct doc as [|[headers|msg] lines]; try reflexivity.
  rewrite processCSV_header. unfold file_rows.
  destruct (first_missing required _); [reflexivity|]. apply rows_loop_store.
Qed.

Lemma processCSV_summary ParseFloat doc today faults tbl r :
  fst (processCSV ParseFloat doc today faults tbl) = Ok r ->
  r = summarize (map amounts (file_rows ParseFloat doc today)).
Proof.
  destruct doc as [|[headers|msg] lines]; try discriminate.
  rewrite processCSV_header. unfold file_rows.
  destruct (first_missing required _); [discriminate|].
  intros H%rows_loop_summary. rewrite H.
  change UploadResult_zero with (summarize []). now rewrite summary_fold.
Qed.

(** The date of a decoded row is the date of the call, and nothing else
    of it depends on that date. *)
Lemma decode_today ParseFloat hm today today' rec :
  decode ParseFloat hm today' rec = with_date today' <$> decode ParseFloat hm today rec.
Proof.
  unfold decode.
  repeat (match goal with
          | |- context [field ?h ?r ?n] => destruct (field h r n); simpl
          end); reflexivity.
Qed.

Lemma decode_UploadDate ParseFloat hm today rec t :
  decode ParseFloat hm today rec = Some t -> UploadDate t = today.
Proof.
  unfold decode. intros H.
  repeat (match type of H with
          | context [field ?h ?r ?n] => destruct (field h r n); simpl in H
          end); try discriminate.
  now injection H as <-.
Qed.

Lemma decoded_rows_today ParseFloat hm today today' fpr lines :
  decoded_rows ParseFloat hm today' fpr lines =
  map (with_date today') (decoded_rows ParseFloat hm today fpr lines).
Proof.
  revert fpr. induction lines as [|l lines IH]; intros fpr; cbn [decoded_rows];
    [reflexivity|].
  destruct (readRecord fpr l) as [[rec [e|]] fpr']; [reflexivity|].
  rewrite (decode_today ParseFloat hm today today').
  destruct (decode ParseFloat hm today rec) as [t|]; simpl; [|reflexivity].
  now rewrite IH.
Qed.

Lemma decoded_rows_UploadDate ParseFloat hm today fpr lines :
  Forall (fun t => UploadDate t = today) (decoded_rows ParseFloat hm today fpr lines).
Proof.
  revert fpr. induction lines as [|l lines IH]; intros fpr; cbn [decoded_rows];
    [constructor|].
  destruct (readRecord fpr l) as [[rec [e|]] fpr']; [constructor|].
  destruct (decode ParseFloat hm today rec) as [t|] eqn:E; [|constructor].
  constructor; [now apply decode_UploadDate in E | apply IH].
Qed.

Lemma file_rows_today ParseFloat doc today today' :
  file_rows ParseFloat doc today' = map (with_date today') (file_rows ParseFloat doc today).
Proof.
  destruct doc as [|[headers|msg] lines]; try reflexivity. unfold file_rows.
  destruct (first_missing required _); [reflexivity|]. apply decoded_rows_today.
Qed.

Lemma file_rows_UploadDate ParseFloat doc today :
  Forall (fun t => UploadDate t = today) (file_rows ParseFloat doc today).
Proof.
  destruct doc as [|[headers|msg] lines]; try constructor. unfold file_rows.
  destruct (first_missing required _); [constructor|]. apply decoded_rows_UploadDate.
Qed.

(** The outcome of the loop does not depend on the date either. *)
Lemma rows_loop_outcome_today ParseFloat hm today1 today2 fpr lines faults1 faults2
    tbl1 tbl2 result :
  fst (rows_loop ParseFloat hm today1 fpr lines faults1 tbl1 result) =
  fst (rows_loop ParseFloat hm today2 fpr lines faults2 tbl2 result).
Proof.
  revert fpr faults1 faults2 tbl1 tbl2 result.
  induction lines as [|l lines IH]; intros; cbn [rows_loop]; [reflexivity|].
  destruct (readRecord fpr l) as [[rec [e|]] fpr']; [reflexivity|].
  rewrite (decode_today ParseFloat hm today1 today2).
  destruct (decode ParseFloat hm today1 rec) as [t|]; simpl; [|reflexivity].
  apply IH.
Qed.

Lemma processCSV_outcome_today ParseFloat doc today1 today2 faults1 faults2 tbl1 tbl2 :
  fst (processCSV ParseFloat doc today1 faults1 tbl1) =
  fst (processCSV ParseFloat doc today2 faults2 tbl2).
Proof.
  destruct doc as [|[headers|msg] lines]; try reflexivity.
  rewrite !processCSV_header.
  destruct (first_missing required _); [reflexivity|]. apply rows_loop_outcome_today.
Qed.

(** The writes add rows at the end of the table, each of a transaction
    whose key was not in it, no two with one key. *)
Lemma save_all_appends faults txs tbl :
  exists added,
    save_all faults txs tbl = tbl ++ added /\
    Forall (fun r => exists t, t ∈ txs /\ r = sql_bind t /\
                               EnrolmentNoDate t ∉ keys tbl) added /\
    NoDup (keys added).
Proof.
  revert faults tbl. induction txs as [|t txs IH]; intros faults tbl; cbn [save_all].
  - exists []. rewrite app_nil_r. repeat constructor.
  - destruct (IH (fun i => faults (S i)) (fst (saveTransaction (faults 0%nat) t tbl)))
      as (added & E & Hadd & Hnd).
    unfold saveTransaction, sql_insert_or_ignore in *.
    destruct (faults 0%nat); cbn [fst] in *;
      [|destruct (decide (EnrolmentNoDate t ∈ keys tbl)) as [Hin|Hin]].
    + exists added. split; [assumption|]. split; [|assumption].
      eapply Forall_impl; [exact Hadd|]. intros r (t' & Ht' & -> & Hk).
      exists t'. split; [now apply list_elem_of_further | auto].
    + exists added. split; [assumption|]. split; [|assumption].
      eapply Forall_impl; [exact Hadd|]. intros r (t' & Ht' & -> & Hk).
      exists t'. split; [now apply list_elem_of_further | auto].
    + exists (sql_bind t :: added). rewrite E, <- app_assoc. split; [reflexivity|].
      rewrite Forall_forall in Hadd. split.
      * constructor.
        -- exists t. split; [apply list_elem_of_here | auto].
        -- apply Forall_forall. intros r Hr.
           destruct (Hadd r Hr) as (t' & Ht' & -> & Hk). exists t'.
           split; [now apply list_elem_of_further|]. split; [reflexivity|].
           intros Hk'. apply Hk. rewrite keys_app. apply elem_of_app. now left.
      * change (keys (sql_bind t :: added)) with (EnrolmentNoDate t :: keys added).
        apply NoDup_cons. split; [|assumption].
        intros (r & Er & Hr)%list_elem_of_fmap.
        destruct (Hadd r Hr) as (t' & Ht' & -> & Hk). apply Hk.
        rewrite keys_app. apply elem_of_app. right. simpl in *. rewrite <- Er.
        apply list_elem_of_here.
Qed.

(** The rows an upload adds carry its date. *)
Lemma appended_rows_are_dated ParseFloat doc today faults tbl :
  exists added,
    snd (processCSV ParseFloat doc today faults tbl) = tbl ++ added /\
    Forall (fun r => upload_date r = today) added.
Proof.
  rewrite processCSV_store.
  destruct (save_all_appends faults (file_rows ParseFloat doc today) tbl)
    as (added & E & Hadd & _).
  exists added. split; [assumption|].
  eapply Forall_impl; [exact Hadd|]. intros r (t & Ht & -> & _).
  pose proof (file_rows_UploadDate ParseFloat doc today) as Hd.
  rewrite Forall_forall in Hd. simpl. auto.
Qed.

(** X1: an upload only adds rows: whatever the file holds and whatever
    the engine does with each write, the table after [processCSV] is the
    table before it followed by new rows; every new row carries the date
    of the upload and a key that was not in the table, and no two new
    rows have one key.  No stored row is changed, moved or removed. *)
Theorem upload_only_appends (ParseFloat : string -> float64 * option error)
    (doc : list line) (today : string) (faults : nat -> option error)
    (tbl : list Row) :
  exists added,
    snd (processCSV ParseFloat doc today faults tbl) = tbl ++ added /\
    Forall (fun r => upload_date r = today /\ enrolment_no_date r ∉ keys tbl) added /\
    NoDup (keys added).
Proof.
  rewrite processCSV_store.
  destruct (save_all_appends faults (file_rows ParseFloat doc today) tbl)
    as (added & E & Hadd & Hnd).
  exists added. split; [assumption|]. split; [|assumption].
  eapply Forall_impl; [exact Hadd|]. intros r (t & Ht & -> & Hk). split; [|exact Hk].
  pose proof (file_rows_UploadDate ParseFloat doc today) as Hd.
  rewrite Forall_forall in Hd. simpl. auto.
Qed.

(** A write of a key that is in the table changes nothing. *)
Lemma save_all_present faults txs tbl :
  Forall (fun t => EnrolmentNoDate t ∈ keys tbl) txs -> save_all faults txs tbl = tbl.
Proof.
  revert faults. induction txs as [|t txs IH]; intros faults H; cbn [save_all];
    [reflexivity|].
  apply Forall_cons in H as [Ht H].
  replace (fst (saveTransaction (faults 0%nat) t tbl)) with tbl; [now apply IH|].
  unfold saveTransaction. destruct (faults 0%nat); simpl; [reflexivity|].
  now rewrite sql_insert_or_ignore_present.
Qed.

Lemma save_all_keys_None txs tbl :
  Forall (fun t => EnrolmentNoDate t ∈ keys (save_all (fun _ => None) txs tbl)) txs.
Proof.
  apply Forall_forall. intros t Ht. apply list_elem_of_lookup in Ht as [i Hi].
  now apply (save_all_key _ _ _ i t Hi).
Qed.

(** X2: uploading a file a second time changes nothing.  When the
    engine ran every write of the first upload, [processCSV] on the same
    file, on any later date and whatever the engine does with the writes
    then, returns what the first upload returned (the same summary or the
    same error) and leaves the table as the first upload left it. *)
Theorem reupload_changes_nothing (ParseFloat : string -> float64 * option error)
    (doc : list line) (today today' : string) (faults : nat -> option error)
    (tbl : list Row) :
  let first := processCSV ParseFloat doc today (fun _ => None) tbl in
  processCSV ParseFloat doc today' faults (snd first) = first.
Proof.
  intros first. apply injective_projections.
  - apply processCSV_outcome_today.
  - subst first. rewrite !processCSV_store.
    rewrite (file_rows_today ParseFloat doc today today').
    apply save_all_present. apply Forall_fmap.
    exact (save_all_keys_None (file_rows ParseFloat doc today) tbl).
Qed.

(** The rows of a file whose records have the length of its header row. *)
Lemma decoded_rows_records ParseFloat hm today n recs txs :
  (0 < n)%nat -> Forall (fun rec => length rec = n) recs ->
  Forall2 (fun rec t => decode ParseFloat hm today rec = Some t) recs txs ->
  decoded_rows ParseFloat hm today (Z.of_nat n) (map Fields recs) = txs.
Proof.
  intros Hn Hlen H. induction H as [|rec t recs txs Hd _ IH]; [reflexivity|].
  apply Forall_cons in Hlen as [Hl Hlen]. cbn [map decoded_rows].
  rewrite (readRecord_good n rec Hn Hl), Hd. f_equal. now apply IH.
Qed.

Lemma file_rows_records ParseFloat headers recs today txs :
  (forall req, req ∈ required -> req ∈ map TrimSpace headers) ->
  Forall (fun rec => length rec = length headers) recs ->
  Forall2 (fun rec t => decode ParseFloat (header_map 0 headers ∅) today rec = Some t)
    recs txs ->
  file_rows ParseFloat (Fields headers :: map Fields recs) today = txs.
Proof.
  intros Hreq Hlen H. destruct (header_complete headers Hreq) as [Hfm Hpos].
  unfold file_rows. rewrite Hfm. now apply decoded_rows_records.
Qed.

Lemma processCSV_Ok ParseFloat headers recs today faults tbl txs :
  (forall req, req ∈ required -> req ∈ map TrimSpace headers) ->
  Forall (fun rec => length rec = length headers) recs ->
  Forall2 (fun rec t => decode ParseFloat (header_map 0 headers ∅) today rec = Some t)
    recs txs ->
  processCSV ParseFloat (Fields headers :: map Fields recs) today faults tbl =
  (Ok (summarize (map amounts txs)), save_all faults txs tbl).
Proof.
  intros Hreq Hlen H.
  destruct (processCSV_records ParseFloat headers recs [] today faults tbl Hreq Hlen)
    as (txs' & H' & E).
  assert (txs' = txs) as ->.
  { rewrite <- (file_rows_records ParseFloat headers recs today txs' Hreq Hlen H').
    now apply file_rows_records. }
  rewrite app_nil_r in E. exact E.
Qed.

Lemma NoDup_keys_eq tbl r1 r2 :
  NoDup (keys tbl) -> r1 ∈ tbl -> r2 ∈ tbl ->
  enrolment_no_date r1 = enrolment_no_date r2 -> r1 = r2.
Proof.
  induction tbl as [|r tbl IH]; intros Hnd H1 H2 E.
  - now apply elem_of_nil in H1.
  - change (keys (r :: tbl)) with (enrolment_no_date r :: keys tbl) in Hnd.
    apply NoDup_cons in Hnd as [Hr Hnd].
    apply elem_of_cons in H1 as [->|H1]; apply elem_of_cons in H2 as [->|H2].
    + reflexivity.
    + exfalso. apply Hr. rewrite E. now apply list_elem_of_fmap_2.
    + exfalso. apply Hr. rewrite <- E. now apply list_elem_of_fmap_2.
    + now apply IH.
Qed.

Lemma save_all_NoDup faults txs tbl :
  NoDup (keys tbl) -> NoDup (keys (save_all faults txs tbl)).
Proof.
  revert faults tbl. induction txs as [|t txs IH]; intros faults tbl H; cbn [save_all];
    [assumption|].
  apply IH. now apply saveTransaction_NoDup.
Qed.

(** X3: of the rows of a file that share a key, the first is the one
    that is stored.  When every write runs, a row of the file whose key
    is neither in the table nor on an earlier row of the file is in the
    table after the upload, and it is the only row there with its key:
    a later row of the file with that key leaves no trace. *)
Theorem first_row_of_a_key_is_kept (ParseFloat : string -> float64 * option error)
    (headers : list string) (recs : list (list string)) (today : string)
    (tbl : list Row) (txs : list Transaction) (i : nat) (t : Transaction) :
  (forall req, req ∈ required -> req ∈ map TrimSpace headers) ->
  Forall (fun rec => length rec = length headers) recs ->
  Forall2 (fun rec t => decode ParseFloat (header_map 0 headers ∅) today rec = Some t)
    recs txs ->
  NoDup (keys tbl) ->
  txs !! i = Some t ->
  EnrolmentNoDate t ∉ keys tbl ->
  (forall j t', (j < i)%nat -> txs !! j = Some t' ->
     EnrolmentNoDate t' <> EnrolmentNoDate t) ->
  let store :=
    snd (processCSV ParseFloat (Fields headers :: map Fields recs) today
           (fun _ => None) tbl) in
  sql_bind t ∈ store /\
  (forall r, r ∈ store -> enrolment_no_date r = EnrolmentNoDate t -> r = sql_bind t).
Proof.
  intros Hreq Hlen Hdec Hnd Hi Hnew Hfirst store.
  assert (Hin : sql_bind t ∈ store).
  { subst store. rewrite (processCSV_Ok _ _ _ _ _ _ txs Hreq Hlen Hdec). cbn [snd].
    rewrite <- (take_drop_middle txs i t Hi), save_all_app. cbn [save_all]. cbv beta.
    apply save_all_incl.
    destruct (save_all_appends (fun _ => None) (take i txs) tbl) as (added & E & Hadd & _).
    rewrite E. unfold saveTransaction. cbn [fst].
    rewrite sql_insert_or_ignore_absent; [apply elem_of_app; right; apply list_elem_of_here|].
    rewrite keys_app. intros [Hk|Hk]%elem_of_app; [contradiction|].
    apply list_elem_of_fmap in Hk as (r & Er & Hr).
    rewrite Forall_forall in Hadd. destruct (Hadd r Hr) as (t' & Ht' & -> & _).
    apply list_elem_of_lookup in Ht' as [j Hj].
    apply lookup_take_Some in Hj as [Hj Hlt].
    apply (Hfirst j t' Hlt Hj). simpl in Er. congruence. }
  split; [assumption|].
  intros r Hr E. apply (NoDup_keys_eq store); try assumption.
  subst store. rewrite processCSV_store. now apply save_all_NoDup.
Qed.

(** ** The reports after an upload *)

(** Writes of new, distinct keys that all run add one row each. *)
Lemma save_all_fresh txs tbl :
  NoDup (map EnrolmentNoDate txs) ->
  Forall (fun t => EnrolmentNoDate t ∉ keys tbl) txs ->
  save_all (fun _ => None) txs tbl = tbl ++ map sql_bind txs.
Proof.
  revert tbl. induction txs as [|t txs IH]; intros tbl Hnd Hnew; cbn [save_all map].
  - now rewrite app_nil_r.
  - apply NoDup_cons in Hnd as [Ht Hnd]. apply Forall_cons in Hnew as [Hk Hnew].
    unfold saveTransaction. cbn [fst]. cbv beta.
    rewrite sql_insert_or_ignore_absent by assumption.
    rewrite IH; [now rewrite <- app_assoc | assumption |].
    apply Forall_forall. intros t' Ht'. rewrite keys_app.
    intros [H|H]%elem_of_app.
    + rewrite Forall_forall in Hnew. now apply (Hnew t').
    + simpl in H. apply list_elem_of_singleton in H. apply Ht. rewrite <- H.
      now apply list_elem_of_fmap_2.
Qed.

(** A row whose two amounts are numbers is scanned as it was written. *)
Lemma scan_amounts_bind t :
  is_number (TotalAmountCharged t) = true -> is_number (GSTAmount t) = true ->
  scan_amounts (sql_bind t) = amounts t.
Proof.
  unfold scan_amounts, sql_bind, amounts, sql_bind_real. cbn [total_amount_charged gst_amount].
  destruct (TotalAmountCharged t), (GSTAmount t); simpl; try discriminate; reflexivity.
Qed.

Lemma analytics_of_upload w txs tbl :
  filter (fun r => sql_where w r = true) tbl = [] ->
  Forall (fun t => sql_where w (sql_bind t) = true /\
                   is_number (TotalAmountCharged t) = true /\
                   is_number (GSTAmount t) = true) txs ->
  getAnalyticsFiltered None w (tbl ++ map sql_bind txs) = analytics_loop (map amounts txs).
Proof.
  intros Hold Hnew. unfold getAnalyticsFiltered. rewrite filter_app, Hold, app_nil_l.
  rewrite Forall_forall in Hnew.
  rewrite filter_all.
  - rewrite map_map. f_equal. apply map_ext_in. intros t Ht%list_elem_of_In.
    destruct (Hnew t Ht) as (_ & Ha & Hg). now apply scan_amounts_bind.
  - intros r (t & -> & Ht)%list_elem_of_fmap. now destruct (Hnew t Ht).
Qed.

Lemma summarize_fields pairs :
  analytics_loop pairs =
  (Revenue (summarize pairs), GST (summarize pairs), Slabs (summarize pairs),
   Rows (summarize pairs)).
Proof.
  unfold summarize. now destruct (analytics_loop pairs) as [[[rev gst] s] total].
Qed.

(** X4: the reports agree with the upload summary.  When a file of new,
    distinct keys whose amounts are numbers is ingested, every write
    running, into a table that holds no row of that day, the report of
    the day ([getAnalyticsFiltered] with [upload_date = today], the
    command /today) is the summary [processCSV] returned: revenue, GST,
    the three slab counts and the number of rows.  Into an empty table,
    the all-time report of [getAnalytics] is that summary too. *)
Theorem reports_match_upload_summary (ParseFloat : string -> float64 * option error)
    (headers : list string) (recs : list (list string)) (today : string)
    (tbl : list Row) (txs : list Transaction) :
  (forall req, req ∈ required -> req ∈ map TrimSpace headers) ->
  Forall (fun rec => length rec = length headers) recs ->
  Forall2 (fun rec t => decode ParseFloat (header_map 0 headers ∅) today rec = Some t)
    recs txs ->
  NoDup (map EnrolmentNoDate txs) ->
  Forall (fun t => (EnrolmentNoDate t ∉ keys tbl) /\
                   is_number (TotalAmountCharged t) = true /\
                   is_number (GSTAmount t) = true) txs ->
  Forall (fun r => upload_date r <> today) tbl ->
  exists result,
    let store :=
      snd (processCSV ParseFloat (Fields headers :: map Fields recs) today
             (fun _ => None) tbl) in
    fst (processCSV ParseFloat (Fields headers :: map Fields recs) today
           (fun _ => None) tbl) = Ok result /\
    getAnalyticsFiltered None (where_upload_date_eq today) store =
      (Revenue result, GST result, Slabs result, Rows result) /\
    (tbl = [] ->
     getAnalytics None store = (Revenue result, GST result, Slabs result)).
Proof.
  intros Hreq Hlen Hdec Hnd Hnew Hold.
  exists (summarize (map amounts txs)). cbv zeta.
  rewrite (processCSV_Ok _ _ _ _ _ _ txs Hreq Hlen Hdec). cbn [fst snd].
  rewrite save_all_fresh; [|assumption|].
  2:{ eapply Forall_impl; [exact Hnew|]. now intros t [? _]. }
  assert (Hdate : Forall (fun t => UploadDate t = today) txs).
  { rewrite <- (file_rows_records ParseFloat headers recs today txs Hreq Hlen Hdec).
    apply file_rows_UploadDate. }
  split; [reflexivity|]. split.
  - rewrite <- summarize_fields. apply analytics_of_upload.
    + apply filter_none. intros r Hr. rewrite Forall_forall in Hold.
      simpl. intros E%bool_decide_eq_true. now apply (Hold r).
    + rewrite Forall_forall in Hnew, Hdate. apply Forall_forall. intros t Ht.
      destruct (Hnew t Ht) as (_ & Ha & Hg). repeat split; try assumption.
      simpl. apply bool_decide_eq_true. now apply Hdate.
  - intros ->. unfold getAnalytics.
    rewrite (analytics_of_upload where_none txs []).
    + rewrite (summarize_fields (map amounts txs)). reflexivity.
    + reflexivity.
    + eapply Forall_impl; [exact Hnew|]. intros t (_ & Ha & Hg). now repeat split.
Qed.

(** ** The undo of the last upload *)

Lemma filter_date_ne_elem (d : string) (tbl : list Row) (r : Row) :
  r ∈ tbl -> (r ∉ filter (fun r => upload_date r <> d) tbl <-> upload_date r = d).
Proof.
  intros Hr. rewrite list_elem_of_filter. split.
  - intros H. destruct (decide (upload_date r = d)) as [E|E]; [assumption|].
    exfalso. apply H. now split.
  - intros E [H _]. contradiction.
Qed.

(** X5: [handleReset] deletes the rows of one date or nothing.  Whatever
    the method and whatever the engine does, the table it leaves is the
    table it found without some of its rows, in the same order; when a
    row is gone, the rows that are gone are exactly those of its upload
    date.  The table changes only on a POST whose two statements the
    engine ran, and the answer is then the redirect to "/"; any other
    method is answered with 405, and a POST whose query fails is
    answered with the same redirect as a success. *)
Theorem reset_deletes_one_date_or_nothing (method : string)
    (qfault xfault : option error) (tbl : list Row) :
  let resp := fst (handleReset method qfault xfault tbl) in
  let tbl' := snd (handleReset method qfault xfault tbl) in
  tbl' `sublist_of` tbl /\
  (forall r1 r2, r1 ∈ tbl -> r2 ∈ tbl -> r1 ∉ tbl' ->
     (r2 ∉ tbl' <-> upload_date r2 = upload_date r1)) /\
  (tbl' <> tbl ->
     method = "POST" /\ qfault = None /\ xfault = None /\ resp = Redirect "/" 303) /\
  (method <> "POST" -> resp = HttpError "Method not allowed" 405) /\
  (method = "POST" -> is_Some qfault -> resp = Redirect "/" 303).
Proof.
  cbv zeta. unfold handleReset.
  destruct (String.eqb_spec method "POST") as [->|Hm]; cbn [negb].
  2:{ cbn [fst snd]. split; [reflexivity|]. split; [intros; contradiction|].
      split; [congruence|]. split; [reflexivity | contradiction]. }
  destruct qfault as [q|].
  { cbn [fst snd]. split; [reflexivity|]. split; [intros; contradiction|].
    split; [congruence|]. split; [congruence | reflexivity]. }
  destruct (sql_max (map upload_date tbl)) as [d|].
  2:{ cbn [fst snd]. split; [reflexivity|]. split; [intros; contradiction|].
      split; [congruence|]. split; [congruence | now intros _ [? ?]]. }
  destruct (String.eqb d "").
  { cbn [fst snd]. split; [reflexivity|]. split; [intros; contradiction|].
    split; [congruence|]. split; [congruence | now intros _ [? ?]]. }
  destruct xfault as [x|].
  { cbn [fst snd]. split; [reflexivity|]. split; [intros; contradiction|].
    split; [congruence|]. split; [congruence | now intros _ [? ?]]. }
  cbn [fst snd]. split; [apply sublist_filter|]. split.
  - intros r1 r2 H1 H2 Hgone. apply (filter_date_ne_elem d tbl r1 H1) in Hgone.
    rewrite (filter_date_ne_elem d tbl r2 H2). now rewrite Hgone.
  - split; [auto|]. split; [congruence | now intros _ [? ?]].
Qed.

(** The greatest date of a table that ends with rows of a date above
    all the others. *)
Lemma sql_max_latest (today : string) (tbl added : list Row) :
  Forall (fun r => String.ltb (upload_date r) today = true) tbl ->
  Forall (fun r => upload_date r = today) added -> added <> [] ->
  sql_max (map upload_date (tbl ++ added)) = Some today.
Proof.
  intros Hold Hnew Hne. pose proof (sql_max_spec (map upload_date (tbl ++ added))) as H.
  destruct (sql_max (map upload_date (tbl ++ added))) as [m|].
  - destruct H as [Hin Hle]. f_equal.
    assert (Htoday : today ∈ map upload_date (tbl ++ added)).
    { destruct added as [|r added]; [congruence|].
      apply Forall_cons in Hnew as [<- _]. apply list_elem_of_fmap_2.
      apply elem_of_app. right. apply list_elem_of_here. }
    apply list_elem_of_fmap in Hin as (r & -> & [Hr|Hr]%elem_of_app).
    + rewrite Forall_forall in Hold. apply Hold in Hr.
      apply ltb_true_not_le in Hr. exfalso. now apply Hr, Hle.
    + rewrite Forall_forall in Hnew. now apply Hnew.
  - destruct tbl, added; try discriminate. congruence.
Qed.

Lemma ltb_irrefl (s : string) : String.ltb s s = false.
Proof.
  destruct (String.ltb s s) eqn:E; [|reflexivity].
  apply ltb_true_not_le in E. exfalso. now apply E.
Qed.

(** X6: the reset undoes the upload that came before it.  When the rows
    of the table all have dates before the date of the upload (in the
    order of texts, which is the order of the calendar on stored dates),
    an upload that added a row, followed by a POST to [handleReset] whose
    statements run, leaves the table as it was before the upload,
    whatever the file held and whatever writes failed.  When the upload
    added no row (an empty file, or keys that are all stored), the same
    POST deletes rows that were there before the upload. *)
Theorem reset_undoes_upload (ParseFloat : string -> float64 * option error)
    (doc : list line) (today : string) (faults : nat -> option error)
    (tbl : list Row) :
  today <> "" ->
  Forall (fun r => upload_date r <> "" /\ String.ltb (upload_date r) today = true) tbl ->
  let up := snd (processCSV ParseFloat doc today faults tbl) in
  (up <> tbl -> snd (handleReset "POST" None None up) = tbl) /\
  (up = tbl -> tbl <> [] -> snd (handleReset "POST" None None up) <> tbl).
Proof.
  intros Htoday Hold up. split.
  - destruct (appended_rows_are_dated ParseFloat doc today faults tbl)
      as (added & E & Hadd). fold up in E. intros Hne.
    assert (Hadded : added <> []).
    { intros ->. rewrite app_nil_r in E. contradiction. }
    rewrite E. unfold handleReset. cbn [String.eqb Ascii.eqb Bool.eqb negb].
    rewrite (sql_max_latest today); [|eapply Forall_impl; [exact Hold|]; now intros r [_ ?]
                                     |assumption|assumption].
    destruct (String.eqb_spec today ""); [contradiction|]. cbn [snd].
    rewrite filter_app, filter_all, filter_none; [apply app_nil_r| |].
    + intros r Hr. rewrite Forall_forall in Hadd. apply Hadd in Hr. tauto.
    + intros r Hr E'. rewrite Forall_forall in Hold. destruct (Hold r Hr) as [_ Hlt].
      rewrite E', ltb_irrefl in Hlt. discriminate.
  - intros -> Hne. rewrite Forall_forall in Hold.
    destruct (handleReset_post tbl) as (dmax & _ & Hin & _ & ->); [|assumption|].
    { apply Forall_forall. intros r Hr. now destruct (Hold r Hr). }
    cbn [snd]. apply list_elem_of_fmap in Hin as (r & Er & Hr). intros E.
    assert (Hr' : r ∈ filter (fun r => upload_date r <> dmax) tbl) by now rewrite E.
    apply list_elem_of_filter in Hr' as [Hd _]. congruence.
Qed.

(** ** getDateRange *)

(** The fold of [MIN] returns an element that is below all the others. *)
Lemma fold_min_spec l x :
  let m := fold_left (fun m s => if String.ltb s m then s else m) l x in
  m ∈ x :: l /\ forall y, y ∈ x :: l -> String.le m y.
Proof.
  revert x. induction l as [|s l IH]; intros x; simpl.
  - split; [apply list_elem_of_here|].
    intros y Hy. apply list_elem_of_singleton in Hy as ->. reflexivity.
  - destruct (String.ltb s x) eqn:E.
    + destruct (IH s) as [Hin Hle]. split.
      * now apply list_elem_of_further.
      * intros y [->|Hy]%elem_of_cons; [|auto].
        transitivity s; [apply Hle, list_elem_of_here | now apply ltb_true_le].
    + destruct (IH x) as [Hin Hle]. split.
      * apply elem_of_cons in Hin as [->|Hin]; [apply list_elem_of_here|].
        now do 2 apply list_elem_of_further.
      * intros y [->|[->|Hy]%elem_of_cons]%elem_of_cons.
        -- apply Hle, list_elem_of_here.
        -- transitivity x; [apply Hle, list_elem_of_here | now apply ltb_false_le].
        -- apply Hle. now apply list_elem_of_further.
Qed.

Lemma sql_min_spec l :
  match sql_min l with
  | None => l = []
  | Some m => m ∈ l /\ forall y, y ∈ l -> String.le m y
  end.
Proof.
  destruct l as [|x l]; simpl; [reflexivity|]. apply fold_min_spec.
Qed.

Lemma getDateRange_max tbl :
  snd (getDateRange None tbl) = default "" (sql_max (map upload_date tbl)).
Proof. reflexivity. Qed.

(** X7: the date range of the history page.  On the empty table and
    when the query fails, [getDateRange] gives two empty strings.  On a
    table with rows it gives two upload dates of the table, and every
    upload date of the table is between them in the order of texts. *)
Theorem date_range_bounds_every_date (tbl : list Row) :
  (forall fault, getDateRange fault [] = ("", "")) /\
  (forall e, getDateRange (Some e) tbl = ("", "")) /\
  (forall r, r ∈ tbl ->
     fst (getDateRange None tbl) ∈ map upload_date tbl /\
     snd (getDateRange None tbl) ∈ map upload_date tbl /\
     String.le (fst (getDateRange None tbl)) (upload_date r) /\
     String.le (upload_date r) (snd (getDateRange None tbl))).
Proof.
  split; [now intros [e|]|]. split; [reflexivity|].
  intros r Hr. unfold getDateRange. cbn [fst snd].
  pose proof (sql_min_spec (map upload_date tbl)) as Hmin.
  pose proof (sql_max_spec (map upload_date tbl)) as Hmax.
  assert (Hd : upload_date r ∈ map upload_date tbl) by now apply list_elem_of_fmap_2.
  destruct (sql_min (map upload_date tbl)) as [mn|];
    [|rewrite Hmin in Hd; now apply elem_of_nil in Hd].
  destruct (sql_max (map upload_date tbl)) as [mx|];
    [|rewrite Hmax in Hd; now apply elem_of_nil in Hd].
  destruct Hmin as [Hmin1 Hmin2], Hmax as [Hmax1 Hmax2]. simpl. auto.
Qed.

(** ** The history after a reset *)

#[global] Instance period_ge_antisymm : AntiSymm (=) period_ge.
Proof.
  intros [a|] [b|] H1 H2; simpl in *; try contradiction; try reflexivity.
  f_equal. now apply (anti_symm String.le).
Qed.

(** The keys of the groups when the rows of the greatest key are taken
    away: the first key goes, the others stay. *)
Lemma group_keys_without_max (tbl : list Row) (dmax : string) :
  dmax ∈ map upload_date tbl ->
  (forall r, r ∈ tbl -> String.le (upload_date r) dmax) ->
  group_keys (fun r => Some (upload_date r)) tbl =
  Some dmax ::
    group_keys (fun r => Some (upload_date r)) (filter (fun r => upload_date r <> dmax) tbl).
Proof.
  intros Hin Hle. set (key := fun r : Row => Some (upload_date r)).
  set (tbl' := filter (fun r => upload_date r <> dmax) tbl).
  assert (Hnot : Some dmax ∉ group_keys key tbl').
  { intros (r & [Hd _]%list_elem_of_filter & [= E])%group_keys_elem. contradiction. }
  apply (StronglySorted_unique period_ge).
  - apply group_keys_sorted.
  - constructor; [apply group_keys_sorted|]. apply Forall_forall.
    intros k (r & [_ Hr]%list_elem_of_filter & <-)%group_keys_elem. simpl. now apply Hle.
  - apply NoDup_Permutation.
    + apply group_keys_NoDup.
    + apply NoDup_cons. split; [assumption | apply group_keys_NoDup].
    + intros k. rewrite elem_of_cons, !group_keys_elem. split.
      * intros (r & Hr & <-). destruct (decide (upload_date r = dmax)) as [E|E].
        -- left. unfold key. now rewrite E.
        -- right. exists r. split; [|reflexivity]. apply list_elem_of_filter. now split.
      * intros [->|(r & [_ Hr]%list_elem_of_filter & <-)]; [|eauto].
        apply list_elem_of_fmap in Hin as (r & -> & Hr). eauto.
Qed.

(** X8: the reset removes the first row of the daily history and
    nothing else of the reports.  On a table with rows, whose dates are
    not empty, a POST to [handleReset] whose statements run deletes the
    rows of the latest date, the second result of [getDateRange]; the
    daily history before it is one row for that date followed by the
    daily history after it; the report of every other date is unchanged
    and the report of that date is empty. *)
Theorem reset_removes_first_history_row (sum : list float64 -> float64)
    (tbl : list Row) :
  Forall (fun r => upload_date r <> "") tbl -> tbl <> [] ->
  let dmax := snd (getDateRange None tbl) in
  let tbl' := snd (handleReset "POST" None None tbl) in
  tbl' = filter (fun r => upload_date r <> dmax) tbl /\
  (exists h,
     Period h = dmax /\
     getHistory sum None "day" "" "" tbl = h :: getHistory sum None "day" "" "" tbl') /\
  (forall d, d <> dmax ->
     getAnalyticsFiltered None (where_upload_date_eq d) tbl' =
     getAnalyticsFiltered None (where_upload_date_eq d) tbl) /\
  getAnalyticsFiltered None (where_upload_date_eq dmax) tbl' =
    (f64_zero, f64_zero, SlabCounts_zero, 0).
Proof.
  intros Hdates Hne dmax tbl'.
  destruct (handleReset_post tbl Hdates Hne) as (m & Emax & Hin & Hle & Ereset).
  assert (Edmax : dmax = m).
  { subst dmax. now rewrite getDateRange_max, Emax. }
  assert (Etbl' : tbl' = filter (fun r => upload_date r <> dmax) tbl).
  { subst tbl'. now rewrite Ereset, Edmax. }
  split; [assumption|]. split; [|split].
  - exists (scan_history sum (Some dmax)
              (group_of (fun r => Some (upload_date r)) tbl (Some dmax))).
    split; [apply scan_history_Period|].
    rewrite !getHistory_day, Etbl', Edmax.
    rewrite (group_keys_without_max tbl m Hin Hle). cbn [map]. f_equal.
    apply map_ext_in. intros k Hk. f_equal.
    apply list_elem_of_In, group_keys_elem in Hk as (r & [Hd _]%list_elem_of_filter & <-).
    unfold group_of. rewrite list_filter_filter. apply filter_ext_in.
    intros r' _. split; [|tauto]. intros E. split; [assumption|].
    injection E as E. congruence.
  - intros d Hd. unfold getAnalyticsFiltered. do 2 f_equal. rewrite Etbl'.
    rewrite list_filter_filter. apply filter_ext_in.
    intros r _. cbn [sql_where]. rewrite bool_decide_eq_true.
    split; [tauto|]. intros E. split; [assumption | congruence].
  - unfold getAnalyticsFiltered. rewrite Etbl', list_filter_filter.
    rewrite filter_none; [reflexivity|].
    intros r _ [E%bool_decide_eq_true Hd]. contradiction.
Qed.

(** ** Stored dates *)

Lemma digit_of_digit_val c v : digit_val c = Some v -> c = digit v /\ 0 <= v <= 9.
Proof.
  unfold digit_val, digit.
  destruct ((48 <=? Z.of_N (N_of_ascii c)) && (Z.of_N (N_of_ascii c) <=? 57)) eqn:E;
    [|discriminate].
  intros [= <-]. apply andb_true_iff in E as [H1 H2]. apply Z.leb_le in H1, H2.
  split; [|lia]. rewrite Z.mod_small by lia.
  replace (48 + (Z.of_N (N_of_ascii c) - 48)) with (Z.of_N (N_of_ascii c)) by lia.
  rewrite N2Z.id. symmetry. apply ascii_N_embedding.
Qed.

Lemma digit_mod a b : a mod 10 = b mod 10 -> digit a = digit b.
Proof. unfold digit. now intros ->. Qed.

Lemma digit_inj a b : digit a = digit b -> a mod 10 = b mod 10.
Proof.
  intros H. apply (f_equal digit_val) in H. rewrite !digit_val_digit in H. congruence.
Qed.

(** A text that [strftime] reads has the ten characters of a date. *)
Lemma parse_date_shape s d :
  parse_date s = Some d ->
  exists y1 y2 y3 y4 m1 m2 d1 d2,
    s = String y1 (String y2 (String y3 (String y4 (String "-"
          (String m1 (String m2 (String "-" (String d1 (String d2 ""))))))))).
Proof.
  intros H.
  destruct s as [|y1 s]; [discriminate|]. destruct s as [|y2 s]; [discriminate|].
  destruct s as [|y3 s]; [discriminate|]. destruct s as [|y4 s]; [discriminate|].
  destruct s as [|c5 s]; [discriminate|].
  destruct (Ascii.eqb_spec c5 "-") as [->|Hc5].
  2:{ exfalso. apply Hc5. clear Hc5.
      destruct c5 as [[] [] [] [] [] [] [] []]; try discriminate H. reflexivity. }
  destruct s as [|m1 s]; [discriminate|]. destruct s as [|m2 s]; [discriminate|].
  destruct s as [|c8 s]; [discriminate|].
  destruct (Ascii.eqb_spec c8 "-") as [->|Hc8].
  2:{ exfalso. apply Hc8. clear Hc8.
      destruct c8 as [[] [] [] [] [] [] [] []]; try discriminate H. reflexivity. }
  destruct s as [|d1 s]; [discriminate|]. destruct s as [|d2 s]; [discriminate|].
  destruct s; [|discriminate]. eauto 10.
Qed.

(** ... and is the text of the date it is read as. *)
Lemma Format_parse_date s d :
  parse_date s = Some d -> Format_2006_01_02 d = s /\ valid_date d = true.
Proof.
  intros H. destruct (parse_date_shape s d H) as (y1 & y2 & y3 & y4 & m1 & m2 & d1 & d2 & ->).
  unfold parse_date in H.
  destruct (digit_val y1) as [a1|] eqn:E1; [|discriminate].
  destruct (digit_val y2) as [a2|] eqn:E2; [|discriminate].
  destruct (digit_val y3) as [a3|] eqn:E3; [|discriminate].
  destruct (digit_val y4) as [a4|] eqn:E4; [|discriminate].
  destruct (digit_val m1) as [b1|] eqn:E5; [|discriminate].
  destruct (digit_val m2) as [b2|] eqn:E6; [|discriminate].
  destruct (digit_val d1) as [c1|] eqn:E7; [|discriminate].
  destruct (digit_val d2) as [c2|] eqn:E8; [|discriminate].
  cbn [mbind option_bind] in H.
  destruct (valid_date _) eqn:Hv; [|discriminate]. injection H as <-.
  split; [|exact Hv].
  apply digit_of_digit_val in E1 as [-> ?], E2 as [-> ?], E3 as [-> ?], E4 as [-> ?],
    E5 as [-> ?], E6 as [-> ?], E7 as [-> ?], E8 as [-> ?].
  unfold Format_2006_01_02, pad4, pad2. cbn [year month day].
  cbv beta iota delta [String.append].
  apply (f_equal2 String); [apply digit_mod; Z.div_mod_to_equations; lia|].
  apply (f_equal2 String); [apply digit_mod; Z.div_mod_to_equations; lia|].
  apply (f_equal2 String); [apply digit_mod; Z.div_mod_to_equations; lia|].
  apply (f_equal2 String); [apply digit_mod; Z.div_mod_to_equations; lia|].
  apply (f_equal2 String); [reflexivity|].
  apply (f_equal2 String); [apply digit_mod; Z.div_mod_to_equations; lia|].
  apply (f_equal2 String); [apply digit_mod; Z.div_mod_to_equations; lia|].
  apply (f_equal2 String); [reflexivity|].
  apply (f_equal2 String); [apply digit_mod; Z.div_mod_to_equations; lia|].
  apply (f_equal2 String); [apply digit_mod; Z.div_mod_to_equations; lia|].
  reflexivity.
Qed.

(** ** The range and the buckets of the history *)

Lemma leb_Format d1 d2 :
  valid_date d1 = true -> valid_date d2 = true ->
  String.leb (Format_2006_01_02 d1) (Format_2006_01_02 d2) = not_after d1 d2.
Proof.
  intros H1 H2. unfold String.leb, not_after. now rewrite compare_Format.
Qed.

Lemma Format_not_empty d : String.eqb (Format_2006_01_02 d) "" = false.
Proof.
  unfold Format_2006_01_02, pad4. cbv beta iota delta [String.append]. reflexivity.
Qed.

Lemma in_range_calendar (f t : option Date) (r : Row) :
  (forall d, f = Some d -> valid_date d = true) ->
  (forall d, t = Some d -> valid_date d = true) ->
  is_Some (parse_date (upload_date r)) ->
  in_range (bound_text f) (bound_text t) r = dated_within f t r.
Proof.
  intros Hf Ht [d Hd]. unfold in_range, dated_within. rewrite Hd.
  apply Format_parse_date in Hd as [<- Hv]. f_equal.
  - destruct f as [f|]; [|reflexivity]. cbn [bound_text].
    rewrite Format_not_empty. cbn [orb]. apply leb_Format; auto.
  - destruct t as [t|]; [|reflexivity]. cbn [bound_text].
    rewrite Format_not_empty. cbn [orb]. apply leb_Format; auto.
Qed.

(** X10: the range of the history is a range of the calendar.  With
    bounds that are dates of the calendar (or absent) and a table whose
    upload dates [strftime] reads, the history [getHistory] gives between
    the bounds, at any granularity, is the unbounded history of the rows
    whose upload date is a date from the first bound to the second, both
    included; a bound that is absent does not restrict. *)
Theorem history_range_is_calendar_range (sum : list float64 -> float64)
    (fault : option error) (period : string) (f t : option Date) (tbl : list Row) :
  (forall d, f = Some d -> valid_date d = true) ->
  (forall d, t = Some d -> valid_date d = true) ->
  Forall (fun r => is_Some (parse_date (upload_date r))) tbl ->
  getHistory sum fault period (bound_text f) (bound_text t) tbl =
  getHistory sum fault period "" "" (filter (fun r => dated_within f t r = true) tbl).
Proof.
  intros Hf Ht Hdates. unfold getHistory. destruct fault; [reflexivity|].
  rewrite (filter_all (fun r => in_range "" "" r = true)) by reflexivity.
  rewrite (filter_ext_in (fun r => in_range (bound_text f) (bound_text t) r = true)
             (fun r => dated_within f t r = true)); [reflexivity|].
  intros r Hr. rewrite Forall_forall in Hdates.
  now rewrite in_range_calendar by auto.
Qed.

Lemma pad2_inj a b : 0 <= a <= 99 -> 0 <= b <= 99 -> pad2 a = pad2 b -> a = b.
Proof.
  intros Ha Hb E. unfold pad2 in E. injection E as E1 E2.
  apply digit_inj in E1, E2. revert E1 E2. Z.div_mod_to_equations. lia.
Qed.

Lemma pad4_app_inj a b s1 s2 :
  0 <= a <= 9999 -> 0 <= b <= 9999 -> pad4 a +:+ s1 = pad4 b +:+ s2 -> a = b /\ s1 = s2.
Proof.
  intros Ha Hb E. unfold pad4, pad2 in E. cbv beta iota delta [String.append] in E.
  injection E as E1 E2 E3 E4 E5. split; [|assumption].
  apply digit_inj in E1, E2, E3, E4. revert E1 E2 E3 E4. Z.div_mod_to_equations. lia.
Qed.

Lemma pad4_inj a b : 0 <= a <= 9999 -> 0 <= b <= 9999 -> pad4 a = pad4 b -> a = b.
Proof.
  intros Ha Hb E. apply (pad4_app_inj a b "" ""); [assumption..|].
  unfold pad4, pad2 in *. cbv beta iota delta [String.append]. exact E.
Qed.

(** X11: the buckets of the history do not merge periods.  Two rows
    whose upload dates [strftime] reads are in one bucket exactly when
    their dates are the same date for "day", have the same year and the
    same week number [%W] for "week", the same year and month for
    "month", and the same year for "year". *)
Theorem period_buckets_do_not_merge (r1 r2 : Row) (d1 d2 : Date) :
  parse_date (upload_date r1) = Some d1 ->
  parse_date (upload_date r2) = Some d2 ->
  (groupExpr "day" r1 = groupExpr "day" r2 <-> d1 = d2) /\
  (groupExpr "week" r1 = groupExpr "week" r2 <->
     year d1 = year d2 /\ week_W d1 = week_W d2) /\
  (groupExpr "month" r1 = groupExpr "month" r2 <->
     year d1 = year d2 /\ month d1 = month d2) /\
  (groupExpr "year" r1 = groupExpr "year" r2 <-> year d1 = year d2).
Proof.
  intros H1 H2.
  destruct (Format_parse_date _ _ H1) as [F1 V1], (Format_parse_date _ _ H2) as [F2 V2].
  pose proof (valid_date_range d1 V1) as R1. pose proof (valid_date_range d2 V2) as R2.
  pose proof (week_W_facts d1 V1) as [W1 _]. pose proof (week_W_facts d2 V2) as [W2 _].
  unfold groupExpr, strftime_Y_W, strftime_Y_m, strftime_Y.
  cbn [String.eqb Ascii.eqb Bool.eqb]. rewrite H1, H2. cbn [mbind option_bind].
  split; [|split; [|split]].
  - split; [|intros ->; congruence].
    intros E%(inj Some). rewrite E, H2 in H1. congruence.
  - split; [|intros [-> ->]; reflexivity].
    intros E%(inj Some). apply pad4_app_inj in E as [Ey E]; [|lia..].
    split; [assumption|]. apply pad2_inj; [lia..|].
    cbv beta iota delta [String.append] in E. congruence.
  - split; [|intros [-> ->]; reflexivity].
    intros E%(inj Some). apply pad4_app_inj in E as [Ey E]; [|lia..].
    split; [assumption|]. apply pad2_inj; [lia..|].
    cbv beta iota delta [String.append] in E. congruence.
  - split; [|intros ->; reflexivity].
    intros E%(inj Some). apply pad4_inj; [lia..|]. exact E.
Qed.

(** ** The counts of the history *)

Lemma groups_partition_filter {K} `{EqDecision K} (f : Row -> K) (ks : list K)
    (Q : Row -> Prop) `{forall r, Decision (Q r)} (rows : list Row) :
  NoDup ks -> (forall r, r ∈ rows -> f r ∈ ks) ->
  sum_Z (map (fun k => Z.of_nat (length (filter Q (filter (fun r => f r = k) rows)))) ks) =
  Z.of_nat (length (filter Q rows)).
Proof.
  intros Hnd Hin.
  rewrite <- (groups_partition f ks (filter Q rows) Hnd).
  - f_equal. apply map_ext_in. intros k _. do 2 f_equal.
    rewrite !list_filter_filter. apply filter_ext_in. intros r _. tauto.
  - intros r [_ Hr]%list_elem_of_filter. auto.
Qed.

(** When both sums of the group are numbers, the scan fills the row. *)
Lemma scan_history_filled sum p g :
  sums_are_numbers sum g ->
  hCount125 (scan_history sum (Some p) g) = sql_count_eq f64_125 g /\
  hCount75 (scan_history sum (Some p) g) = sql_count_eq f64_75 g /\
  hCount0 (scan_history sum (Some p) g) = sql_count_eq f64_zero g /\
  Total (scan_history sum (Some p) g) = Z.of_nat (length g).
Proof.
  intros [[rev Hrev] [gst Hgst]]. unfold scan_history.
  now rewrite Hrev, Hgst.
Qed.

(** The three slabs are disjoint: their counts stay within the number
    of rows. *)
Lemma slab_counts_le g :
  sql_count_eq f64_125 g + sql_count_eq f64_75 g + sql_count_eq f64_zero g <=
  Z.of_nat (length g).
Proof.
  unfold sql_count_eq. induction g as [|r g IH]; [reflexivity|].
  rewrite !filter_cons. pose proof (slab_cases_disjoint) as Hdis.
  assert (Hcases : forall a, (if f64_eqb a f64_125 then 1 else 0) +
                             (if f64_eqb a f64_75 then 1 else 0) +
                             (if f64_eqb a f64_zero then 1 else 0) <= 1).
  { intros a. destruct (Hdis a) as (H1 & H2 & H3).
    destruct (f64_eqb a f64_125); [destruct H1 as [-> ->]; [reflexivity|lia]|].
    destruct (f64_eqb a f64_75); [destruct H2 as [_ ->]; [reflexivity|lia]|].
    destruct (f64_eqb a f64_zero); lia. }
  unfold amount_is in *. destruct (total_amount_charged r) as [a|].
  - specialize (Hcases a).
    destruct (f64_eqb a f64_125), (f64_eqb a f64_75), (f64_eqb a f64_zero);
      repeat case_decide; try congruence; cbn [length]; lia.
  - repeat case_decide; try congruence; cbn [length]; lia.
Qed.

Lemma scan_history_slabs_le sum k g :
  hCount125 (scan_history sum k g) + hCount75 (scan_history sum k g) +
  hCount0 (scan_history sum k g) <= Total (scan_history sum k g).
Proof.
  unfold scan_history. destruct k as [p|]; [|reflexivity].
  destruct (sql_sum sum (map total_amount_charged g)); [|reflexivity].
  destruct (sql_sum sum (map gst_amount g)); [|reflexivity].
  cbn [hCount125 hCount75 hCount0 Total]. apply slab_counts_le.
Qed.

(** The sums of the counts of the history. *)
Lemma getHistory_counts sum period fromDate toDate tbl :
  let rows := filter (fun r => in_range fromDate toDate r = true) tbl in
  let H := getHistory sum None period fromDate toDate tbl in
  Forall (fun r => is_Some (parse_date (upload_date r))) tbl ->
  (forall r, r ∈ rows ->
     sums_are_numbers sum (group_of (groupExpr period) rows (groupExpr period r))) ->
  sum_Z (map Total H) = Z.of_nat (length rows) /\
  sum_Z (map hCount125 H) = sql_count_eq f64_125 rows /\
  sum_Z (map hCount75 H) = sql_count_eq f64_75 rows /\
  sum_Z (map hCount0 H) = sql_count_eq f64_zero rows.
Proof.
  intros rows H Hdates Hnum. subst H. unfold getHistory. fold rows.
  set (key := groupExpr period) in *.
  assert (Hfill : forall k, k ∈ group_keys key rows -> exists p,
            k = Some p /\ sums_are_numbers sum (group_of key rows k)).
  { intros k (r & Hr & <-)%group_keys_elem.
    destruct (groupExpr_is_Some period r) as [p Hp].
    - rewrite Forall_forall in Hdates. apply Hdates.
      now apply list_elem_of_filter in Hr as [_ Hr].
    - exists p. split; [exact Hp | now apply Hnum]. }
  assert (Hin : forall r, r ∈ rows -> key r ∈ group_keys key rows).
  { intros r Hr. apply group_keys_elem. eauto. }
  pose proof (group_keys_NoDup key rows) as Hnd.
  rewrite !map_map. repeat split.
  - rewrite <- (groups_partition key (group_keys key rows) rows Hnd Hin).
    f_equal. apply map_ext_in. intros k Hk%list_elem_of_In.
    destruct (Hfill k Hk) as (p & -> & Hs). now apply scan_history_filled.
  - unfold sql_count_eq.
    rewrite <- (groups_partition_filter key (group_keys key rows) _ rows Hnd Hin).
    f_equal. apply map_ext_in. intros k Hk%list_elem_of_In.
    destruct (Hfill k Hk) as (p & -> & Hs).
    now destruct (scan_history_filled sum p _ Hs) as (-> & _).
  - unfold sql_count_eq.
    rewrite <- (groups_partition_filter key (group_keys key rows) _ rows Hnd Hin).
    f_equal. apply map_ext_in. intros k Hk%list_elem_of_In.
    destruct (Hfill k Hk) as (p & -> & Hs).
    now destruct (scan_history_filled sum p _ Hs) as (_ & -> & _).
  - unfold sql_count_eq.
    rewrite <- (groups_partition_filter key (group_keys key rows) _ rows Hnd Hin).
    f_equal. apply map_ext_in. intros k Hk%list_elem_of_In.
    destruct (Hfill k Hk) as (p & -> & Hs).
    now destruct (scan_history_filled sum p _ Hs) as (_ & _ & -> & _).
Qed.

(** X12: the counts of the history add up.  At every granularity and
    for every range whose bounds hold no quote and no NUL byte (plain
    text between the quotes of the statement), when the upload dates of
    the table are dates and
    the two sums of every bucket are numbers, the totals of the rows
    [getHistory] returns add up to the number of rows in the range, and
    so does each slab count to the number of rows of that amount: every
    row in the range is counted in exactly one bucket.  In every
    returned row the three slab counts stay within the total. *)
Theorem history_counts_add_up (sum : list float64 -> float64)
    (period fromDate toDate : string) (tbl : list Row) :
  let rows := filter (fun r => in_range fromDate toDate r = true) tbl in
  let H := getHistory sum None period fromDate toDate tbl in
  sql_text fromDate = true -> sql_text toDate = true ->
  Forall (fun r => is_Some (parse_date (upload_date r))) tbl ->
  (forall r, r ∈ rows ->
     sums_are_numbers sum (group_of (groupExpr period) rows (groupExpr period r))) ->
  sum_Z (map Total H) = Z.of_nat (length rows) /\
  sum_Z (map hCount125 H) = sql_count_eq f64_125 rows /\
  sum_Z (map hCount75 H) = sql_count_eq f64_75 rows /\
  sum_Z (map hCount0 H) = sql_count_eq f64_zero rows /\
  Forall (fun h => hCount125 h + hCount75 h + hCount0 h <= Total h) H.
Proof.
  intros rows H _ _ Hdates Hnum.
  destruct (getHistory_counts sum period fromDate toDate tbl Hdates Hnum)
    as (Ht & H125 & H75 & H0).
  do 4 (split; [assumption|]).
  apply Forall_forall. intros h Hh. subst H. unfold getHistory in Hh.
  apply list_elem_of_fmap in Hh as (k & -> & _). apply scan_history_slabs_le.
Qed.

(** A table with no [NULL] amount: the aggregation loop and the [CASE]
    of the history count the same rows. *)
Lemma count_eq_scan c tbl :
  Forall (fun r => is_Some (total_amount_charged r)) tbl ->
  count_eq c (map fst (map scan_amounts tbl)) = sql_count_eq c tbl.
Proof.
  unfold count_eq, sql_count_eq. induction 1 as [|r tbl [a Ha] _ IH]; [reflexivity|].
  cbn [map]. rewrite !filter_cons.
  assert (E1 : fst (scan_amounts r) = a) by (unfold scan_amounts; now rewrite Ha).
  assert (E2 : amount_is c r = f64_eqb a c) by (unfold amount_is; now rewrite Ha).
  repeat case_decide; try (rewrite ?E1, ?E2 in *; congruence); cbn [length]; lia.
Qed.

(** X13: the dashboard and the history count the same rows.  On a table
    with no [NULL] amount whose upload dates are dates, when the sums of
    every bucket are numbers, the row count and the three slab counts of
    the all-time report of [getAnalyticsFiltered] are the sums, reduced
    to Go's [int], of the totals and of the slab counts of the unbounded
    history, at every granularity. *)
Theorem dashboard_counts_are_history_sums (sum : list float64 -> float64)
    (period : string) (tbl : list Row) :
  Forall (fun r => is_Some (parse_date (upload_date r))) tbl ->
  Forall (fun r => is_Some (total_amount_charged r)) tbl ->
  (forall r, r ∈ tbl ->
     sums_are_numbers sum (group_of (groupExpr period) tbl (groupExpr period r))) ->
  let H := getHistory sum None period "" "" tbl in
  let '(_, _, slabs, total) := getAnalyticsFiltered None where_none tbl in
  total = int_wrap (sum_Z (map Total H)) /\
  Count125 slabs = int_wrap (sum_Z (map hCount125 H)) /\
  Count75 slabs = int_wrap (sum_Z (map hCount75 H)) /\
  Count0 slabs = int_wrap (sum_Z (map hCount0 H)).
Proof.
  intros Hdates Hamt Hnum H.
  assert (Hall : filter (fun r => in_range "" "" r = true) tbl = tbl)
    by now apply filter_all.
  destruct (getHistory_counts sum period "" "" tbl Hdates) as (Ht & H125 & H75 & H0).
  { rewrite Hall. exact Hnum. }
  rewrite Hall in Ht, H125, H75, H0.
  fold H in Ht, H125, H75, H0. rewrite Ht, H125, H75, H0.
  unfold getAnalyticsFiltered.
  rewrite (filter_all (fun r => sql_where where_none r = true)) by reflexivity.
  rewrite analytics_loop_closed, !count_eq_scan by assumption.
  rewrite !length_map. auto.
Qed.

(** ** The header row *)

Lemma last_column_nil k j : ~ last_column [] k j.
Proof. intros [H _]. discriminate. Qed.

Lemma last_column_S h hs k j : last_column (h :: hs) k (S j) <-> last_column hs k j.
Proof.
  unfold last_column. change ((h :: hs) !! S j) with (hs !! j).
  split; intros [H1 H2]; (split; [exact H1|]).
  - intros j' Hj'. apply (H2 (S j')). lia.
  - intros [|j'] Hj'; [lia|]. change ((h :: hs) !! S j') with (hs !! j'). apply H2. lia.
Qed.

Lemma last_column_0 h hs k :
  last_column (h :: hs) k 0 <-> TrimSpace h = k /\ k ∉ map TrimSpace hs.
Proof.
  unfold last_column. change ((h :: hs) !! 0%nat) with (Some h).
  change (TrimSpace <$> Some h) with (Some (TrimSpace h)). split.
  - intros [[= H1] H2]. split; [assumption|].
    intros (h' & E & Hh')%list_elem_of_fmap. apply list_elem_of_lookup in Hh' as [j Hj].
    apply (H2 (S j)); [lia|]. change ((h :: hs) !! S j) with (hs !! j).
    rewrite Hj. simpl. congruence.
  - intros [-> H2]. split; [reflexivity|].
    intros [|j'] Hj'; [lia|]. change ((h :: hs) !! S j') with (hs !! j').
    destruct (hs !! j') as [h'|] eqn:E; [|discriminate]. simpl. intros [= E'].
    apply H2. rewrite <- E'. apply list_elem_of_fmap_2.
    apply list_elem_of_lookup. eauto.
Qed.

(** The map after the loop over the headers from position [i]. *)
Lemma header_map_last i headers hm k j :
  header_map i headers hm !! k = Some j <->
  (exists j', j = (i + j')%nat /\ last_column headers k j') \/
  ((k ∉ map TrimSpace headers) /\ hm !! k = Some j).
Proof.
  revert i hm. induction headers as [|h hs IH]; intros i hm; cbn [header_map].
  - split.
    + intros H. right. split; [apply not_elem_of_nil | assumption].
    + intros [(j' & _ & H)|[_ H]]; [now apply last_column_nil in H | assumption].
  - rewrite IH. cbn [map]. rewrite not_elem_of_cons. split.
    + intros [(j' & -> & H)|[Hno H]].
      * left. exists (S j'). split; [lia | now apply last_column_S].
      * destruct (decide (TrimSpace h = k)) as [E|E].
        -- rewrite E, lookup_insert_eq in H. injection H as <-.
           left. exists 0%nat. split; [lia | now apply last_column_0].
        -- rewrite lookup_insert_ne in H by assumption. right. auto.
    + intros [(j' & -> & H)|[[Hne Hno] H]].
      * destruct j' as [|j'].
        -- apply last_column_0 in H as [E Hno]. right. split; [assumption|].
           rewrite E, lookup_insert_eq. f_equal. lia.
        -- apply last_column_S in H. left. exists j'. split; [lia | assumption].
      * right. split; [assumption|]. rewrite lookup_insert_ne; [assumption | congruence].
Qed.

Lemma header_map_0_last headers k j :
  header_map 0 headers ∅ !! k = Some j <-> last_column headers k j.
Proof.
  rewrite header_map_last. split.
  - intros [(j' & -> & H)|[_ H]]; [exact H | now rewrite lookup_empty in H].
  - intros H. left. exists j. auto.
Qed.

(** X14: of two columns with one name, the later is read.  The index
    [processCSV] keeps for a name is the last position of the header row
    whose trimmed text is that name, and the field of a record under
    that name is read at this position; a name is in the map exactly
    when some header trims to it. *)
Theorem last_header_of_a_name_is_read (headers : list string) (k : string) :
  (forall j, header_map 0 headers ∅ !! k = Some j <-> last_column headers k j) /\
  (forall rec j, last_column headers k j ->
     field (header_map 0 headers ∅) rec k = rec !! j) /\
  (k ∈ map TrimSpace headers <-> exists j, last_column headers k j).
Proof.
  split; [apply header_map_0_last|]. split.
  - intros rec j Hj. apply header_map_0_last in Hj. unfold field. now rewrite Hj.
  - rewrite <- header_map_keys. unfold is_Some.
    split; intros [j Hj]; exists j; now apply header_map_0_last.
Qed.

(** The field under a name that occurs once is the value that is
    paired with a header of that name. *)
Lemma field_zip headers rec k v :
  NoDup (map TrimSpace headers) -> k ∈ map TrimSpace headers ->
  (field (header_map 0 headers ∅) rec k = Some v <->
   exists h, (h, v) ∈ zip headers rec /\ TrimSpace h = k).
Proof.
  intros Hnd Hk. apply header_map_keys in Hk as [j Hj]. unfold field. rewrite Hj.
  cbn [default]. apply header_map_0_last in Hj as [Hj _].
  apply fmap_Some in Hj as (h & Hh & ->). split.
  - intros Hv. exists h. split; [|reflexivity].
    apply list_elem_of_lookup. exists j. now apply lookup_zip_Some.
  - intros (h' & Hin & E). apply list_elem_of_lookup in Hin as [i Hi].
    apply lookup_zip_Some in Hi as [Hi Hv].
    assert (i = j) as ->; [|assumption].
    apply (NoDup_lookup (map TrimSpace headers) i j (TrimSpace h) Hnd).
    + change (map TrimSpace headers) with (TrimSpace <$> headers).
      now rewrite list_lookup_fmap, Hi, <- E.
    + change (map TrimSpace headers) with (TrimSpace <$> headers).
      now rewrite list_lookup_fmap, Hh.
Qed.

Lemma decode_perm ParseFloat headers headers' rec rec' today :
  (forall req, req ∈ required -> req ∈ map TrimSpace headers) ->
  NoDup (map TrimSpace headers) -> headers' ≡ₚ headers ->
  zip headers' rec' ≡ₚ zip headers rec ->
  decode ParseFloat (header_map 0 headers' ∅) today rec' =
  decode ParseFloat (header_map 0 headers ∅) today rec.
Proof.
  intros Hreq Hnd Hp Hz.
  assert (Hnames : map TrimSpace headers' ≡ₚ map TrimSpace headers).
  { change (TrimSpace <$> headers' ≡ₚ TrimSpace <$> headers). now rewrite Hp. }
  assert (Hf : forall k, k ∈ required ->
            field (header_map 0 headers' ∅) rec' k = field (header_map 0 headers ∅) rec k).
  { intros k Hk. apply option_eq. intros v.
    rewrite field_zip; [|now rewrite Hnames|rewrite Hnames; auto].
    rewrite field_zip; [|assumption|auto].
    split; intros (h & Hin & E); exists h; (split; [|assumption]).
    - now rewrite <- Hz.
    - now rewrite Hz. }
  unfold decode.
  rewrite (Hf "TOTAL_AMOUNT_CHARGED"), (Hf "GST_AMOUNT"), (Hf "ENROLMENT_NO_DATE"),
    (Hf "OPERATOR_ID"), (Hf "RESIDENT_NAME")
    by (unfold required;
        repeat first [apply list_elem_of_here | apply list_elem_of_further]).
  reflexivity.
Qed.

(** X15: the order of the columns is free.  When the header row holds
    the five names, no name twice, moving the columns of the file, the
    header and the fields of every record alike, changes nothing of what
    [processCSV] returns and writes. *)
Theorem column_order_is_free (ParseFloat : string -> float64 * option error)
    (headers headers' : list string) (recs recs' : list (list string))
    (today : string) (faults : nat -> option error) (tbl : list Row) :
  (forall req, req ∈ required -> req ∈ map TrimSpace headers) ->
  NoDup (map TrimSpace headers) ->
  headers' ≡ₚ headers ->
  Forall2 (fun rec rec' => length rec = length headers /\
                           length rec' = length headers' /\
                           zip headers' rec' ≡ₚ zip headers rec) recs recs' ->
  processCSV ParseFloat (Fields headers' :: map Fields recs') today faults tbl =
  processCSV ParseFloat (Fields headers :: map Fields recs) today faults tbl.
Proof.
  intros Hreq Hnd Hp Hrecs.
  assert (Hreq' : forall req, req ∈ required -> req ∈ map TrimSpace headers').
  { intros req Hr. change (req ∈ TrimSpace <$> headers'). rewrite Hp. now apply Hreq. }
  assert (Hlen : Forall (fun rec => length rec = length headers) recs).
  { clear -Hrecs. induction Hrecs as [|? ? ? ? (? & _) _ IH]; constructor; auto. }
  assert (Hlen' : Forall (fun rec => length rec = length headers') recs').
  { clear -Hrecs. induction Hrecs as [|? ? ? ? (_ & ? & _) _ IH]; constructor; auto. }
  destruct (processCSV_records ParseFloat headers recs [] today faults tbl Hreq Hlen)
    as (txs & Hdec & _).
  rewrite (processCSV_Ok _ _ _ _ _ _ txs Hreq Hlen Hdec).
  apply processCSV_Ok; [assumption..|].
  clear -Hrecs Hdec Hreq Hnd Hp. revert txs Hdec.
  induction Hrecs as [|rec rec' recs recs' (_ & _ & Hz) _ IH]; intros txs Hdec.
  - apply Forall2_nil_inv_l in Hdec as ->. constructor.
  - apply Forall2_cons_inv_l in Hdec as (t & txs' & Ht & Hdec & ->).
    constructor; [|now apply IH].
    now rewrite (decode_perm ParseFloat headers headers' rec rec' today).
Qed.

(** ** The upload handler *)

Lemma sendTelegramReport_Some has_bot config result s :
  sendTelegramReport has_bot config result = Some s ->
  s = UploadReport (AdminChatID config) result /\ AdminChatID config <> 0 /\
  has_bot = true.
Proof.
  unfold sendTelegramReport. destruct has_bot; cbn [negb orb]; [|discriminate].
  destruct (Z.eqb_spec (AdminChatID config) 0); [discriminate|].
  intros [= <-]. auto.
Qed.

(** X16: every upload request is answered, and the table changes only
    through [processCSV].  [handleUpload] never panics: it answers with
    the redirect to "/" and starts the report, or with an error of
    status 400, 405 or 500 and no report.  The table is left as it was
    or as [processCSV] left it on the file of the form; the report holds
    the name of the file and the summary [processCSV] returned, and
    [sendTelegramReport] sends it to the admin chat alone, when there is
    a bot and an admin chat; and when [processCSV] fails, the answer is
    the 500 with the text of its error while the rows written before the
    failure stay in the table. *)
Theorem upload_request_is_answered (ParseFloat : string -> float64 * option error)
    (Error : error -> string) (method : string)
    (form : option (string * list line)) (disk opened : option error)
    (today : string) (faults : nat -> option error) (tbl : list Row) :
  let out := handleUpload ParseFloat Error method form disk opened today faults tbl in
  let resp := fst (fst out) in
  let tbl' := snd (fst out) in
  let report := snd out in
  (forall has_bot config result s,
     report = Some result -> sendTelegramReport has_bot config result = Some s ->
     s = UploadReport (AdminChatID config) result /\ AdminChatID config <> 0 /\
     has_bot = true) /\
  ((resp = Some (Redirect "/" 303) /\ is_Some report) \/
   (exists msg code, resp = Some (HttpError msg code) /\
      (code = 400 \/ code = 405 \/ code = 500) /\ report = None)) /\
  (tbl' = tbl \/
   exists name doc, method = "POST" /\ form = Some (name, doc) /\ disk = None /\
     opened = None /\ tbl' = snd (processCSV ParseFloat doc today faults tbl)) /\
  (forall result, report = Some result ->
     exists name doc r,
       form = Some (name, doc) /\
       processCSV ParseFloat doc today faults tbl = (Ok r, tbl') /\
       Filename result = name /\ Rows result = Rows r /\ Revenue result = Revenue r /\
       GST result = GST r /\ Slabs result = Slabs r) /\
  (forall name doc e,
     method = "POST" -> form = Some (name, doc) -> disk = None -> opened = None ->
     fst (processCSV ParseFloat doc today faults tbl) = Err e ->
     resp = Some (HttpError ("CSV error: " +:+ Error e) 500) /\
     tbl' = snd (processCSV ParseFloat doc today faults tbl)).
Proof.
  cbv zeta. split; [intros ? ? ? ? _; apply sendTelegramReport_Some|].
  unfold handleUpload.
  assert (Herr : forall msg code (report : option UploadResult),
            code = 400 \/ code = 405 \/ code = 500 -> report = None ->
            (Some (HttpError msg code) = Some (Redirect "/" 303) /\ is_Some report) \/
            (exists msg' code', Some (HttpError msg code) = Some (HttpError msg' code') /\
               (code' = 400 \/ code' = 405 \/ code' = 500) /\ report = None)).
  { intros msg code report Hc Hr. right. exists msg, code. auto. }
  destruct (String.eqb_spec method "POST") as [->|Hm]; cbn [negb].
  2:{ cbn [fst snd]. split; [apply Herr; auto|]. split; [now left|].
      split; [discriminate | congruence]. }
  destruct form as [[name doc]|].
  2:{ cbn [fst snd]. split; [apply Herr; auto|]. split; [now left|].
      split; discriminate. }
  destruct disk as [e|].
  { cbn [fst snd]. split; [apply Herr; auto|]. split; [now left|].
    split; discriminate. }
  destruct opened as [e|].
  { cbn [fst snd]. split; [apply Herr; auto|]. split; [now left|].
    split; discriminate. }
  pose proof (processCSV_no_panic ParseFloat doc today faults tbl) as Hnp.
  destruct (processCSV ParseFloat doc today faults tbl) as [[r|e|] tbl''] eqn:E;
    cbn [fst snd] in *; [| |congruence].
  - split; [left; split; [reflexivity | eexists; reflexivity]|].
    split; [right; exists name, doc; rewrite E; repeat split|]. split.
    + intros result [= <-]. exists name, doc, r. rewrite E. repeat split.
    + intros name' doc' e' _ [= <- <-] _ _. rewrite E. discriminate.
  - split; [apply Herr; auto|].
    split; [right; exists name, doc; rewrite E; repeat split|]. split.
    + discriminate.
    + intros name' doc' e' _ [= <- <-] _ _. rewrite E. cbn [fst snd].
      intros [= <-]. auto.
Qed.

(** X17: a file without records.  An empty file makes [processCSV]
    fail with [io.EOF] and a first line the reader cannot lex with the
    reader's error, the table untouched; a file that holds the header
    row alone, with the five columns, gives the summary of no rows and
    leaves the table as it was. *)
Theorem file_without_records (ParseFloat : string -> float64 * option error)
    (today : string) (faults : nat -> option error) (tbl : list Row) :
  processCSV ParseFloat [] today faults tbl = (Err io_EOF, tbl) /\
  (forall msg rest,
     processCSV ParseFloat (Broken msg :: rest) today faults tbl =
       (Err (csv_ReadError msg), tbl)) /\
  (forall headers,
     (forall req, req ∈ required -> req ∈ map TrimSpace headers) ->
     processCSV ParseFloat [Fields headers] today faults tbl = (Ok UploadResult_zero, tbl)).
Proof.
  split; [reflexivity|]. split; [reflexivity|].
  intros headers Hreq.
  rewrite processCSV_header. now destruct (header_complete headers Hreq) as [-> _].
Qed.

(** ** The bot *)

(** X18: the bot serves the admin chat.  Whatever a message holds, what
    the loop of [handleTelegramUpdates] sends for it goes to the chat it
    came from; when an admin chat is configured, a message of any other
    chat gets no report, no backup and no file handler.  With no admin
    chat configured (the value 0, the default), the chat of any message
    that asks for the backup is sent the database file.  The report of
    /today is [getAnalyticsFiltered] on the rows of the date of the
    clock, whose count it shows. *)
Theorem bot_serves_the_admin_chat (config : Config) (today : string)
    (fault : option error) (tbl : list Row) (m : Message) (e : Effect) :
  handleTelegramUpdate config today fault tbl (Some m) = Some e ->
  (forall s, e = Send s -> recipient s = Chat_ID m) /\
  (serves e = true -> AdminChatID config = 0 \/ Chat_ID m = AdminChatID config) /\
  (AdminChatID config = 0 -> Document m = None -> Command m = Some "backup" ->
     e = Send (Backup (Chat_ID m) (DBPath config))) /\
  (forall chat d rev gst total slabs,
     e = Send (TodayReport chat d rev gst total slabs) ->
     d = today /\
     getAnalyticsFiltered fault (where_upload_date_eq today) tbl = (rev, gst, slabs, total) /\
     (fault = None ->
      total = int_wrap (Z.of_nat (length (filter (fun r => upload_date r = today) tbl))))).
Proof.
  unfold handleTelegramUpdate.
  destruct (Z.eqb_spec (AdminChatID config) 0) as [Ha|Ha]; cbn [negb andb].
  2:{ destruct (Z.eqb_spec (Chat_ID m) (AdminChatID config)) as [Hc|Hc]; cbn [negb].
      2:{ intros [= <-]. split; [now intros s [= <-]|]. split; [discriminate|].
          split; [contradiction | discriminate]. }
      destruct (Document m) as [doc|].
      { intros [= <-]. split; [discriminate|]. split; [auto|].
        split; [contradiction | discriminate]. }
      destruct (Command m) as [c|]; [|discriminate].
      destruct (String.eqb c "start").
      { intros [= <-]. split; [now intros s [= <-]|]. split; [auto|].
        split; [contradiction | discriminate]. }
      destruct (String.eqb c "status").
      { destruct (getAnalytics fault tbl) as [[rev gst] slabs].
        intros [= <-]. split; [now intros s [= <-]|]. split; [auto|].
        split; [contradiction | discriminate]. }
      destruct (String.eqb c "today").
      { destruct (getAnalyticsFiltered fault (where_upload_date_eq today) tbl)
          as [[[rev gst] slabs] total] eqn:E.
        intros [= <-]. split; [now intros s [= <-]|]. split; [auto|].
        split; [contradiction|].
        intros chat d rev' gst' total' slabs' [= <- <- <- <- <- <-].
        split; [reflexivity|]. split; [reflexivity|].
        intros ->. unfold getAnalyticsFiltered in E.
        rewrite analytics_loop_closed in E. injection E as _ _ _ <-.
        rewrite length_map. do 3 f_equal. apply filter_ext_in.
        intros r _. cbn [sql_where]. now rewrite bool_decide_eq_true. }
      destruct (String.eqb c "backup").
      { intros [= <-]. split; [now intros s [= <-]|]. split; [auto|].
        split; [contradiction | discriminate]. }
      intros [= <-]. split; [now intros s [= <-]|]. split; [auto|].
      split; [contradiction | discriminate]. }
  destruct (Document m) as [doc|].
  { intros [= <-]. split; [discriminate|]. split; [auto|].
    split; [discriminate | discriminate]. }
  destruct (Command m) as [c|]; [|discriminate].
  destruct (String.eqb_spec c "start") as [->|Hstart].
  { intros [= <-]. split; [now intros s [= <-]|]. split; [auto|].
    split; [discriminate | discriminate]. }
  destruct (String.eqb_spec c "status") as [->|Hstatus].
  { destruct (getAnalytics fault tbl) as [[rev gst] slabs].
    intros [= <-]. split; [now intros s [= <-]|]. split; [auto|].
    split; [discriminate | discriminate]. }
  destruct (String.eqb_spec c "today") as [->|Htoday].
  { destruct (getAnalyticsFiltered fault (where_upload_date_eq today) tbl)
      as [[[rev gst] slabs] total] eqn:E.
    intros [= <-]. split; [now intros s [= <-]|]. split; [auto|].
    split; [discriminate|].
    intros chat d rev' gst' total' slabs' [= <- <- <- <- <- <-].
    split; [reflexivity|]. split; [reflexivity|].
    intros ->. unfold getAnalyticsFiltered in E.
    rewrite analytics_loop_closed in E. injection E as _ _ _ <-.
    rewrite length_map. do 3 f_equal. apply filter_ext_in.
    intros r _. cbn [sql_where]. now rewrite bool_decide_eq_true. }
  destruct (String.eqb_spec c "backup") as [->|Hbackup].
  { intros [= <-]. split; [now intros s [= <-]|]. split; [auto|].
    split; [reflexivity | discriminate]. }
  intros [= <-]. split; [now intros s [= <-]|]. split; [auto|].
  split; [congruence | discriminate].
Qed.

(** ** The history handlers *)

Lemma getHistory_default sum fault period fromDate toDate tbl :
  period <> "week" -> period <> "month" -> period <> "year" ->
  getHistory sum fault period fromDate toDate tbl =
  getHistory sum fault "day" fromDate toDate tbl.
Proof.
  intros Hw Hm Hy. unfold getHistory, groupExpr.
  destruct (String.eqb_spec period "week"); [contradiction|].
  destruct (String.eqb_spec period "month"); [contradiction|].
  destruct (String.eqb_spec period "year"); [contradiction|].
  reflexivity.
Qed.

(** X19: the history is by day unless a known period is asked for.  A
    request of the history whose period is absent, or any text other
    than "week", "month" and "year", is answered with the history by day
    of the same range, by the API and by the page alike; the page shows
    with it the two dates of [getDateRange]. *)
Theorem history_defaults_to_days (sum : list float64 -> float64)
    (hfault dfault : option error) (period fromDate toDate : string)
    (tbl : list Row) :
  period <> "week" -> period <> "month" -> period <> "year" ->
  handleHistoryAPI sum hfault period fromDate toDate tbl =
    getHistory sum hfault "day" fromDate toDate tbl /\
  page_Rows (handleHistory sum hfault dfault period fromDate toDate tbl) =
    getHistory sum hfault "day" fromDate toDate tbl /\
  (page_MinDate (handleHistory sum hfault dfault period fromDate toDate tbl),
   page_MaxDate (handleHistory sum hfault dfault period fromDate toDate tbl)) =
    getDateRange dfault tbl.
Proof.
  intros Hw Hm Hy.
  assert (E : getHistory sum hfault (query_period period) fromDate toDate tbl =
              getHistory sum hfault "day" fromDate toDate tbl).
  { unfold query_period. destruct (String.eqb period ""); [reflexivity|].
    now apply getHistory_default. }
  unfold handleHistoryAPI, handleHistory.
  destruct (getDateRange dfault tbl) as [mn mx]. cbn [page_Rows page_MinDate page_MaxDate].
  auto.
Qed.

(** ** The stores the program builds, again *)

(** X20: what every store of the program satisfies.  A table built
    from a fresh database by uploads on dates of the clock and by resets,
    whatever the files and the faults, has no two rows with one key, and
    the upload date of each of its rows is the text of a date of the
    calendar: no bucket of the history has a [NULL] key and the reset
    always finds a date to delete. *)
Theorem program_stores_are_well_formed (tbl : list Row) :
  ingested tbl ->
  NoDup (keys tbl) /\
  Forall (fun r => exists d, valid_date d = true /\
                             upload_date r = Format_2006_01_02 d) tbl /\
  (forall period r, r ∈ tbl -> is_Some (groupExpr period r)) /\
  (tbl <> [] -> snd (handleReset "POST" None None tbl) <> tbl).
Proof.
  intros H. pose proof (ingested_dates tbl H) as [Hne Hp].
  split; [apply reachable_NoDup, ingested_reachable, H|]. split; [|split].
  - eapply Forall_impl; [exact Hp|]. intros r [d Hd].
    apply Format_parse_date in Hd as [<- Hv]. eauto.
  - intros period r Hr. apply groupExpr_is_Some. rewrite Forall_forall in Hp. auto.
  - intros Hnil. destruct (handleReset_post tbl Hne Hnil) as (dmax & _ & Hin & _ & ->).
    cbn [snd]. apply list_elem_of_fmap in Hin as (r & Er & Hr). intros E.
    assert (Hr' : r ∈ filter (fun r => upload_date r <> dmax) tbl) by now rewrite E.
    apply list_elem_of_filter in Hr' as [Hd _]. congruence.
Qed.

(** ** An amount that is not a number *)

(** X21: a NaN amount is an amount of zero in the reports.  A row
    whose amount [ParseFloat] reads as a NaN raises no slab count of the
    upload summary and turns its revenue into a NaN; the row is stored
    with a [NULL] amount, and the loop of [getAnalyticsFiltered] scans it
    as amount 0 and GST 0, whatever its GST was: it counts it among
    the rows of amount 0. *)
Theorem nan_amount_is_zero_in_reports (t : Transaction) :
  TotalAmountCharged t = S754_nan ->
  (forall result,
     let result' := summary_step (TotalAmountCharged t) (GSTAmount t) result in
     Slabs result' = Slabs result /\ Revenue result' = S754_nan /\
     Rows result' = int_incr (Rows result)) /\
  total_amount_charged (sql_bind t) = None /\
  scan_amounts (sql_bind t) = (f64_zero, f64_zero) /\
  (forall rev gst s total,
     analytics_step (rev, gst, s, total) (scan_amounts (sql_bind t)) =
     (f64_add rev f64_zero, f64_add gst f64_zero,
      {| Count125 := Count125 s; Count75 := Count75 s; Count0 := int_incr (Count0 s) |},
      int_incr total)).
Proof.
  intros Hnan.
  assert (Hscan : scan_amounts (sql_bind t) = (f64_zero, f64_zero)).
  { unfold scan_amounts, sql_bind. cbn [total_amount_charged]. now rewrite Hnan. }
  split; [|split; [|split]].
  - intros result. cbv zeta. rewrite Hnan. unfold summary_step.
    cbn [Slabs Revenue Rows]. split; [reflexivity|]. split; [|reflexivity].
    unfold f64_add. now destruct (Revenue result).
  - unfold sql_bind. cbn [total_amount_charged]. now rewrite Hnan.
  - exact Hscan.
  - intros rev gst s total. rewrite Hscan. unfold analytics_step.
    now rewrite slab_switch_0.
Qed.


(** * The theorems at concrete inputs *)

Ltac by_decide := apply (bool_decide_unpack _); vm_compute; exact I.

(** The scenario of C1 with the decimal [ParseFloat]; and the same file
    on a store that rejects every write: the summary counts the three
    rows all the same. *)
Lemma ingest_folds_every_decoded_row_witness :
  (processCSV ParseFloat_decimal scenario_doc "2024-01-10" (fun _ => None) [] =
     (Ok scenario_summary, scenario_store "2024-01-10") /\
   keys (scenario_store "2024-01-10") = ["A"; "B"]) /\
  exists txs,
    Forall2 (fun rec t =>
               decode ParseFloat_decimal (header_map 0 scenario_headers ∅)
                 "2024-01-10" rec = Some t) scenario_records txs /\
    processCSV ParseFloat_decimal (Fields scenario_headers :: map Fields scenario_records)
      "2024-01-10" locked [] =
      (Ok (summarize (map amounts txs)), save_all locked txs []) /\
    Rows (summarize (map amounts txs)) = int_wrap (Z.of_nat (length scenario_records)).
Proof.
  split.
  - apply (proj2 ingest_folds_every_decoded_row ParseFloat_decimal "2024-01-10");
      vm_compute; reflexivity.
  - apply (proj1 ingest_folds_every_decoded_row ParseFloat_decimal scenario_headers
             scenario_records "2024-01-10" locked []).
    + apply Forall_forall. by_decide.
    + by_decide.
Defined.


(** C2 on the store that holds A, and three further writes. *)
Lemma enrolment_key_is_unique_witness :
  reachable store_A /\
  NoDup (keys (fold_left (fun tb op => fst (saveTransaction (fst op) (snd op) tb))
                 writes_ABB store_A)) /\
  (forall fault t, EnrolmentNoDate t ∈ keys store_A ->
     saveTransaction fault t store_A = (store_A, fault)) /\
  (forall t, EnrolmentNoDate t ∈ keys store_A ->
     saveTransaction None t store_A = (store_A, None)).
Proof.
  assert (H : reachable store_A) by (apply reach_save, reach_init).
  split; [exact H|]. exact (enrolment_key_is_unique store_A writes_ABB H).
Defined.

(** C3: the header row has [gst_amount] in lower case. *)
Lemma missing_column_fails_without_writes_witness :
  exists m,
    head (filter (fun r => r ∉ map TrimSpace headers_lower) required) = Some m /\
    m ∈ required /\ (m ∉ map TrimSpace headers_lower) /\
    ((forall r, r ∈ required -> r ∉ map TrimSpace headers_lower -> r = "GST_AMOUNT") ->
     m = "GST_AMOUNT") /\
    processCSV ParseFloat_decimal
      (Fields headers_lower :: map Fields scenario_records) "2024-01-10"
      (fun _ => None) store_A =
      (Err (errorString ("missing column: " +:+ m)), store_A).
Proof.
  apply (missing_column_fails_without_writes ParseFloat_decimal headers_lower
           (map Fields scenario_records) "2024-01-10" (fun _ => None) store_A "GST_AMOUNT").
  - by_decide.
  - by_decide.
Defined.

(** C8: two records that decode, then a record of two fields. *)
Lemma decode_error_keeps_written_rows_witness :
  exists txs,
    Forall2 (fun rec t =>
               decode ParseFloat_decimal (header_map 0 scenario_headers ∅)
                 "2024-01-10" rec = Some t) (take 2 scenario_records) txs /\
    processCSV ParseFloat_decimal
      (Fields scenario_headers :: map Fields (take 2 scenario_records) ++
         Fields ["C"; "1"] :: [Fields ["D"; "75"; "5"; "OP2"; "Dan"]])
      "2024-01-10" (fun _ => None) [] =
      (Err csv_ErrFieldCount, save_all (fun _ => None) txs []) /\
    (forall r, r ∈ [] -> r ∈ save_all (fun _ => None) txs []) /\
    (forall i t, txs !! i = Some t -> (fun _ : nat => @None error) i = None ->
       EnrolmentNoDate t ∈ keys (save_all (fun _ => None) txs [])).
Proof.
  apply (decode_error_keeps_written_rows ParseFloat_decimal scenario_headers
           (take 2 scenario_records) (Fields ["C"; "1"])
           [Fields ["D"; "75"; "5"; "OP2"; "Dan"]] "2024-01-10" (fun _ => None) []
           csv_ErrFieldCount).
  - apply Forall_forall. by_decide.
  - by_decide.
  - reflexivity.
Defined.

(** C10: the scenario on a store that rejects every write. *)
Lemma ingest_outcome_ignores_write_errors_witness :
  fst (processCSV ParseFloat_decimal scenario_doc "2024-01-10" locked []) =
  fst (processCSV ParseFloat_decimal scenario_doc "2024-01-10" (fun _ => None) store_A) /\
  exists txs,
    Forall2 (fun rec t =>
               decode ParseFloat_decimal (header_map 0 scenario_headers ∅)
                 "2024-01-10" rec = Some t) scenario_records txs /\
    fst (processCSV ParseFloat_decimal scenario_doc "2024-01-10" locked []) =
      Ok (summarize (map amounts txs)) /\
    Rows (summarize (map amounts txs)) = int_wrap (Z.of_nat (length scenario_records)).
Proof.
  destruct (ingest_outcome_ignores_write_errors ParseFloat_decimal scenario_doc
              "2024-01-10" locked (fun _ => None) [] store_A) as (H1 & _ & _ & H4).
  split; [exact H1|].
  apply (H4 scenario_headers scenario_records eq_refl).
  - apply Forall_forall. by_decide.
  - by_decide.
Defined.

(** C6: a record with "abc" for the amount and "n/a" for the GST, and
    a record with "1e400" for the amount. *)
Lemma parse_error_keeps_returned_value_witness :
  ParseFloat_decimal "abc" = (f64_zero, Some strconv_ErrSyntax) /\
  decode ParseFloat_decimal (header_map 0 scenario_headers ∅) "2024-01-10"
    ["C"; "abc"; "n/a"; "OP3"; "Carol"] = Some (tx_C "2024-01-10") /\
  TotalAmountCharged (tx_C "2024-01-10") = f64_zero /\
  GSTAmount (tx_C "2024-01-10") = f64_zero /\
  (exists r, r ∈ fst (saveTransaction None (tx_C "2024-01-10") store_A) /\
             enrolment_no_date r = "C" /\ total_amount_charged r = Some f64_zero) /\
  Count0 (Slabs (summary_step f64_zero f64_zero UploadResult_zero)) =
    int_incr (Count0 (Slabs UploadResult_zero)) /\
  ParseFloat_decimal "1e400" = (S754_infinity false, Some strconv_ErrRange) /\
  decode ParseFloat_decimal (header_map 0 scenario_headers ∅) "2024-01-10" record_D =
    Some (tx_D "2024-01-10") /\
  exists sg,
    TotalAmountCharged (tx_D "2024-01-10") = S754_infinity sg /\
    (exists r, r ∈ fst (saveTransaction None (tx_D "2024-01-10") store_A) /\
               enrolment_no_date r = "D" /\
               total_amount_charged r = Some (S754_infinity sg)) /\
    Slabs (summary_step (TotalAmountCharged (tx_D "2024-01-10"))
             (GSTAmount (tx_D "2024-01-10")) UploadResult_zero) =
      Slabs UploadResult_zero.
Proof.
  assert (Hdec : decode ParseFloat_decimal (header_map 0 scenario_headers ∅)
                   "2024-01-10" ["C"; "abc"; "n/a"; "OP3"; "Carol"] =
                 Some (tx_C "2024-01-10")) by (vm_compute; reflexivity).
  assert (HdecD : decode ParseFloat_decimal (header_map 0 scenario_headers ∅)
                    "2024-01-10" record_D = Some (tx_D "2024-01-10"))
    by (vm_compute; reflexivity).
  destruct (parse_error_keeps_returned_value ParseFloat_decimal
              (header_map 0 scenario_headers ∅) "2024-01-10"
              ["C"; "abc"; "n/a"; "OP3"; "Carol"] (tx_C "2024-01-10") "abc" "n/a"
              ParseFloat_decimal_syntax ParseFloat_decimal_range Hdec)
    as (_ & _ & Hamt & Hgst & _); [vm_compute; reflexivity | vm_compute; reflexivity |].
  destruct (parse_error_keeps_returned_value ParseFloat_decimal
              (header_map 0 scenario_headers ∅) "2024-01-10"
              record_D (tx_D "2024-01-10") "1e400" "5"
              ParseFloat_decimal_syntax ParseFloat_decimal_range HdecD)
    as (_ & _ & _ & _ & Hinf & _); [vm_compute; reflexivity | vm_compute; reflexivity |].
  destruct (Hamt ltac:(vm_compute; reflexivity)) as (Hz & Hrow & Hcnt).
  destruct (Hgst ltac:(vm_compute; reflexivity)) as (Hg & _).
  destruct (Hinf ltac:(vm_compute; reflexivity)) as (sg & Hsg & HrowD & HsumD).
  split; [vm_compute; reflexivity|]. split; [exact Hdec|].
  split; [exact Hz|]. split; [exact Hg|]. split; [|split].
  - apply (Hrow store_A). by_decide.
  - exact (proj1 (Hcnt UploadResult_zero)).
  - split; [vm_compute; reflexivity|]. split; [exact HdecD|].
    exists sg. split; [exact Hsg|]. split.
    + apply (HrowD store_A). by_decide.
    + exact (proj1 (HsumD UploadResult_zero)).
Defined.

(** C7: two batches, the rows of the later one between those of the
    earlier one. *)
Lemma reset_removes_latest_batch_witness :
  let once := snd (handleReset "POST" None None store_two_days) in
  let twice := snd (handleReset "POST" None None once) in
  once = filter (fun r => upload_date r = "2024-01-10") store_two_days /\
  once <> [] /\ twice = [].
Proof.
  assert (Hd : Forall (fun r => upload_date r <> "") store_two_days) by by_decide.
  destruct (reset_removes_latest_batch store_two_days Hd) as (_ & _ & H).
  apply (H "2024-01-10" "2024-01-11").
  - reflexivity.
  - by_decide.
  - by_decide.
  - apply Forall_forall. by_decide.
Defined.


(** ** The further properties at concrete inputs *)

(** Two records with the key A: the row of the first is stored, and no
    other row has the key. *)
Lemma first_row_of_a_key_is_kept_witness :
  let store :=
    snd (processCSV ParseFloat_decimal (Fields scenario_headers :: map Fields records_A_twice)
           "2024-01-10" (fun _ => None) []) in
  sql_bind tx_A ∈ store /\
  (forall r, r ∈ store -> enrolment_no_date r = EnrolmentNoDate tx_A -> r = sql_bind tx_A).
Proof.
  apply (first_row_of_a_key_is_kept ParseFloat_decimal scenario_headers records_A_twice
           "2024-01-10" [] [tx_A; tx_A_again] 0 tx_A).
  - apply Forall_forall. by_decide.
  - by_decide.
  - repeat constructor.
  - constructor.
  - reflexivity.
  - by_decide.
  - intros j t' Hj. lia.
Defined.

(** The first two records of the scenario, on a table that holds a row
    of the day before: the report of the day is the summary of the
    upload. *)
Lemma reports_match_upload_summary_witness :
  exists result,
    let store :=
      snd (processCSV ParseFloat_decimal
             (Fields scenario_headers :: map Fields (take 2 scenario_records))
             "2024-01-10" (fun _ => None) store_old) in
    fst (processCSV ParseFloat_decimal
           (Fields scenario_headers :: map Fields (take 2 scenario_records))
           "2024-01-10" (fun _ => None) store_old) = Ok result /\
    getAnalyticsFiltered None (where_upload_date_eq "2024-01-10") store =
      (Revenue result, GST result, Slabs result, Rows result) /\
    (store_old = [] ->
     getAnalytics None store = (Revenue result, GST result, Slabs result)).
Proof.
  apply (reports_match_upload_summary ParseFloat_decimal scenario_headers
           (take 2 scenario_records) "2024-01-10" store_old [tx_A; tx_B]).
  - apply Forall_forall. by_decide.
  - by_decide.
  - repeat constructor.
  - by_decide.
  - by_decide.
  - by_decide.
Defined.

(** The scenario uploaded on the day after the row of the table, then
    the reset: the table is the one before the upload. *)
Lemma reset_undoes_upload_witness :
  snd (handleReset "POST" None None
         (snd (processCSV ParseFloat_decimal scenario_doc "2024-01-10" locked store_old)))
    <> store_old /\
  snd (handleReset "POST" None None
         (snd (processCSV ParseFloat_decimal scenario_doc "2024-01-10" (fun _ => None)
                store_old))) = store_old.
Proof.
  split.
  - apply (reset_undoes_upload ParseFloat_decimal scenario_doc "2024-01-10" locked store_old).
    + discriminate.
    + by_decide.
    + vm_compute. reflexivity.
    + discriminate.
  - apply (reset_undoes_upload ParseFloat_decimal scenario_doc "2024-01-10" (fun _ => None)
             store_old).
    + discriminate.
    + by_decide.
    + vm_compute. discriminate.
Defined.

(** Two batches: the reset removes the row of 2024-01-11 from the
    history by day. *)
Lemma reset_removes_first_history_row_witness :
  let dmax := snd (getDateRange None store_two_days) in
  let tbl' := snd (handleReset "POST" None None store_two_days) in
  dmax = "2024-01-11" /\
  tbl' = filter (fun r => upload_date r <> dmax) store_two_days /\
  (exists h,
     Period h = dmax /\
     getHistory sum_left None "day" "" "" store_two_days =
       h :: getHistory sum_left None "day" "" "" tbl') /\
  (forall d, d <> dmax ->
     getAnalyticsFiltered None (where_upload_date_eq d) tbl' =
     getAnalyticsFiltered None (where_upload_date_eq d) store_two_days) /\
  getAnalyticsFiltered None (where_upload_date_eq dmax) tbl' =
    (f64_zero, f64_zero, SlabCounts_zero, 0).
Proof.
  split; [reflexivity|].
  apply (reset_removes_first_history_row sum_left store_two_days).
  - by_decide.
  - discriminate.
Defined.

(** The history from 2024-01-11 on, of the two batches. *)
Lemma history_range_is_calendar_range_witness :
  getHistory sum_left None "day" "2024-01-11" "" store_two_days =
  getHistory sum_left None "day" "" ""
    (filter (fun r => dated_within (Some {| year := 2024; month := 1; day := 11 |}) None r
                      = true) store_two_days).
Proof.
  apply (history_range_is_calendar_range sum_left None "day"
           (Some {| year := 2024; month := 1; day := 11 |}) None store_two_days).
  - intros d [= <-]. reflexivity.
  - discriminate.
  - by_decide.
Defined.

(** 2024-12-30 and 2025-01-01: two days, two weeks, two months, two
    years. *)
Lemma period_buckets_do_not_merge_witness :
  let r1 := row_on "A" "2024-12-30" in
  let r2 := row_on "B" "2025-01-01" in
  let d1 := {| year := 2024; month := 12; day := 30 |} in
  let d2 := {| year := 2025; month := 1; day := 1 |} in
  (groupExpr "day" r1 = groupExpr "day" r2 <-> d1 = d2) /\
  (groupExpr "week" r1 = groupExpr "week" r2 <->
     year d1 = year d2 /\ week_W d1 = week_W d2) /\
  (groupExpr "month" r1 = groupExpr "month" r2 <->
     year d1 = year d2 /\ month d1 = month d2) /\
  (groupExpr "year" r1 = groupExpr "year" r2 <-> year d1 = year d2).
Proof.
  apply (period_buckets_do_not_merge (row_on "A" "2024-12-30") (row_on "B" "2025-01-01")
           {| year := 2024; month := 12; day := 30 |}
           {| year := 2025; month := 1; day := 1 |}).
  - vm_compute. reflexivity.
  - vm_compute. reflexivity.
Defined.

(** The three rows of the new year, by week. *)
Lemma history_counts_add_up_witness :
  let rows := filter (fun r => in_range "" "" r = true) store_new_year in
  let H := getHistory sum_left None "week" "" "" store_new_year in
  sum_Z (map Total H) = Z.of_nat (length rows) /\
  sum_Z (map hCount125 H) = sql_count_eq f64_125 rows /\
  sum_Z (map hCount75 H) = sql_count_eq f64_75 rows /\
  sum_Z (map hCount0 H) = sql_count_eq f64_zero rows /\
  Forall (fun h => hCount125 h + hCount75 h + hCount0 h <= Total h) H.
Proof.
  apply (history_counts_add_up sum_left "week" "" "" store_new_year).
  - reflexivity.
  - reflexivity.
  - by_decide.
  - apply Forall_forall.
    assert (Hn : Forall (fun r =>
                   is_Some (sql_sum sum_left (map total_amount_charged
                     (group_of (groupExpr "week")
                        (filter (fun r => in_range "" "" r = true) store_new_year)
                        (groupExpr "week" r)))) /\
                   is_Some (sql_sum sum_left (map gst_amount
                     (group_of (groupExpr "week")
                        (filter (fun r => in_range "" "" r = true) store_new_year)
                        (groupExpr "week" r)))))
                (filter (fun r => in_range "" "" r = true) store_new_year)) by by_decide.
    exact Hn.
Defined.

(** The three rows of the new year: the counts of the dashboard are
    the sums of the history by month. *)
Lemma dashboard_counts_are_history_sums_witness :
  let H := getHistory sum_left None "month" "" "" store_new_year in
  let '(_, _, slabs, total) := getAnalyticsFiltered None where_none store_new_year in
  total = int_wrap (sum_Z (map Total H)) /\
  Count125 slabs = int_wrap (sum_Z (map hCount125 H)) /\
  Count75 slabs = int_wrap (sum_Z (map hCount75 H)) /\
  Count0 slabs = int_wrap (sum_Z (map hCount0 H)).
Proof.
  apply (dashboard_counts_are_history_sums sum_left "month" store_new_year).
  - by_decide.
  - by_decide.
  - apply Forall_forall.
    assert (Hn : Forall (fun r =>
                   is_Some (sql_sum sum_left (map total_amount_charged
                     (group_of (groupExpr "month") store_new_year (groupExpr "month" r)))) /\
                   is_Some (sql_sum sum_left (map gst_amount
                     (group_of (groupExpr "month") store_new_year (groupExpr "month" r)))))
                store_new_year) by by_decide.
    exact Hn.
Defined.

(** The admin chat asks for the report of the day; another chat asks
    for the backup. *)
Lemma bot_serves_the_admin_chat_witness :
  handleTelegramUpdate config_admin "2024-01-11" None store_two_days
    (Some {| Chat_ID := 7; Document := None; Command := Some "backup" |}) =
    Some (Send (Text 7 "Unauthorized.")) /\
  let e := Send (TodayReport 42 "2024-01-11" f64_zero f64_zero 1
                   {| Count125 := 0; Count75 := 0; Count0 := 1 |}) in
  handleTelegramUpdate config_admin "2024-01-11" None store_two_days
    (Some {| Chat_ID := 42; Document := None; Command := Some "today" |}) = Some e /\
  (serves e = true -> AdminChatID config_admin = 0 \/ 42 = AdminChatID config_admin) /\
  1 = int_wrap (Z.of_nat (length (filter (fun r => upload_date r = "2024-01-11")
                                     store_two_days))).
Proof.
  split; [vm_compute; reflexivity|]. cbv zeta.
  assert (H : handleTelegramUpdate config_admin "2024-01-11" None store_two_days
                (Some {| Chat_ID := 42; Document := None; Command := Some "today" |}) =
              Some (Send (TodayReport 42 "2024-01-11" f64_zero f64_zero 1
                            {| Count125 := 0; Count75 := 0; Count0 := 1 |})))
    by (vm_compute; reflexivity).
  destruct (bot_serves_the_admin_chat config_admin "2024-01-11" None store_two_days _ _ H)
    as (_ & Hserve & _ & Htoday).
  split; [exact H|]. split; [exact Hserve|].
  destruct (Htoday _ _ _ _ _ _ eq_refl) as (_ & _ & Hcount). exact (Hcount eq_refl).
Defined.

(** A request without a period. *)
Lemma history_defaults_to_days_witness :
  handleHistoryAPI sum_left None "" "" "" store_two_days =
    getHistory sum_left None "day" "" "" store_two_days /\
  page_Rows (handleHistory sum_left None None "" "" "" store_two_days) =
    getHistory sum_left None "day" "" "" store_two_days /\
  (page_MinDate (handleHistory sum_left None None "" "" "" store_two_days),
   page_MaxDate (handleHistory sum_left None None "" "" "" store_two_days)) =
    getDateRange None store_two_days.
Proof.
  apply (history_defaults_to_days sum_left None None "" "" "" store_two_days);
    discriminate.
Defined.

(** The table after the scenario is uploaded into a fresh database on
    2024-01-10. *)
Lemma program_stores_are_well_formed_witness :
  let tbl :=
    snd (processCSV ParseFloat_decimal scenario_doc
           (Format_2006_01_02 {| year := 2024; month := 1; day := 10 |})
           (fun _ => None) (initDB None)) in
  NoDup (keys tbl) /\
  Forall (fun r => exists d, valid_date d = true /\
                             upload_date r = Format_2006_01_02 d) tbl /\
  (forall period r, r ∈ tbl -> is_Some (groupExpr period r)) /\
  (tbl <> [] -> snd (handleReset "POST" None None tbl) <> tbl).
Proof.
  apply (program_stores_are_well_formed
           (snd (processCSV ParseFloat_decimal scenario_doc
                   (Format_2006_01_02 {| year := 2024; month := 1; day := 10 |})
                   (fun _ => None) (initDB None)))).
  apply ingested_upload; [reflexivity | apply ingested_init].
Defined.

(** The scenario with its first two columns exchanged. *)
Lemma column_order_is_free_witness :
  processCSV ParseFloat_decimal (Fields headers_swapped :: map Fields records_swapped)
    "2024-01-10" (fun _ => None) [] =
  processCSV ParseFloat_decimal (Fields scenario_headers :: map Fields scenario_records)
    "2024-01-10" (fun _ => None) [].
Proof.
  apply (column_order_is_free ParseFloat_decimal scenario_headers headers_swapped
           scenario_records records_swapped "2024-01-10" (fun _ => None) []).
  - apply Forall_forall. by_decide.
  - by_decide.
  - apply perm_swap.
  - repeat (constructor; [split; [reflexivity | split; [reflexivity | apply perm_swap]]|]).
    constructor.
Defined.

(** A row with a NaN amount and a GST of 5. *)
Lemma nan_amount_is_zero_in_reports_witness :
  Slabs (summary_step (TotalAmountCharged tx_NaN) (GSTAmount tx_NaN) UploadResult_zero) =
    Slabs UploadResult_zero /\
  total_amount_charged (sql_bind tx_NaN) = None /\
  gst_amount (sql_bind tx_NaN) = Some (f64_of_Z 5) /\
  scan_amounts (sql_bind tx_NaN) = (f64_zero, f64_zero).
Proof.
  destruct (nan_amount_is_zero_in_reports tx_NaN eq_refl) as (Hsum & Hnull & Hscan & _).
  split; [exact (proj1 (Hsum UploadResult_zero))|]. split; [exact Hnull|].
  split; [vm_compute; reflexivity | exact Hscan].
Defined.

(** The two batches: the range is from 2024-01-10 to 2024-01-11. *)
Lemma date_range_bounds_every_date_witness :
  getDateRange None store_two_days = ("2024-01-10", "2024-01-11") /\
  String.le (fst (getDateRange None store_two_days)) "2024-01-11" /\
  String.le "2024-01-11" (snd (getDateRange None store_two_days)).
Proof.
  split; [reflexivity|].
  destruct (date_range_bounds_every_date store_two_days) as (_ & _ & H).
  destruct (H (row_on "C" "2024-01-11")) as (_ & _ & H1 & H2);
    [apply list_elem_of_further, list_elem_of_here|].
  split; [exact H1 | exact H2].
Defined.

(** [GST_AMOUNT] on the columns 1 and 5: the field is read at 5. *)
Lemma last_header_of_a_name_is_read_witness :
  header_map 0 headers_twice ∅ !! "GST_AMOUNT" = Some 5%nat /\
  field (header_map 0 headers_twice ∅) ["A"; "10"; "125"; "OP1"; "Alice"; "12"]
    "GST_AMOUNT" = Some "12".
Proof.
  assert (H : last_column headers_twice "GST_AMOUNT" 5).
  { split; [vm_compute; reflexivity|].
    intros [|[|[|[|[|[|j']]]]]] Hj'; try lia. discriminate. }
  destruct (last_header_of_a_name_is_read headers_twice "GST_AMOUNT") as (H1 & H2 & _).
  split; [now apply H1|].
  exact (H2 ["A"; "10"; "125"; "OP1"; "Alice"; "12"] 5%nat H).
Defined.

(** The scenario, posted as the file jan.csv. *)
Lemma upload_request_is_answered_witness :
  let out :=
    handleUpload ParseFloat_decimal error_text "POST" (Some ("jan.csv", scenario_doc))
      None None "2024-01-10" (fun _ => None) [] in
  let result :=
    {| Filename := "jan.csv"; Rows := 3; Revenue := f64_of_Z 325; GST := f64_of_Z 25;
       Slabs := {| Count125 := 2; Count75 := 1; Count0 := 0 |} |} in
  fst (fst out) = Some (Redirect "/" 303) /\
  snd out = Some result /\
  exists name doc r,
    Some ("jan.csv", scenario_doc) = Some (name, doc) /\
    processCSV ParseFloat_decimal doc "2024-01-10" (fun _ => None) [] =
      (Ok r, snd (fst out)) /\
    Filename result = name /\ Rows result = Rows r /\ Revenue result = Revenue r /\
    GST result = GST r /\ Slabs result = Slabs r.
Proof.
  cbv zeta.
  destruct (upload_request_is_answered ParseFloat_decimal error_text "POST"
              (Some ("jan.csv", scenario_doc)) None None "2024-01-10" (fun _ => None) [])
    as (_ & Hresp & _ & Hrep & _).
  assert (E : snd (handleUpload ParseFloat_decimal error_text "POST"
                     (Some ("jan.csv", scenario_doc)) None None "2024-01-10"
                     (fun _ => None) []) =
              Some {| Filename := "jan.csv"; Rows := 3; Revenue := f64_of_Z 325;
                      GST := f64_of_Z 25;
                      Slabs := {| Count125 := 2; Count75 := 1; Count0 := 0 |} |})
    by (vm_compute; reflexivity).
  split; [|split; [exact E | exact (Hrep _ E)]].
  destruct Hresp as [[H _]|(msg & code & _ & _ & Hnone)]; [exact H|].
  rewrite E in Hnone. discriminate.
Defined.

(** The header row of the scenario alone. *)
Lemma file_without_records_witness :
  processCSV ParseFloat_decimal [Fields scenario_headers] "2024-01-10" locked store_old =
  (Ok UploadResult_zero, store_old).
Proof.
  destruct (file_without_records ParseFloat_decimal "2024-01-10" locked store_old)
    as (_ & _ & H).
  apply H. apply Forall_forall. by_decide.
Defined.
